(** * Stellar Pool: the physics engine ([src/modules/physics.js]) with the
      callbacks and pointer handlers of the game ([src/game.js]) that drive
      it, as a shallow embedding.

    Conventions of the embedding.
    - A JavaScript number is a real number ([R]): arithmetic is exact, there
      is no rounding, no NaN and no infinity.  Comparisons are the decidable
      comparisons of [R]; [Math.sqrt], [Math.cos], [Math.sin] are the functions
      of the Standard Library, [Math.atan2] and [Math.floor] are defined below.
    - [performance.now()] is an argument of the operation that reads it.
    - [Math.random()] reads an oracle: the world carries the sequence of the
      values it will return and the number of values consumed so far.
    - The document is an argument of [initialize], the only operation that
      reads it.  What the engine writes to it (style, transform, the
      [selected] class, console output) is left out, except the [active]
      class of a hole element, which is kept with the hole.
    - A [forEach] over an array of objects that mutates them is a left-to-right
      traversal that rebuilds the array.
    - The calls the game makes to its sound, vibration and notification
      collaborators from a callback are recorded as one [Event].
    - The scoring callbacks of the game come twice.  [updateScore],
      [onStarInHole] and [onStarHitMeteorite] are the callbacks with the last
      statement of [updateScore] taken as a call that returns: they describe
      the engine driven by a game whose callbacks return.  In
      [StellarPoolGame] that statement calls a method that
      [AchievementManager] does not define, and throws; [Strict] has the
      callbacks and the pass of [update] with that exception, and
      [updateX_spec] relates the two: a call of [update] that returns has
      done what the first reading says.  Statements about what the program
      does when a star scores are made on [Strict]. *)

From Stdlib Require Import Reals Lra Lia List String ZArith Bool Arith.
From Stdlib Require Import DecimalString.
Import ListNotations.

Local Open Scope R_scope.

(* ================================================================== *)
(** ** JavaScript numbers, arrays and strings *)

Module JS.

  (** [a < b] *)
Definition ltb (a b : R) : bool := if Rlt_dec a b then true else false.

  (** [a > b] *)
Definition gtb (a b : R) : bool := ltb b a.

  (** [a === b] on numbers *)
Definition eqb (a b : R) : bool := if Req_dec_T a b then true else false.

  (** [Math.min(a, b)] *)
Definition min (a b : R) : R := Rmin a b.

  (** [Math.floor(a)] *)
Definition floor (a : R) : Z := Int_part a.

  (** [Math.atan2(y, x)], with [Math.atan2(0, 0) = 0]. *)
Definition atan2 (y x : R) : R :=
  if Rlt_dec 0 x then atan (y / x)
  else if Rlt_dec x 0 then
         if Rle_dec 0 y then atan (y / x) + PI else atan (y / x) - PI
  else if Rlt_dec 0 y then PI / 2
  else if Rlt_dec y 0 then - PI / 2
  else 0.

  (** [arr[i]] for an integer [i]: [undefined] out of range. *)
Definition index {A : Type} (arr : list A) (i : Z) : option A :=
  if (i <? 0)%Z then None else nth_error arr (Z.to_nat i).

  (** [arr.find(p)] *)
Definition find {A : Type} (p : A -> bool) (arr : list A) : option A :=
  List.find p arr.

  (** [arr.findIndex(p)]: [-1] when no element satisfies [p]. *)
Fixpoint findIndex {A : Type} (p : A -> bool) (arr : list A) : Z :=
  match arr with
  | [] => (-1)%Z
  | a :: rest =>
      if p a then 0%Z
      else let r := findIndex p rest in
           if (r <? 0)%Z then (-1)%Z else (r + 1)%Z
  end.

  (** The decimal text of a natural number, as a template literal prints it. *)
Definition decimal (n : nat) : string := NilEmpty.string_of_uint (Nat.to_uint n).

  (** Truthiness of a string-or-null value: [null], [undefined] and the empty
      string are falsy. *)
Definition truthy (s : option string) : bool :=
  match s with
  | Some t => negb (String.eqb t EmptyString)
  | None => false
  end.

  (** [parseInt(text) || 0], where [None] stands for a text [parseInt] reads
      as NaN. *)
Definition parseIntOr0 (parsed : option Z) : R :=
  match parsed with
  | Some z => IZR z
  | None => 0
  end.

  (** Replace the element at position [i] by its image under [f]; nothing
      happens out of range. *)
Fixpoint update_at {A : Type} (i : nat) (f : A -> A) (arr : list A) {struct arr}
  : list A :=
  match arr, i with
  | [], _ => []
  | a :: rest, O => f a :: rest
  | a :: rest, S j => a :: update_at j f rest
  end.

  (** Apply [f] to the first element that satisfies [p] (the object that
      [find] returned, mutated in place). *)
Fixpoint update_first {A : Type} (p : A -> bool) (f : A -> A) (arr : list A)
  : list A :=
  match arr with
  | [] => []
  | a :: rest => if p a then f a :: rest else a :: update_first p f rest
  end.

End JS.

(* ================================================================== *)
(** ** Data model *)

(** [{ x, y }] *)
Module Vec.
Record t : Type := mk { x : R; y : R }.
Definition zero : t := mk 0 0.
(** The Euclidean length, [Math.sqrt(x * x + y * y)]. *)
Definition norm (v : t) : R := sqrt (x v * x v + y v * y v).
End Vec.

Inductive StarType : Type := yellow | blue | red.

Record StarProps : Type := { props_mass : R; props_restitution : R }.

Module Star.
Record t : Type := mk {
  id : string;
  type : StarType;
  x : R;
  y : R;
  velocity : Vec.t;
  mass : R;
  restitution : R;
  moving : bool;
  inHole : bool;
  rotation : R;
  radius : R
}.

Definition set_x (v : R) (s : t) : t :=
  mk (id s) (type s) v (y s) (velocity s) (mass s) (restitution s)
     (moving s) (inHole s) (rotation s) (radius s).
Definition set_y (v : R) (s : t) : t :=
  mk (id s) (type s) (x s) v (velocity s) (mass s) (restitution s)
     (moving s) (inHole s) (rotation s) (radius s).
Definition set_velocity (v : Vec.t) (s : t) : t :=
  mk (id s) (type s) (x s) (y s) v (mass s) (restitution s)
     (moving s) (inHole s) (rotation s) (radius s).
Definition set_velocity_x (v : R) (s : t) : t :=
  set_velocity (Vec.mk v (Vec.y (velocity s))) s.
Definition set_velocity_y (v : R) (s : t) : t :=
  set_velocity (Vec.mk (Vec.x (velocity s)) v) s.
Definition set_moving (b : bool) (s : t) : t :=
  mk (id s) (type s) (x s) (y s) (velocity s) (mass s) (restitution s)
     b (inHole s) (rotation s) (radius s).
Definition set_inHole (b : bool) (s : t) : t :=
  mk (id s) (type s) (x s) (y s) (velocity s) (mass s) (restitution s)
     (moving s) b (rotation s) (radius s).
Definition set_rotation (v : R) (s : t) : t :=
  mk (id s) (type s) (x s) (y s) (velocity s) (mass s) (restitution s)
     (moving s) (inHole s) v (radius s).
End Star.

(** The DOM element of a hole: its [active] class. *)
Record HoleElement : Type := { classActive : bool }.

Module Hole.
Record t : Type := mk {
  id : string;
  element : option HoleElement;
  x : R;
  y : R;
  radius : R;
  isActive : bool
}.
End Hole.

Module Meteorite.
Record t : Type := mk {
  id : string;
  x : R;
  y : R;
  radius : R;
  velocity : Vec.t;
  rotationSpeed : R;
  rotation : R
}.
End Meteorite.

(** The fields of [PhysicsEngine] that are assigned after construction.
    [activeHole] is a reference to an element of [holes]: its position. *)
Record PhysicsEngine : Type := mkEngine {
  stars : list Star.t;
  holes : list Hole.t;
  meteorites : list Meteorite.t;
  enabled : bool;
  activeHole : option nat;
  lastUpdateTime : R;
  useDeltaTime : bool
}.

(** The fields the constructor sets once. *)
Definition gravity : R := 2 / 10.
Definition friction : R := 98 / 100.
Definition minSpeed : R := 5 / 10.
Definition collisionThreshold : R := 25.
Definition MAX_VELOCITY : R := 25.
Definition STAR_RADIUS : R := 16.
Definition HOLE_RADIUS : R := 20.
Definition METEORITE_RADIUS : R := 15.
Definition POWER_FACTOR : R := 12 / 100.
Definition STAR_PROPERTIES (t : StarType) : StarProps :=
  match t with
  | yellow => {| props_mass := 1; props_restitution := 8 / 10 |}
  | blue => {| props_mass := 8 / 10; props_restitution := 9 / 10 |}
  | red => {| props_mass := 12 / 10; props_restitution := 7 / 10 |}
  end.

(** The constructor's engine. *)
Definition newPhysicsEngine : PhysicsEngine :=
  mkEngine [] [] [] true None 0 true.

(** The part of [gameState] that the engine and the pointer handlers read or
    write, and the score. *)
Record GameState : Type := mkGameState {
  gameActive : bool;
  gamePaused : bool;
  selectedStar : option string;
  startPos : Vec.t;
  currentPos : Vec.t;
  dragging : bool;
  dragStartTime : R;
  camera : Vec.t;
  score : Z
}.

(** What a callback of the game tells its sound, vibration and notification
    collaborators. *)
Inductive Event : Type :=
| StarBounce (starId : string)
| StarInHole (starId : string)
| StarHitMeteorite (starId : string)
| StarShot.

Record World : Type := mkWorld {
  physicsEngine : PhysicsEngine;
  gameState : GameState;
  events : list Event;          (* oldest first *)
  Math_random : nat -> R;       (* the values [Math.random()] will return *)
  randomDraws : nat             (* how many of them were consumed *)
}.

Definition set_engine (e : PhysicsEngine) (w : World) : World :=
  mkWorld e (gameState w) (events w) (Math_random w) (randomDraws w).
Definition set_gameState (g : GameState) (w : World) : World :=
  mkWorld (physicsEngine w) g (events w) (Math_random w) (randomDraws w).

Definition set_stars (l : list Star.t) (e : PhysicsEngine) : PhysicsEngine :=
  mkEngine l (holes e) (meteorites e) (enabled e) (activeHole e)
           (lastUpdateTime e) (useDeltaTime e).
Definition set_holes (l : list Hole.t) (e : PhysicsEngine) : PhysicsEngine :=
  mkEngine (stars e) l (meteorites e) (enabled e) (activeHole e)
           (lastUpdateTime e) (useDeltaTime e).
Definition set_meteorites (l : list Meteorite.t) (e : PhysicsEngine)
  : PhysicsEngine :=
  mkEngine (stars e) (holes e) l (enabled e) (activeHole e)
           (lastUpdateTime e) (useDeltaTime e).
Definition set_enabled (b : bool) (e : PhysicsEngine) : PhysicsEngine :=
  mkEngine (stars e) (holes e) (meteorites e) b (activeHole e)
           (lastUpdateTime e) (useDeltaTime e).
Definition set_activeHole (a : option nat) (e : PhysicsEngine) : PhysicsEngine :=
  mkEngine (stars e) (holes e) (meteorites e) (enabled e) a
           (lastUpdateTime e) (useDeltaTime e).
Definition set_lastUpdateTime (t : R) (e : PhysicsEngine) : PhysicsEngine :=
  mkEngine (stars e) (holes e) (meteorites e) (enabled e) (activeHole e)
           t (useDeltaTime e).

Definition set_selectedStar (s : option string) (g : GameState) : GameState :=
  mkGameState (gameActive g) (gamePaused g) s (startPos g) (currentPos g)
              (dragging g) (dragStartTime g) (camera g) (score g).
Definition set_startPos (p : Vec.t) (g : GameState) : GameState :=
  mkGameState (gameActive g) (gamePaused g) (selectedStar g) p (currentPos g)
              (dragging g) (dragStartTime g) (camera g) (score g).
Definition set_currentPos (p : Vec.t) (g : GameState) : GameState :=
  mkGameState (gameActive g) (gamePaused g) (selectedStar g) (startPos g) p
              (dragging g) (dragStartTime g) (camera g) (score g).
Definition set_dragging (b : bool) (g : GameState) : GameState :=
  mkGameState (gameActive g) (gamePaused g) (selectedStar g) (startPos g)
              (currentPos g) b (dragStartTime g) (camera g) (score g).
Definition set_dragStartTime (t : R) (g : GameState) : GameState :=
  mkGameState (gameActive g) (gamePaused g) (selectedStar g) (startPos g)
              (currentPos g) (dragging g) t (camera g) (score g).
Definition set_camera (c : Vec.t) (g : GameState) : GameState :=
  mkGameState (gameActive g) (gamePaused g) (selectedStar g) (startPos g)
              (currentPos g) (dragging g) (dragStartTime g) c (score g).
Definition set_score (n : Z) (g : GameState) : GameState :=
  mkGameState (gameActive g) (gamePaused g) (selectedStar g) (startPos g)
              (currentPos g) (dragging g) (dragStartTime g) (camera g) n.

(** [Math.random()]: the next value of the oracle. *)
Definition random (w : World) : R * World :=
  (Math_random w (randomDraws w),
   mkWorld (physicsEngine w) (gameState w) (events w) (Math_random w)
           (S (randomDraws w))).

(* ================================================================== *)
(** ** The game's callbacks ([src/game.js]) *)

Definition notify (ev : Event) (w : World) : World :=
  mkWorld (physicsEngine w) (gameState w) (events w ++ [ev]) (Math_random w)
          (randomDraws w).

(** [updateScore(points)] up to its last statement: the score is added to
    and shown.  The last statement, the call of
    [achievementManager.checkScoreAchievement], is in [Strict.updateScoreX],
    where it throws. *)
Definition updateScore (points : Z) (w : World) : World :=
  set_gameState (set_score (score (gameState w) + points)%Z (gameState w)) w.

(** [onStarBounce(starId)]: plays the bounce sound. *)
Definition onStarBounce (starId : string) (w : World) : World :=
  notify (StarBounce starId) w.

(** [onStarInHole(starId)] with an [updateScore] that returns: awards 100
    points, then sound, vibration and notification.  With the [updateScore]
    of the game the callback ends in its first statement:
    [Strict.onStarInHoleX]. *)
Definition onStarInHole (starId : string) (w : World) : World :=
  notify (StarInHole starId) (updateScore 100 w).

(** [onStarHitMeteorite(starId)] with an [updateScore] that returns: takes
    50 points, then sound, vibration and notification.  With the
    [updateScore] of the game the callback ends in its first statement:
    [Strict.onStarHitMeteoriteX]. *)
Definition onStarHitMeteorite (starId : string) (w : World) : World :=
  notify (StarHitMeteorite starId) (updateScore (-50) w).

(* ================================================================== *)
(** ** The document the engine is initialised from *)

(** A star element: [parseInt] of its [style.left] and [style.top]. *)
Record StarElement : Type := { star_left : option Z; star_top : option Z }.

(** A [.hole] element: [parseInt] of [style.left] and [style.top], whether
    its class list contains [active], and the two percentages of a
    [translate(a%, b%)] transform when the style has one that the regular
    expression matches. *)
Record HoleNode : Type := {
  hole_left : option Z;
  hole_top : option Z;
  hole_classActive : bool;
  hole_translate : option (R * R)
}.

(** A [.meteorite] element. *)
Record MeteoriteNode : Type := { met_left : option Z; met_top : option Z }.

Record Document : Type := {
  getElementById : string -> option StarElement;
  holeNodes : list HoleNode;               (* querySelectorAll(".hole") *)
  meteoriteNodes : list MeteoriteNode;     (* querySelectorAll(".meteorite") *)
  unifiedBoard : option (R * R)            (* offsetWidth, offsetHeight *)
}.

(* ================================================================== *)
(** ** [PhysicsEngine]: initialisation *)

Definition starElements : list (string * StarType) :=
  [("star1"%string, yellow); ("star2"%string, blue); ("star3"%string, red)].

(** [initializeStars()] *)
Definition initializeStars (doc : Document) (w : World) : World :=
  let found :=
    flat_map
      (fun starInfo : string * StarType =>
         match getElementById doc (fst starInfo) with
         | None => []
         | Some element =>
             let starProps := STAR_PROPERTIES (snd starInfo) in
             [Star.mk (fst starInfo) (snd starInfo)
                      (JS.parseIntOr0 (star_left element))
                      (JS.parseIntOr0 (star_top element))
                      (Vec.mk 0 0)
                      (props_mass starProps) (props_restitution starProps)
                      false false 0 STAR_RADIUS]
         end)
      starElements in
  set_engine (set_stars found (physicsEngine w)) w.

(** One hole of [initializeHoles()], from the element at position [index]. *)
Definition initializeHole (doc : Document) (index : nat) (element : HoleNode)
  : Hole.t :=
  let x0 := JS.parseIntOr0 (hole_left element) in
  let y0 := JS.parseIntOr0 (hole_top element) in
  let pos :=
    match hole_translate element, unifiedBoard doc with
    | Some (px, py), Some (boardWidth, boardHeight) =>
        (boardWidth * (px / 100), boardHeight * (py / 100))
    | _, _ => (x0, y0)
    end in
  Hole.mk (append "hole" (JS.decimal (index + 1)))
          (Some {| classActive := hole_classActive element |})
          (fst pos) (snd pos) HOLE_RADIUS (hole_classActive element).

Fixpoint initializeHolesFrom (doc : Document) (index : nat)
  (elements : list HoleNode) : list Hole.t :=
  match elements with
  | [] => []
  | element :: rest =>
      initializeHole doc index element :: initializeHolesFrom doc (S index) rest
  end.

(** [initializeHoles()] *)
Definition initializeHoles (doc : Document) (w : World) : World :=
  set_engine
    (set_holes (initializeHolesFrom doc 0 (holeNodes doc)) (physicsEngine w)) w.

Fixpoint initializeMeteoritesFrom (index : nat) (elements : list MeteoriteNode)
  (w : World) : list Meteorite.t * World :=
  match elements with
  | [] => ([], w)
  | element :: rest =>
      let '(rx, w) := random w in
      let '(ry, w) := random w in
      let '(rs, w) := random w in
      let meteorite :=
        Meteorite.mk (append "meteorite" (JS.decimal (index + 1)))
                     (JS.parseIntOr0 (met_left element))
                     (JS.parseIntOr0 (met_top element))
                     METEORITE_RADIUS
                     (Vec.mk ((rx - 5 / 10) * 2) ((ry - 5 / 10) * 2))
                     ((rs - 5 / 10) * 4)
                     0 in
      let '(others, w) := initializeMeteoritesFrom (S index) rest w in
      (meteorite :: others, w)
  end.

(** [initializeMeteorites()] *)
Definition initializeMeteorites (doc : Document) (w : World) : World :=
  let '(ms, w1) := initializeMeteoritesFrom 0 (meteoriteNodes doc) w in
  set_engine (set_meteorites ms (physicsEngine w1)) w1.

Definition deactivate (hole : Hole.t) : Hole.t :=
  match Hole.element hole with
  | Some _ =>
      Hole.mk (Hole.id hole) (Some {| classActive := false |})
              (Hole.x hole) (Hole.y hole) (Hole.radius hole) false
  | None => hole
  end.

Definition activate (hole : Hole.t) : Hole.t :=
  Hole.mk (Hole.id hole) (Some {| classActive := true |})
          (Hole.x hole) (Hole.y hole) (Hole.radius hole) true.

(** [setActiveHole()] *)
Definition setActiveHole (w : World) : World :=
  let cleared := map deactivate (holes (physicsEngine w)) in
  let '(r, w1) := random w in
  let randomIndex := JS.floor (r * INR (List.length cleared)) in
  let e1 := set_holes cleared (physicsEngine w1) in
  match JS.index cleared randomIndex with
  | Some activeHole =>
      match Hole.element activeHole with
      | Some _ =>
          set_engine
            (set_activeHole (Some (Z.to_nat randomIndex))
               (set_holes (JS.update_at (Z.to_nat randomIndex) activate cleared)
                          e1))
            w1
      | None => set_engine e1 w1
      end
  | None => set_engine e1 w1
  end.

(** [initialize()]; [now] is the value of [performance.now()]. *)
Definition initialize (doc : Document) (now : R) (w : World) : World :=
  let w := initializeStars doc w in
  let w := initializeHoles doc w in
  let w := initializeMeteorites doc w in
  let w := setActiveHole w in
  set_engine (set_lastUpdateTime now (physicsEngine w)) w.

(* ================================================================== *)
(** ** [PhysicsEngine]: shooting *)

Definition hasId (starId : string) (s : Star.t) : bool :=
  String.eqb (Star.id s) starId.

(** [shootStar(gameState, dragDistance, dragTime)] *)
Definition shootStar (dragDistance dragTime : R) (w : World) : World :=
  let gs := gameState w in
  let e := physicsEngine w in
  if negb (JS.truthy (selectedStar gs)) || negb (enabled e) then w
  else
    match selectedStar gs with
    | None => w
    | Some selected =>
        match JS.find (hasId selected) (stars e) with
        | None => w
        | Some star =>
            let dx := Vec.x (startPos gs) - Vec.x (currentPos gs) in
            let dy := Vec.y (startPos gs) - Vec.y (currentPos gs) in
            let directionLength := sqrt (dx * dx + dy * dy) in
            if JS.eqb directionLength 0 then w
            else
              let power := dragDistance * POWER_FACTOR in
              let power := JS.min power MAX_VELOCITY in
              let vx := (dx / directionLength) * power * (1 / Star.mass star) in
              let vy := (dy / directionLength) * power * (1 / Star.mass star) in
              let fired (s : Star.t) :=
                Star.set_inHole false
                  (Star.set_moving true
                     (Star.set_velocity_y vy (Star.set_velocity_x vx s))) in
              set_engine
                (set_stars (JS.update_first (hasId selected) fired (stars e)) e)
                w
        end
    end.

(** The drag distance [handleMouseUp] passes to [shootStar]. *)
Definition dragDistanceOf (gs : GameState) : R :=
  let dx := Vec.x (startPos gs) - Vec.x (currentPos gs) in
  let dy := Vec.y (startPos gs) - Vec.y (currentPos gs) in
  sqrt (dx * dx + dy * dy).

(* ================================================================== *)
(** ** [PhysicsEngine]: the update pass *)

(** [checkBoundaryCollisions(star)] *)
Definition checkBoundaryCollisions (star : Star.t) (w : World)
  : Star.t * World :=
  let boardWidth := 1600 in
  let boardHeight := 800 in
  let radius := Star.radius star in
  let '(star, w) :=
    if JS.ltb (Star.x star) radius then
      (Star.set_velocity_x
         (Vec.x (Star.velocity star) * - Star.restitution star)
         (Star.set_x radius star),
       onStarBounce (Star.id star) w)
    else if JS.gtb (Star.x star) (boardWidth - radius) then
      (Star.set_velocity_x
         (Vec.x (Star.velocity star) * - Star.restitution star)
         (Star.set_x (boardWidth - radius) star),
       onStarBounce (Star.id star) w)
    else (star, w) in
  if JS.ltb (Star.y star) radius then
    (Star.set_velocity_y
       (Vec.y (Star.velocity star) * - Star.restitution star)
       (Star.set_y radius star),
     onStarBounce (Star.id star) w)
  else if JS.gtb (Star.y star) (boardHeight - radius) then
    (Star.set_velocity_y
       (Vec.y (Star.velocity star) * - Star.restitution star)
       (Star.set_y (boardHeight - radius) star),
     onStarBounce (Star.id star) w)
  else (star, w).

(** The callback of the [forEach] of [checkHoleCollisions]. *)
Definition checkHole (acc : Star.t * World) (hole : Hole.t) : Star.t * World :=
  let '(star, w) := acc in
  let dx := Star.x star - Hole.x hole in
  let dy := Star.y star - Hole.y hole in
  let distance := sqrt (dx * dx + dy * dy) in
  if JS.ltb distance collisionThreshold then
    if Hole.isActive hole then
      (Star.set_velocity_y 0
         (Star.set_velocity_x 0
            (Star.set_moving false (Star.set_inHole true star))),
       onStarInHole (Star.id star) w)
    else
      let angle := JS.atan2 dy dx in
      let power := 2 in
      (Star.set_velocity_y (sin angle * power)
         (Star.set_velocity_x (cos angle * power) star),
       w)
  else (star, w).

(** [checkHoleCollisions(star)] *)
Definition checkHoleCollisions (star : Star.t) (w : World) : Star.t * World :=
  fold_left checkHole (holes (physicsEngine w)) (star, w).

(** The callback of the [forEach] of [checkMeteoriteCollisions]. *)
Definition checkMeteorite (acc : Star.t * World) (meteorite : Meteorite.t)
  : Star.t * World :=
  let '(star, w) := acc in
  let dx := Star.x star - Meteorite.x meteorite in
  let dy := Star.y star - Meteorite.y meteorite in
  let distance := sqrt (dx * dx + dy * dy) in
  if JS.ltb distance (Star.radius star + Meteorite.radius meteorite) then
    let angle := JS.atan2 dy dx in
    let power := 5 in
    (Star.set_velocity_y (sin angle * power)
       (Star.set_velocity_x (cos angle * power) star),
     onStarHitMeteorite (Star.id star) w)
  else (star, w).

(** [checkMeteoriteCollisions(star)] *)
Definition checkMeteoriteCollisions (star : Star.t) (w : World)
  : Star.t * World :=
  fold_left checkMeteorite (meteorites (physicsEngine w)) (star, w).

(** [Math.sqrt(vx * vx + vy * vy)] *)
Definition speed (star : Star.t) : R :=
  sqrt (Vec.x (Star.velocity star) * Vec.x (Star.velocity star)
        + Vec.y (Star.velocity star) * Vec.y (Star.velocity star)).

(** Friction, displacement and rotation: the first half of the callback of
    [updateStars]. *)
Definition integrate (deltaTime : R) (star : Star.t) : Star.t :=
  let star := Star.set_velocity_x (Vec.x (Star.velocity star) * friction) star in
  let star := Star.set_velocity_y (Vec.y (Star.velocity star) * friction) star in
  let star := Star.set_x (Star.x star + Vec.x (Star.velocity star) * deltaTime) star in
  let star := Star.set_y (Star.y star + Vec.y (Star.velocity star) * deltaTime) star in
  Star.set_rotation
    (Star.rotation star + (Vec.x (Star.velocity star) * (1 / 10)) * deltaTime)
    star.

(** The stopping rule at the end of the callback of [updateStars]. *)
Definition stopIfSlow (star : Star.t) : Star.t :=
  if JS.ltb (speed star) minSpeed then
    Star.set_moving false (Star.set_velocity_y 0 (Star.set_velocity_x 0 star))
  else star.

(** The callback of the [forEach] of [updateStars]. *)
Definition updateStar (deltaTime : R) (star : Star.t) (w : World)
  : Star.t * World :=
  if negb (Star.moving star) || Star.inHole star then (star, w)
  else
    let star := integrate deltaTime star in
    let '(star, w) := checkBoundaryCollisions star w in
    let '(star, w) := checkHoleCollisions star w in
    let '(star, w) := checkMeteoriteCollisions star w in
    (stopIfSlow star, w).

(** [this.stars.forEach(callback)]: the stars in stored order, each callback
    seeing the world its predecessors left. *)
Fixpoint forEachStar (callback : Star.t -> World -> Star.t * World)
  (l : list Star.t) (w : World) : list Star.t * World :=
  match l with
  | [] => ([], w)
  | star :: rest =>
      let '(star', w1) := callback star w in
      let '(rest', w2) := forEachStar callback rest w1 in
      (star' :: rest', w2)
  end.

(** [updateStars(deltaTime)] *)
Definition updateStars (deltaTime : R) (w : World) : World :=
  let '(l, w1) := forEachStar (updateStar deltaTime) (stars (physicsEngine w)) w in
  set_engine (set_stars l (physicsEngine w1)) w1.

(** The callback of the [forEach] of [updateMeteorites]. *)
Definition updateMeteorite (deltaTime : R) (m : Meteorite.t) : Meteorite.t :=
  let x1 := Meteorite.x m + Vec.x (Meteorite.velocity m) * deltaTime in
  let y1 := Meteorite.y m + Vec.y (Meteorite.velocity m) * deltaTime in
  let rotation1 :=
    Meteorite.rotation m + Meteorite.rotationSpeed m * (1 / 100) * deltaTime in
  let boardWidth := 1600 in
  let boardHeight := 800 in
  let radius := Meteorite.radius m in
  let '(vx2, x2) :=
    if JS.ltb x1 radius || JS.gtb x1 (boardWidth - radius) then
      (Vec.x (Meteorite.velocity m) * -1,
       if JS.ltb x1 radius then radius else boardWidth - radius)
    else (Vec.x (Meteorite.velocity m), x1) in
  let '(vy2, y2) :=
    if JS.ltb y1 radius || JS.gtb y1 (boardHeight - radius) then
      (Vec.y (Meteorite.velocity m) * -1,
       if JS.ltb y1 radius then radius else boardHeight - radius)
    else (Vec.y (Meteorite.velocity m), y1) in
  Meteorite.mk (Meteorite.id m) x2 y2 radius (Vec.mk vx2 vy2)
               (Meteorite.rotationSpeed m) rotation1.

(** [updateMeteorites(deltaTime)] *)
Definition updateMeteorites (deltaTime : R) (w : World) : World :=
  set_engine
    (set_meteorites
       (map (updateMeteorite deltaTime) (meteorites (physicsEngine w)))
       (physicsEngine w))
    w.

Definition isFlying (s : Star.t) : bool := Star.moving s && negb (Star.inHole s).

(** [updateCamera(gameState)]; [game.updateCameraPosition()] only writes the
    board's transform. *)
Definition updateCamera (w : World) : World :=
  let movingStars := filter isFlying (stars (physicsEngine w)) in
  if (0 <? List.length movingStars)%nat then
    let totalX := fold_left (fun acc s => acc + Star.x s) movingStars 0 in
    let totalY := fold_left (fun acc s => acc + Star.y s) movingStars 0 in
    let avgX := totalX / INR (List.length movingStars) in
    let avgY := totalY / INR (List.length movingStars) in
    let cameraSpeed := 5 / 100 in
    let cam := camera (gameState w) in
    let cam' :=
      Vec.mk (Vec.x cam + (avgX - Vec.x cam) * cameraSpeed)
             (Vec.y cam + (avgY - Vec.y cam) * cameraSpeed) in
    set_gameState (set_camera cam' (gameState w)) w
  else w.

(** [(currentTime - this.lastUpdateTime) / 16.67] *)
Definition rawDeltaTime (e : PhysicsEngine) (currentTime : R) : R :=
  (currentTime - lastUpdateTime e) / (1667 / 100).

(** The multiplier [update] passes on: the two [if]s on [deltaTime]. *)
Definition deltaTimeOf (e : PhysicsEngine) (currentTime : R) : R :=
  let deltaTime := rawDeltaTime e currentTime in
  let deltaTime := if JS.gtb deltaTime 3 then 1 else deltaTime in
  if negb (useDeltaTime e) then 1 else deltaTime.

(** [update(gameState)]; [currentTime] is the value of [performance.now()]. *)
Definition update (currentTime : R) (w : World) : World :=
  if negb (enabled (physicsEngine w)) then w
  else
    let deltaTime := deltaTimeOf (physicsEngine w) currentTime in
    let w := set_engine (set_lastUpdateTime currentTime (physicsEngine w)) w in
    let w := updateStars deltaTime w in
    let w := updateMeteorites deltaTime w in
    updateCamera w.

(* ================================================================== *)
(** ** [PhysicsEngine]: selection, switches *)

Definition isAvailable (s : Star.t) : bool :=
  negb (Star.moving s) && negb (Star.inHole s).

(** The index [switchActiveStar] starts from: the position of the selected
    star among the available ones, [-1] when nothing is selected or the
    selected star is not available. *)
Definition selectedIndexOf (selectedStarId : option string)
  (availableStars : list Star.t) : Z :=
  if JS.truthy selectedStarId then
    match selectedStarId with
    | Some sid => JS.findIndex (hasId sid) availableStars
    | None => (-1)%Z
    end
  else (-1)%Z.

(** [switchActiveStar()].  The result is [None] when reading [nextStar.id]
    throws; otherwise the new world and the value returned, [None] being
    [undefined]. *)
Definition switchActiveStar (w : World) : option (World * option string) :=
  let availableStars := filter isAvailable (stars (physicsEngine w)) in
  if (List.length availableStars =? 0)%nat then Some (w, None)
  else
    let selectedIndex :=
      selectedIndexOf (selectedStar (gameState w)) availableStars in
    let nextIndex :=
      Z.rem (selectedIndex + 1) (Z.of_nat (List.length availableStars)) in
    match JS.index availableStars nextIndex with
    | None => None
    | Some nextStar =>
        Some (set_gameState
                (set_selectedStar (Some (Star.id nextStar)) (gameState w)) w,
              None)
    end.

(** [isAnyStarMoving()] *)
Definition isAnyStarMoving (w : World) : bool :=
  existsb Star.moving (stars (physicsEngine w)).

(** [togglePhysics()] *)
Definition togglePhysics (w : World) : World * bool :=
  let b := negb (enabled (physicsEngine w)) in
  (set_engine (set_enabled b (physicsEngine w)) w, b).

(** [cleanup()] *)
Definition cleanup (w : World) : World :=
  set_engine
    (set_meteorites [] (set_holes [] (set_stars [] (set_enabled false (physicsEngine w)))))
    w.

(* ================================================================== *)
(** ** The game's pointer handlers ([src/game.js]) *)

(** What a handler reads from a mouse event: the id of the [.star] element
    the target lies in, if any, and the pointer position. *)
Record MouseEvent : Type := {
  closestStar : option string;
  clientX : R;
  clientY : R
}.

(** [handleMouseDown(event)]; [now] is the value of [performance.now()]. *)
Definition handleMouseDown (event : MouseEvent) (now : R) (w : World) : World :=
  let gs := gameState w in
  if negb (gameActive gs) || gamePaused gs then w
  else
    match closestStar event with
    | None => w
    | Some starId =>
        match JS.find (hasId starId) (stars (physicsEngine w)) with
        | None => w
        | Some star =>
            if Star.moving star || Star.inHole star then w
            else
              let gs := set_selectedStar (Some starId) gs in
              let gs := set_dragging true gs in
              let gs := set_dragStartTime now gs in
              let gs := set_startPos (Vec.mk (clientX event) (clientY event)) gs in
              let gs := set_currentPos (Vec.mk (clientX event) (clientY event)) gs in
              set_gameState gs w
        end
    end.

(** [handleMouseMove(event)] *)
Definition handleMouseMove (event : MouseEvent) (w : World) : World :=
  let gs := gameState w in
  if negb (gameActive gs) || negb (dragging gs) then w
  else
    set_gameState
      (set_currentPos (Vec.mk (clientX event) (clientY event)) gs) w.

(** [handleMouseUp(event)]; [now] is the value of [performance.now()]. *)
Definition handleMouseUp (now : R) (w : World) : World :=
  let gs := gameState w in
  if negb (gameActive gs) || negb (dragging gs) then w
  else
    let dragTime := now - dragStartTime gs in
    let dragDistance := dragDistanceOf gs in
    let w :=
      if JS.gtb dragDistance 10 then
        notify StarShot (shootStar dragDistance dragTime w)
      else w in
    set_gameState (set_dragging false (gameState w)) w.

(* ================================================================== *)
(** ** Runs of the game *)

(** What can happen to a world once a level is initialised. *)
Inductive Op : Type :=
| OpInitialize (doc : Document) (now : R)
| OpSetActiveHole
| OpUpdate (now : R)
| OpShootStar (dragDistance dragTime : R)
| OpSwitchActiveStar
| OpTogglePhysics
| OpCleanup
| OpMouseDown (event : MouseEvent) (now : R)
| OpMouseMove (event : MouseEvent)
| OpMouseUp (now : R).

Definition exec (w : World) (op : Op) : World :=
  match op with
  | OpInitialize doc now => initialize doc now w
  | OpSetActiveHole => setActiveHole w
  | OpUpdate now => update now w
  | OpShootStar dragDistance dragTime => shootStar dragDistance dragTime w
  | OpSwitchActiveStar =>
      match switchActiveStar w with
      | Some (w', _) => w'
      | None => w
      end
  | OpTogglePhysics => fst (togglePhysics w)
  | OpCleanup => cleanup w
  | OpMouseDown event now => handleMouseDown event now w
  | OpMouseMove event => handleMouseMove event w
  | OpMouseUp now => handleMouseUp now w
  end.

Definition run (ops : list Op) (w : World) : World := fold_left exec ops w.

(** [Math.random()] returns a value in [[0, 1)]. *)
Definition randomInRange (w : World) : Prop :=
  forall n, 0 <= Math_random w n < 1.

(** The star at position [i] of [this.stars]. *)
Definition starAt (i : nat) (w : World) : option Star.t :=
  nth_error (stars (physicsEngine w)) i.




(** Whether a star lies within the board by its radius, as
    [checkBoundaryCollisions] clamps it. *)
Definition inBoard (s : Star.t) : Prop :=
  Star.radius s <= Star.x s <= 1600 - Star.radius s
  /\ Star.radius s <= Star.y s <= 800 - Star.radius s.

(** The distance [checkHoleCollisions] compares with the threshold. *)
Definition holeDistance (s : Star.t) (hole : Hole.t) : R :=
  sqrt ((Star.x s - Hole.x hole) * (Star.x s - Hole.x hole)
        + (Star.y s - Hole.y hole) * (Star.y s - Hole.y hole)).

(** The distance [checkMeteoriteCollisions] compares with the sum of radii. *)
Definition meteoriteDistance (s : Star.t) (m : Meteorite.t) : R :=
  sqrt ((Star.x s - Meteorite.x m) * (Star.x s - Meteorite.x m)
        + (Star.y s - Meteorite.y m) * (Star.y s - Meteorite.y m)).

(** A step of star [s] in engine [e] meets nothing: once displaced, the star
    is inside the board, at least the capture threshold away from every
    hole, and touches no meteorite. *)
Definition contactFree (e : PhysicsEngine) (deltaTime : R) (s : Star.t) : Prop :=
  let s1 := integrate deltaTime s in
  inBoard s1
  /\ Forall (fun hole => collisionThreshold <= holeDistance s1 hole) (holes e)
  /\ Forall (fun m => Star.radius s1 + Meteorite.radius m <= meteoriteDistance s1 m)
            (meteorites e).

(** The drag vector of a gesture: from where it started to where it is. *)
Definition dragVector (gs : GameState) : Vec.t :=
  Vec.mk (Vec.x (currentPos gs) - Vec.x (startPos gs))
         (Vec.y (currentPos gs) - Vec.y (startPos gs)).

(** The velocity [shootStar] assigns. *)
Definition launchVelocity (gs : GameState) (dragDistance mass : R) : Vec.t :=
  let dx := Vec.x (startPos gs) - Vec.x (currentPos gs) in
  let dy := Vec.y (startPos gs) - Vec.y (currentPos gs) in
  let power := JS.min (dragDistance * POWER_FACTOR) MAX_VELOCITY in
  Vec.mk ((dx / dragDistanceOf gs) * power * (1 / mass))
         ((dy / dragDistanceOf gs) * power * (1 / mass)).

(** The position, among the available stars, that [switchActiveStar] selects:
    the one after the selected star when that star is available, the first
    one otherwise. *)
Definition nextAvailable (selectedStarId : option string)
  (availableStars : list Star.t) : nat :=
  Z.to_nat (Z.rem (selectedIndexOf selectedStarId availableStars + 1)
                  (Z.of_nat (List.length availableStars))).

(** What a callback of the game may change: the score and the events. *)
Definition callbacksOnly (w w' : World) : Prop :=
  physicsEngine w' = physicsEngine w
  /\ Math_random w' = Math_random w
  /\ randomDraws w' = randomDraws w
  /\ set_score 0 (gameState w') = set_score 0 (gameState w).

(* ================================================================== *)
(** ** Sample worlds *)

Module Sample.

(** A star as [initializeStars] builds it, then placed and set in motion. *)
Definition star (id : string) (type : StarType) (x y vx vy : R)
  (moving inHole : bool) : Star.t :=
  Star.mk id type x y (Vec.mk vx vy)
          (props_mass (STAR_PROPERTIES type))
          (props_restitution (STAR_PROPERTIES type))
          moving inHole 0 STAR_RADIUS.

Definition hole (id : string) (x y : R) (isActive : bool) : Hole.t :=
  Hole.mk id (Some {| classActive := isActive |}) x y HOLE_RADIUS isActive.

Definition meteorite (id : string) (x y : R) : Meteorite.t :=
  Meteorite.mk id x y METEORITE_RADIUS (Vec.mk 0 0) 0 0.

(** The game state of [startGame], with the given drag. *)
Definition gameState (startPos currentPos : Vec.t) : GameState :=
  mkGameState true false (Some "star1"%string) startPos currentPos false 0
              (Vec.mk 800 400) 0.

Definition world (ss : list Star.t) (hs : list Hole.t) (ms : list Meteorite.t)
  (active : option nat) (gs : GameState) (rnd : R) : World :=
  mkWorld (mkEngine ss hs ms true active 0 true) gs [] (fun _ => rnd) 0.

(** One sixtieth of a second on the engine's clock. *)
Definition frame : R := 1667 / 100.

(** A star one step away from the active hole, with a meteorite next to the
    hole. *)
Definition holeNextToMeteorite : World :=
  world [star "star1" yellow 451 400 50 0 true false]
        [hole "hole1" 500 400 true]
        [meteorite "meteorite1" 520 400]
        (Some 0%nat) (gameState Vec.zero Vec.zero) (1 / 2).

(** A star one step away from the first, active, hole of two; the next value
    of [Math.random()] is 0.9. *)
Definition twoHoles : World :=
  world [star "star1" yellow 451 400 50 0 true false]
        [hole "hole1" 500 400 true; hole "hole2" 1000 400 false]
        []
        (Some 0%nat) (gameState Vec.zero Vec.zero) (9 / 10).

(** A star in flight at speed 10, on an engine last updated at time 0. *)
Definition flying : World :=
  world [star "star1" yellow 800 400 10 0 true false] [] [] None
        (gameState Vec.zero Vec.zero) (1 / 2).

(** The selected star is in flight while a drag of length 100 to the left
    ends. *)
Definition dragOnMoving : World :=
  world [star "star1" yellow 800 400 1 0 true false] [] [] None
        (gameState (Vec.mk 100 0) (Vec.mk 0 0)) (1 / 2).

(** The selected star is at rest while a drag of length 100 to the left
    ends. *)
Definition dragOnResting : World :=
  world [star "star1" yellow 800 400 0 0 false false] [] [] None
        (gameState (Vec.mk 100 0) (Vec.mk 0 0)) (1 / 2).

(** Three stars, the second one selected and in flight. *)
Definition secondInFlight : World :=
  mkWorld
    (mkEngine [star "star1" yellow 800 400 0 0 false false;
               star "star2" blue 850 450 3 0 true false;
               star "star3" red 750 450 0 0 false false]
              [] [] true None 0 true)
    (mkGameState true false (Some "star2"%string) Vec.zero Vec.zero false 0
                 (Vec.mk 800 400) 0)
    [] (fun _ => 1 / 2) 0.

(** A document whose only star element has no [left] and no [top], with no
    hole and no meteorite. *)
Definition bareDocument : Document :=
  {| getElementById :=
       fun id => if String.eqb id "star1"
                 then Some {| star_left := None; star_top := None |}
                 else None;
     holeNodes := [];
     meteoriteNodes := [];
     unifiedBoard := None |}.

(** A document with the three stars, two holes and one meteorite. *)
Definition smallDocument : Document :=
  {| getElementById :=
       fun _ => Some {| star_left := Some 800%Z; star_top := Some 400%Z |};
     holeNodes :=
       [ {| hole_left := Some 200%Z; hole_top := Some 200%Z;
            hole_classActive := false; hole_translate := None |};
         {| hole_left := Some 1400%Z; hole_top := Some 600%Z;
            hole_classActive := true; hole_translate := None |} ];
     meteoriteNodes := [ {| met_left := Some 300%Z; met_top := Some 300%Z |} ];
     unifiedBoard := None |}.

(** The world of a game that has not initialised its level yet. *)
Definition fresh : World :=
  mkWorld newPhysicsEngine (gameState Vec.zero Vec.zero) [] (fun _ => 1 / 2) 0.




End Sample.

(* ================================================================== *)
(** ** The way a call ends *)

(** A call returns, or throws an exception that reaches its caller; either
    way with the state it has then. *)
Inductive Completion (A : Type) : Type :=
| Normal (a : A)
| Thrown (a : A).

Arguments Normal {A} a.
Arguments Thrown {A} a.

(** [a <= b] *)
Definition JS_leb (a b : R) : bool := if Rle_dec a b then true else false.

(** [arr.splice(i, 1)] *)
Fixpoint JS_splice1 {A : Type} (i : nat) (arr : list A) {struct arr} : list A :=
  match arr, i with
  | [], _ => []
  | _ :: rest, O => rest
  | a :: rest, S j => a :: JS_splice1 j rest
  end.

(* ================================================================== *)
(** ** [PhysicsEngine]: resetting the stars *)

Definition basePositions : list Vec.t :=
  [Vec.mk 800 400; Vec.mk 850 450; Vec.mk 750 450].

(** The assignments of the callback of [resetStars], once the base position
    is known. *)
Definition resetStar (base : Vec.t) (star : Star.t) : Star.t :=
  let star := Star.set_x (Vec.x base) star in
  let star := Star.set_y (Vec.y base) star in
  let star := Star.set_velocity_x 0 star in
  let star := Star.set_velocity_y 0 star in
  let star := Star.set_moving false star in
  let star := Star.set_inHole false star in
  Star.set_rotation 0 star.

(** The [forEach] of [resetStars], from position [index] on: reading
    [basePositions[index].x] throws when [index] is past the table. *)
Fixpoint resetStarsFrom (index : nat) (l : list Star.t) : Completion (list Star.t) :=
  match l with
  | [] => Normal []
  | star :: rest =>
      match nth_error basePositions index with
      | None => Thrown (star :: rest)
      | Some base =>
          match resetStarsFrom (S index) rest with
          | Normal rest' => Normal (resetStar base star :: rest')
          | Thrown rest' => Thrown (resetStar base star :: rest')
          end
      end
  end.

(** [resetStars()] *)
Definition resetStars (w : World) : Completion World :=
  match resetStarsFrom 0 (stars (physicsEngine w)) with
  | Normal l =>
      Normal (set_gameState
                (set_selectedStar (Some "star1"%string) (gameState w))
                (set_engine (set_stars l (physicsEngine w)) w))
  | Thrown l => Thrown (set_engine (set_stars l (physicsEngine w)) w)
  end.

(* ================================================================== *)
(** ** The game's keyboard handler and powerups ([src/game.js]) *)

Definition set_gamePaused (b : bool) (g : GameState) : GameState :=
  mkGameState (gameActive g) b (selectedStar g) (startPos g) (currentPos g)
              (dragging g) (dragStartTime g) (camera g) (score g).

(** [togglePause()] *)
Definition togglePause (w : World) : World * bool :=
  let b := negb (gamePaused (gameState w)) in
  (set_gameState (set_gamePaused b (gameState w)) w, b).

(** The values of [event.key] that [handleKeyDown] tells apart. *)
Inductive Key : Type :=
| Escape | Space | ArrowLeft | ArrowRight | ArrowUp | ArrowDown | OtherKey.

(** [this.gameState.camera.x += dx; this.gameState.camera.y += dy] *)
Definition moveCamera (dx dy : R) (w : World) : World :=
  let cam := camera (gameState w) in
  set_gameState
    (set_camera (Vec.mk (Vec.x cam + dx) (Vec.y cam + dy)) (gameState w)) w.

(** [handleKeyDown(event)]; [None] when the call throws. *)
Definition handleKeyDown (key : Key) (w : World) : option World :=
  if negb (gameActive (gameState w)) then Some w
  else
    match key with
    | Escape => Some (fst (togglePause w))
    | Space =>
        if negb (gamePaused (gameState w)) then
          match switchActiveStar w with
          | Some (w', _) => Some w'
          | None => None
          end
        else Some w
    | ArrowLeft =>
        Some (if negb (gamePaused (gameState w)) then moveCamera (- 20) 0 w else w)
    | ArrowRight =>
        Some (if negb (gamePaused (gameState w)) then moveCamera 20 0 w else w)
    | ArrowUp =>
        Some (if negb (gamePaused (gameState w)) then moveCamera 0 (- 20) w else w)
    | ArrowDown =>
        Some (if negb (gamePaused (gameState w)) then moveCamera 0 20 w else w)
    | OtherKey => Some w
    end.

Module Powerup.
Record t : Type := mk {
  type : string;
  duration : R;
  timeLeft : R
}.
End Powerup.

(** What [updatePowerups] tells the interface. *)
Inductive PowerupEvent : Type :=
| PowerupDisplay (type : string) (fraction : R)   (* updatePowerupDisplay(type, true, fraction) *)
| PowerupExpired (type : string).                 (* deactivatePowerup(type) *)

(** [powerup.timeLeft -= deltaTime / 1000] *)
Definition tick (deltaTime : R) (powerup : Powerup.t) : Powerup.t :=
  Powerup.mk (Powerup.type powerup) (Powerup.duration powerup)
             (Powerup.timeLeft powerup - deltaTime / 1000).

(** The [for] loop of [updatePowerups], with [n] the number of positions
    still to visit: the next one is [n - 1]. *)
Fixpoint updatePowerupsLoop (deltaTime : R) (n : nat)
  (powerups : list Powerup.t) (log : list PowerupEvent)
  : Completion (list Powerup.t * list PowerupEvent) :=
  match n with
  | O => Normal (powerups, log)
  | S i =>
      match nth_error powerups i with
      | None => Thrown (powerups, log)
      | Some powerup =>
          let powerup := tick deltaTime powerup in
          let powerups := JS.update_at i (fun _ => powerup) powerups in
          let log :=
            log ++ [PowerupDisplay (Powerup.type powerup)
                      (Powerup.timeLeft powerup / Powerup.duration powerup)] in
          if JS_leb (Powerup.timeLeft powerup) 0 then
            updatePowerupsLoop deltaTime i (JS_splice1 i powerups)
              (log ++ [PowerupExpired (Powerup.type powerup)])
          else updatePowerupsLoop deltaTime i powerups log
      end
  end.

(** [updatePowerups(deltaTime)], on [gameState.powerups]. *)
Definition updatePowerups (deltaTime : R) (powerups : list Powerup.t)
  : Completion (list Powerup.t * list PowerupEvent) :=
  updatePowerupsLoop deltaTime (List.length powerups) powerups [].

(** What [updatePowerups] tells the interface about one powerup. *)
Definition powerupEvents (deltaTime : R) (powerup : Powerup.t)
  : list PowerupEvent :=
  let p := tick deltaTime powerup in
  PowerupDisplay (Powerup.type p) (Powerup.timeLeft p / Powerup.duration p)
  :: (if JS_leb (Powerup.timeLeft p) 0 then [PowerupExpired (Powerup.type p)]
      else []).

(** [!(powerup.timeLeft <= 0)] *)
Definition stillRunning (powerup : Powerup.t) : bool :=
  negb (JS_leb (Powerup.timeLeft powerup) 0).

(* ================================================================== *)
(** ** The update pass with the game's own callbacks *)

(** The definitions above take the callbacks of the game as calls that
    return.  [StellarPoolGame.updateScore] ends with a call of
    [this.achievementManager.checkScoreAchievement], and the class
    [AchievementManager] defines no method of that name: the call throws a
    TypeError, which nothing between [updateScore] and the caller of
    [update] catches.  This module follows the exception. *)
Module Strict.

(** The methods of the class [AchievementManager]. *)
Definition achievementManagerMethods : list string :=
  [ "constructor"; "initializeAchievements"; "loadProgress"; "saveProgress";
    "updateProgress"; "incrementProgress"; "handleConsecutiveHits";
    "handleArrayProgress"; "updateSessionTime"; "updateExploration";
    "unlockAchievement"; "showAchievementNotification";
    "getUnlockedAchievements"; "getAllProgress"; "getStats";
    "resetAllAchievements"; "onGameStart"; "onStarShoot"; "onStarInHole";
    "onStarMiss"; "onLevelComplete"; "onScoreUpdate"; "onLevelReached";
    "onPowerupUsed"; "onStarUsed"; "onCameraMove"; "onSessionTime";
    "onGameOver" ]%string.

Definition hasMethod (name : string) : bool :=
  existsb (String.eqb name) achievementManagerMethods.

(** [updateScore(points)]: the score is added to and shown, then the
    achievement manager is called. *)
Definition updateScoreX (points : Z) (w : World) : Completion World :=
  let w :=
    set_gameState (set_score (score (gameState w) + points)%Z (gameState w)) w in
  if hasMethod "checkScoreAchievement" then Normal w else Thrown w.

(** [onStarInHole(starId)] *)
Definition onStarInHoleX (starId : string) (w : World) : Completion World :=
  match updateScoreX 100 w with
  | Normal w => Normal (notify (StarInHole starId) w)
  | Thrown w => Thrown w
  end.

(** [onStarHitMeteorite(starId)] *)
Definition onStarHitMeteoriteX (starId : string) (w : World) : Completion World :=
  match updateScoreX (-50) w with
  | Normal w => Normal (notify (StarHitMeteorite starId) w)
  | Thrown w => Thrown w
  end.

(** A [forEach] that an exception of its callback leaves. *)
Fixpoint forEachX {A S : Type} (callback : S -> A -> Completion S) (l : list A)
  (s : S) : Completion S :=
  match l with
  | [] => Normal s
  | a :: rest =>
      match callback s a with
      | Normal s' => forEachX callback rest s'
      | Thrown s' => Thrown s'
      end
  end.

(** The callback of the [forEach] of [checkHoleCollisions]. *)
Definition checkHoleX (acc : Star.t * World) (hole : Hole.t)
  : Completion (Star.t * World) :=
  let '(star, w) := acc in
  let dx := Star.x star - Hole.x hole in
  let dy := Star.y star - Hole.y hole in
  let distance := sqrt (dx * dx + dy * dy) in
  if JS.ltb distance collisionThreshold then
    if Hole.isActive hole then
      let star :=
        Star.set_velocity_y 0
          (Star.set_velocity_x 0
             (Star.set_moving false (Star.set_inHole true star))) in
      match onStarInHoleX (Star.id star) w with
      | Normal w => Normal (star, w)
      | Thrown w => Thrown (star, w)
      end
    else
      let angle := JS.atan2 dy dx in
      let power := 2 in
      Normal (Star.set_velocity_y (sin angle * power)
                (Star.set_velocity_x (cos angle * power) star),
              w)
  else Normal (star, w).

(** [checkHoleCollisions(star)] *)
Definition checkHoleCollisionsX (star : Star.t) (w : World)
  : Completion (Star.t * World) :=
  forEachX checkHoleX (holes (physicsEngine w)) (star, w).

(** The callback of the [forEach] of [checkMeteoriteCollisions]. *)
Definition checkMeteoriteX (acc : Star.t * World) (meteorite : Meteorite.t)
  : Completion (Star.t * World) :=
  let '(star, w) := acc in
  let dx := Star.x star - Meteorite.x meteorite in
  let dy := Star.y star - Meteorite.y meteorite in
  let distance := sqrt (dx * dx + dy * dy) in
  if JS.ltb distance (Star.radius star + Meteorite.radius meteorite) then
    let angle := JS.atan2 dy dx in
    let power := 5 in
    let star :=
      Star.set_velocity_y (sin angle * power)
        (Star.set_velocity_x (cos angle * power) star) in
    match onStarHitMeteoriteX (Star.id star) w with
    | Normal w => Normal (star, w)
    | Thrown w => Thrown (star, w)
    end
  else Normal (star, w).

(** [checkMeteoriteCollisions(star)] *)
Definition checkMeteoriteCollisionsX (star : Star.t) (w : World)
  : Completion (Star.t * World) :=
  forEachX checkMeteoriteX (meteorites (physicsEngine w)) (star, w).

(** The callback of the [forEach] of [updateStars]. *)
Definition updateStarX (deltaTime : R) (star : Star.t) (w : World)
  : Completion (Star.t * World) :=
  if negb (Star.moving star) || Star.inHole star then Normal (star, w)
  else
    let star := integrate deltaTime star in
    let '(star, w) := checkBoundaryCollisions star w in
    match checkHoleCollisionsX star w with
    | Thrown r => Thrown r
    | Normal (star, w) =>
        match checkMeteoriteCollisionsX star w with
        | Thrown r => Thrown r
        | Normal (star, w) => Normal (stopIfSlow star, w)
        end
    end.

(** [this.stars.forEach(callback)]: when the callback throws, the star it was
    working on keeps what was assigned to it, and the later stars are not
    visited. *)
Fixpoint forEachStarX (callback : Star.t -> World -> Completion (Star.t * World))
  (l : list Star.t) (w : World) : Completion (list Star.t * World) :=
  match l with
  | [] => Normal ([], w)
  | star :: rest =>
      match callback star w with
      | Thrown (star', w1) => Thrown (star' :: rest, w1)
      | Normal (star', w1) =>
          match forEachStarX callback rest w1 with
          | Normal (rest', w2) => Normal (star' :: rest', w2)
          | Thrown (rest', w2) => Thrown (star' :: rest', w2)
          end
      end
  end.

(** [updateStars(deltaTime)] *)
Definition updateStarsX (deltaTime : R) (w : World) : Completion World :=
  match forEachStarX (updateStarX deltaTime) (stars (physicsEngine w)) w with
  | Normal (l, w1) => Normal (set_engine (set_stars l (physicsEngine w1)) w1)
  | Thrown (l, w1) => Thrown (set_engine (set_stars l (physicsEngine w1)) w1)
  end.

(** [update(gameState)] *)
Definition updateX (currentTime : R) (w : World) : Completion World :=
  if negb (enabled (physicsEngine w)) then Normal w
  else
    let deltaTime := deltaTimeOf (physicsEngine w) currentTime in
    let w := set_engine (set_lastUpdateTime currentTime (physicsEngine w)) w in
    match updateStarsX deltaTime w with
    | Thrown w => Thrown w
    | Normal w =>
        let w := updateMeteorites deltaTime w in
        Normal (updateCamera w)
    end.

End Strict.

(** The state a call leaves behind, whether it returned or threw. *)
Definition stateAfter {A : Type} (c : Completion A) : A :=
  match c with
  | Normal a => a
  | Thrown a => a
  end.

(** How many stars the [forEach] of [updateStars] calls its callback on: all
    of them, or those up to and including the one whose callback throws. *)
Fixpoint visitedStars
  (callback : Star.t -> World -> Completion (Star.t * World))
  (l : list Star.t) (w : World) : nat :=
  match l with
  | [] => 0
  | star :: rest =>
      match callback star w with
      | Thrown _ => 1
      | Normal (_, w1) => S (visitedStars callback rest w1)
      end
  end.

(** The same for a call of [update]. *)
Definition visited (currentTime : R) (w : World) : nat :=
  if negb (enabled (physicsEngine w)) then 0%nat
  else
    visitedStars
      (Strict.updateStarX (deltaTimeOf (physicsEngine w) currentTime))
      (stars (physicsEngine w))
      (set_engine (set_lastUpdateTime currentTime (physicsEngine w)) w).

(** One operation on the game, with the callbacks as the game has them: the
    operation runs to its end or to its exception, and the state it leaves is
    the state the next operation finds.  Of the operations only [update]
    reaches [updateScore]. *)
Definition execX (w : World) (op : Op) : World :=
  match op with
  | OpUpdate now => stateAfter (Strict.updateX now w)
  | _ => exec w op
  end.

Definition runX (ops : list Op) (w : World) : World := fold_left execX ops w.


(** A star in a hole is not moving and has velocity (0, 0). *)
Definition settledAtRest (w : World) : Prop :=
  Forall (fun s => Star.inHole s = true ->
                   Star.moving s = false /\ Star.velocity s = Vec.mk 0 0)
         (stars (physicsEngine w)).


(** An event of [onStarBounce]. *)
Definition isBounce (ev : Event) : Prop := exists starId, ev = StarBounce starId.

(** What separates two worlds when only bounces were called back in between:
    the events, by bounces appended. *)
Definition bouncesOnly (w w' : World) : Prop :=
  physicsEngine w' = physicsEngine w
  /\ gameState w' = gameState w
  /\ Math_random w' = Math_random w
  /\ randomDraws w' = randomDraws w
  /\ exists l, events w' = events w ++ l /\ Forall isBounce l.

(** The centroid [updateCamera] steers to: the mean position of the stars in
    flight. *)
Definition centroid (l : list Star.t) : Vec.t :=
  let flying := filter isFlying l in
  Vec.mk (fold_left (fun acc s => acc + Star.x s) flying 0 / INR (List.length flying))
         (fold_left (fun acc s => acc + Star.y s) flying 0 / INR (List.length flying)).

(** Whether a meteorite lies within the board by its radius. *)
Definition meteoriteInBoard (m : Meteorite.t) : Prop :=
  Meteorite.radius m <= Meteorite.x m <= 1600 - Meteorite.radius m
  /\ Meteorite.radius m <= Meteorite.y m <= 800 - Meteorite.radius m.

(** A star in a hole is not moving. *)
Definition settledStarsRest (w : World) : Prop :=
  Forall (fun s => Star.inHole s = true -> Star.moving s = false)
         (stars (physicsEngine w)).

(** [switchActiveStar] called [n] times. *)
Fixpoint switchTimes (n : nat) (w : World) : World :=
  match n with
  | O => w
  | S k => switchTimes k (exec w OpSwitchActiveStar)
  end.

(** Whether [checkHoleCollisions] captures a star at that place into that
    hole: the hole is active and closer than the threshold. *)
Definition captures (s : Star.t) (hole : Hole.t) : bool :=
  JS.ltb (holeDistance s hole) collisionThreshold && Hole.isActive hole.

(** Whether [checkMeteoriteCollisions] finds the star touching the meteorite. *)
Definition touches (s : Star.t) (m : Meteorite.t) : bool :=
  JS.ltb (meteoriteDistance s m) (Star.radius s + Meteorite.radius m).

(** What a star is, as opposed to where it is and how it moves. *)
Definition body (s : Star.t) : string * StarType * R * R * R :=
  (Star.id s, Star.type s, Star.mass s, Star.restitution s, Star.radius s).

(** What separates the world at a call of [update] from the world its
    exception leaves, as far as the game's side goes: bounces were reported,
    then the score was changed once, by +100 or by -50. *)
Definition scoredOnce (w w' : World) : Prop :=
  physicsEngine w' = physicsEngine w
  /\ set_score 0 (gameState w') = set_score 0 (gameState w)
  /\ (score (gameState w') = (score (gameState w) + 100)%Z
      \/ score (gameState w') = (score (gameState w) - 50)%Z)
  /\ Math_random w' = Math_random w
  /\ randomDraws w' = randomDraws w
  /\ exists l, events w' = events w ++ l /\ Forall isBounce l.

(** A star as the callback that threw left it: settled in a hole, or pushed
    by a meteorite. *)
Definition settledOrPushed (s : Star.t) : Prop :=
  (Star.inHole s = true /\ Star.moving s = false /\ Star.velocity s = Vec.mk 0 0)
  \/ speed s = 5.

(* ================================================================== *)
(** ** Comparisons *)

Lemma ltb_true (a b : R) : a < b -> JS.ltb a b = true.
Proof. intros H. unfold JS.ltb. destruct (Rlt_dec a b); [reflexivity | contradiction]. Qed.

Lemma ltb_false (a b : R) : b <= a -> JS.ltb a b = false.
Proof. intros H. unfold JS.ltb. destruct (Rlt_dec a b); [lra | reflexivity]. Qed.

Lemma ltb_spec (a b : R) : reflect (a < b) (JS.ltb a b).
Proof. unfold JS.ltb. destruct (Rlt_dec a b); constructor; assumption. Qed.

Lemma gtb_true (a b : R) : b < a -> JS.gtb a b = true.
Proof. apply ltb_true. Qed.

Lemma gtb_false (a b : R) : a <= b -> JS.gtb a b = false.
Proof. apply ltb_false. Qed.

Lemma eqb_true (a b : R) : a = b -> JS.eqb a b = true.
Proof. intros H. unfold JS.eqb. destruct (Req_dec_T a b); [reflexivity | contradiction]. Qed.

Lemma eqb_false (a b : R) : a <> b -> JS.eqb a b = false.
Proof. intros H. unfold JS.eqb. destruct (Req_dec_T a b); [contradiction | reflexivity]. Qed.

(** Linear real arithmetic, with the engine's constants unfolded. *)
Ltac engine_lra :=
  unfold friction, minSpeed, collisionThreshold, MAX_VELOCITY, STAR_RADIUS,
    HOLE_RADIUS, METEORITE_RADIUS, POWER_FACTOR in *;
  lra.

(** Decide the comparisons of the goal that linear arithmetic can decide. *)
Ltac js_compare :=
  repeat match goal with
    | |- context [JS.ltb ?a ?b] =>
        first [ rewrite (ltb_true a b) by engine_lra
              | rewrite (ltb_false a b) by engine_lra ]
    | |- context [JS.gtb ?a ?b] =>
        first [ rewrite (gtb_true a b) by engine_lra
              | rewrite (gtb_false a b) by engine_lra ]
    | |- context [JS.eqb ?a ?b] =>
        first [ rewrite (eqb_true a b) by engine_lra
              | rewrite (eqb_false a b) by engine_lra ]
    end.

(* ================================================================== *)
(** ** The time multiplier of [update] *)

Lemma deltaTimeOf_le_3 (e : PhysicsEngine) (now : R) : deltaTimeOf e now <= 3.
Proof.
  unfold deltaTimeOf.
  destruct (useDeltaTime e); simpl; [ | lra].
  destruct (ltb_spec 3 (rawDeltaTime e now)) as [H | H]; unfold JS.gtb.
  - rewrite ltb_true by assumption. lra.
  - rewrite ltb_false by lra. lra.
Qed.

Lemma update_enabled (now : R) (w : World) :
  enabled (physicsEngine w) = true ->
  update now w =
    let dt := deltaTimeOf (physicsEngine w) now in
    updateCamera
      (updateMeteorites dt
         (updateStars dt
            (set_engine (set_lastUpdateTime now (physicsEngine w)) w))).
Proof. intros H. unfold update. rewrite H. reflexivity. Qed.

(* ================================================================== *)
(** ** What the update pass leaves alone *)

Lemma callbacksOnly_refl (w : World) : callbacksOnly w w.
Proof. repeat split. Qed.

Lemma callbacksOnly_trans (w1 w2 w3 : World) :
  callbacksOnly w1 w2 -> callbacksOnly w2 w3 -> callbacksOnly w1 w3.
Proof.
  intros (A1 & A2 & A3 & A4) (B1 & B2 & B3 & B4).
  repeat split; congruence.
Qed.

Lemma onStarBounce_frame (id : string) (w : World) :
  callbacksOnly w (onStarBounce id w).
Proof. repeat split. Qed.

Lemma onStarInHole_frame (id : string) (w : World) :
  callbacksOnly w (onStarInHole id w).
Proof. repeat split. Qed.

Lemma onStarHitMeteorite_frame (id : string) (w : World) :
  callbacksOnly w (onStarHitMeteorite id w).
Proof. repeat split. Qed.

Lemma checkBoundaryCollisions_frame (s : Star.t) (w : World) :
  callbacksOnly w (snd (checkBoundaryCollisions s w)).
Proof.
  unfold checkBoundaryCollisions.
  destruct (JS.ltb (Star.x s) (Star.radius s));
    [ | destruct (JS.gtb (Star.x s) (1600 - Star.radius s)) ];
    cbv zeta beta iota;
    match goal with
    | |- context [if JS.ltb ?a ?b then _ else _] => destruct (JS.ltb a b)
    end;
    try match goal with
    | |- context [if JS.gtb ?a ?b then _ else _] => destruct (JS.gtb a b)
    end;
    simpl; repeat split.
Qed.

Lemma checkHole_frame (acc : Star.t * World) (hole : Hole.t) :
  callbacksOnly (snd acc) (snd (checkHole acc hole)).
Proof.
  destruct acc as [s w]. unfold checkHole.
  destruct (JS.ltb _ _); [destruct (Hole.isActive hole) | ]; simpl; repeat split.
Qed.

Lemma checkMeteorite_frame (acc : Star.t * World) (m : Meteorite.t) :
  callbacksOnly (snd acc) (snd (checkMeteorite acc m)).
Proof.
  destruct acc as [s w]. unfold checkMeteorite.
  destruct (JS.ltb _ _); simpl; repeat split.
Qed.

Lemma fold_frame {A : Type} (f : Star.t * World -> A -> Star.t * World)
  (Hf : forall acc a, callbacksOnly (snd acc) (snd (f acc a)))
  (l : list A) (acc : Star.t * World) :
  callbacksOnly (snd acc) (snd (fold_left f l acc)).
Proof.
  revert acc. induction l as [ | a l IH]; intros acc; simpl.
  - apply callbacksOnly_refl.
  - eapply callbacksOnly_trans; [apply Hf | apply IH].
Qed.

Lemma checkHoleCollisions_frame (s : Star.t) (w : World) :
  callbacksOnly w (snd (checkHoleCollisions s w)).
Proof. unfold checkHoleCollisions. apply (fold_frame checkHole checkHole_frame _ (s, w)). Qed.

Lemma checkMeteoriteCollisions_frame (s : Star.t) (w : World) :
  callbacksOnly w (snd (checkMeteoriteCollisions s w)).
Proof.
  unfold checkMeteoriteCollisions.
  apply (fold_frame checkMeteorite checkMeteorite_frame _ (s, w)).
Qed.

Lemma updateStar_frame (dt : R) (s : Star.t) (w : World) :
  callbacksOnly w (snd (updateStar dt s w)).
Proof.
  unfold updateStar.
  destruct (negb (Star.moving s) || Star.inHole s); [apply callbacksOnly_refl | ].
  pose proof (checkBoundaryCollisions_frame (integrate dt s) w) as H1.
  destruct (checkBoundaryCollisions (integrate dt s) w) as [s1 w1].
  pose proof (checkHoleCollisions_frame s1 w1) as H2.
  destruct (checkHoleCollisions s1 w1) as [s2 w2].
  pose proof (checkMeteoriteCollisions_frame s2 w2) as H3.
  destruct (checkMeteoriteCollisions s2 w2) as [s3 w3].
  simpl in *.
  eapply callbacksOnly_trans; [ | exact H3].
  eapply callbacksOnly_trans; [exact H1 | exact H2].
Qed.

Lemma forEachStar_frame (f : Star.t -> World -> Star.t * World)
  (Hf : forall s w, callbacksOnly w (snd (f s w)))
  (l : list Star.t) (w : World) :
  callbacksOnly w (snd (forEachStar f l w)).
Proof.
  revert w. induction l as [ | s l IH]; intros w; simpl.
  - apply callbacksOnly_refl.
  - pose proof (Hf s w) as H1. destruct (f s w) as [s' w1].
    pose proof (IH w1) as H2. destruct (forEachStar f l w1) as [l' w2].
    simpl in *. eapply callbacksOnly_trans; eassumption.
Qed.

(** The star at position [i] after the traversal is the callback's result on
    the star at position [i] before it, in a world that differs from the
    initial one by callbacks only. *)
Lemma forEachStar_nth (f : Star.t -> World -> Star.t * World)
  (Hf : forall s w, callbacksOnly w (snd (f s w)))
  (l : list Star.t) (w : World) (i : nat) (s : Star.t) :
  nth_error l i = Some s ->
  exists wi, callbacksOnly w wi
             /\ nth_error (fst (forEachStar f l w)) i = Some (fst (f s wi)).
Proof.
  revert w i. induction l as [ | a l IH]; intros w i Hi.
  - destruct i; discriminate.
  - simpl. pose proof (Hf a w) as H1. destruct (f a w) as [a' w1] eqn:Ea.
    destruct i as [ | i]; simpl in Hi.
    + injection Hi as ->. exists w. split; [apply callbacksOnly_refl | ].
      destruct (forEachStar f l w1). simpl. rewrite Ea. reflexivity.
    + destruct (IH w1 i Hi) as (wi & Hwi & Hn).
      exists wi. split; [eapply callbacksOnly_trans; eassumption | ].
      destruct (forEachStar f l w1). simpl in *. exact Hn.
Qed.

Lemma forEachStar_length (f : Star.t -> World -> Star.t * World)
  (l : list Star.t) (w : World) :
  List.length (fst (forEachStar f l w)) = List.length l.
Proof.
  revert w. induction l as [ | a l IH]; intros w; simpl; [reflexivity | ].
  destruct (f a w) as [a' w1]. specialize (IH w1).
  destruct (forEachStar f l w1). simpl in *. congruence.
Qed.

Lemma updateStars_unfold (dt : R) (w : World) :
  updateStars dt w =
    let r := forEachStar (updateStar dt) (stars (physicsEngine w)) w in
    set_engine (set_stars (fst r) (physicsEngine (snd r))) (snd r).
Proof. unfold updateStars. destruct (forEachStar _ _ _). reflexivity. Qed.

Lemma updateStars_frame (dt : R) (w : World) :
  let w' := updateStars dt w in
  physicsEngine w' = set_stars (stars (physicsEngine w')) (physicsEngine w)
  /\ Math_random w' = Math_random w
  /\ randomDraws w' = randomDraws w
  /\ set_score 0 (gameState w') = set_score 0 (gameState w).
Proof.
  rewrite updateStars_unfold.
  pose proof (forEachStar_frame (updateStar dt) (updateStar_frame dt)
                (stars (physicsEngine w)) w) as (E & M & D & G).
  destruct (forEachStar _ _ _) as [l w1]. simpl in *.
  rewrite E. repeat split; assumption.
Qed.

Lemma updateStars_starAt (dt : R) (w : World) (i : nat) (s : Star.t) :
  starAt i w = Some s ->
  exists wi, callbacksOnly w wi
             /\ starAt i (updateStars dt w) = Some (fst (updateStar dt s wi)).
Proof.
  intros Hi. rewrite updateStars_unfold. unfold starAt in *.
  destruct (forEachStar_nth (updateStar dt) (updateStar_frame dt) _ w i s Hi)
    as (wi & Hwi & Hn).
  exists wi. split; [assumption | ]. simpl. exact Hn.
Qed.

Lemma updateCamera_frame (w : World) :
  physicsEngine (updateCamera w) = physicsEngine w
  /\ Math_random (updateCamera w) = Math_random w
  /\ randomDraws (updateCamera w) = randomDraws w
  /\ events (updateCamera w) = events w.
Proof.
  unfold updateCamera. destruct (0 <? _)%nat; repeat split.
Qed.

(** [update] changes neither the holes, nor the switches of the engine, nor
    the random source. *)
Lemma update_frame (now : R) (w : World) :
  holes (physicsEngine (update now w)) = holes (physicsEngine w)
  /\ activeHole (physicsEngine (update now w)) = activeHole (physicsEngine w)
  /\ enabled (physicsEngine (update now w)) = enabled (physicsEngine w)
  /\ useDeltaTime (physicsEngine (update now w)) = useDeltaTime (physicsEngine w)
  /\ Math_random (update now w) = Math_random w
  /\ randomDraws (update now w) = randomDraws w.
Proof.
  unfold update. destruct (enabled (physicsEngine w)) eqn:En; simpl;
    [ | rewrite En; repeat split].
  set (w0 := set_engine (set_lastUpdateTime now (physicsEngine w)) w).
  set (dt := deltaTimeOf (physicsEngine w) now).
  destruct (updateCamera_frame (updateMeteorites dt (updateStars dt w0)))
    as (E & M & D & _).
  destruct (updateStars_frame dt w0) as (E' & M' & D' & _).
  rewrite E, M, D. unfold updateMeteorites. simpl.
  rewrite E', M', D'. simpl. rewrite En. repeat split.
Qed.

Lemma update_starAt (now : R) (w : World) (i : nat) (s : Star.t) :
  enabled (physicsEngine w) = true ->
  starAt i w = Some s ->
  exists wi,
    physicsEngine wi = set_lastUpdateTime now (physicsEngine w)
    /\ starAt i (update now w)
       = Some (fst (updateStar (deltaTimeOf (physicsEngine w) now) s wi)).
Proof.
  intros En Hi. unfold update. rewrite En. simpl.
  set (w0 := set_engine (set_lastUpdateTime now (physicsEngine w)) w).
  set (dt := deltaTimeOf (physicsEngine w) now).
  destruct (updateStars_starAt dt w0 i s Hi) as (wi & (E & _) & Hn).
  exists wi. split; [exact E | ].
  unfold starAt in *.
  destruct (updateCamera_frame (updateMeteorites dt (updateStars dt w0)))
    as (Ec & _).
  rewrite Ec. unfold updateMeteorites. simpl. exact Hn.
Qed.

(* ================================================================== *)
(** ** One star, one step *)

Lemma updateStar_skipped (dt : R) (s : Star.t) (w : World) :
  Star.moving s = false \/ Star.inHole s = true ->
  updateStar dt s w = (s, w).
Proof.
  intros [H | H]; unfold updateStar; rewrite H; simpl; [reflexivity | ].
  rewrite orb_true_r. reflexivity.
Qed.

Lemma integrate_flags (dt : R) (s : Star.t) :
  Star.moving (integrate dt s) = Star.moving s
  /\ Star.inHole (integrate dt s) = Star.inHole s
  /\ Star.radius (integrate dt s) = Star.radius s
  /\ Star.id (integrate dt s) = Star.id s.
Proof. repeat split. Qed.





Lemma stopIfSlow_position (s : Star.t) :
  Star.x (stopIfSlow s) = Star.x s /\ Star.y (stopIfSlow s) = Star.y s
  /\ Star.radius (stopIfSlow s) = Star.radius s
  /\ Star.inHole (stopIfSlow s) = Star.inHole s.
Proof. unfold stopIfSlow. destruct (JS.ltb _ _); repeat split. Qed.



(** Inside the board, the boundary check does nothing. *)
Lemma checkBoundaryCollisions_inside (s : Star.t) (w : World) :
  inBoard s -> checkBoundaryCollisions s w = (s, w).
Proof.
  intros [[Hx1 Hx2] [Hy1 Hy2]]. unfold checkBoundaryCollisions.
  rewrite (ltb_false (Star.x s)) by assumption.
  rewrite (gtb_false (Star.x s)) by assumption.
  cbv zeta beta iota.
  rewrite (ltb_false (Star.y s)) by assumption.
  rewrite (gtb_false (Star.y s)) by assumption.
  reflexivity.
Qed.

(** After the boundary check the star is inside the board, whatever its
    position was, as long as its radius fits in the board. *)
Lemma checkBoundaryCollisions_inBoard (s : Star.t) (w : World) :
  Star.radius s <= 400 ->
  inBoard (fst (checkBoundaryCollisions s w))
  /\ Star.radius (fst (checkBoundaryCollisions s w)) = Star.radius s
  /\ Star.moving (fst (checkBoundaryCollisions s w)) = Star.moving s
  /\ Star.inHole (fst (checkBoundaryCollisions s w)) = Star.inHole s.
Proof.
  intros Hr. unfold checkBoundaryCollisions, inBoard, JS.gtb.
  destruct (ltb_spec (Star.x s) (Star.radius s)) as [Hx | Hx];
    [ | destruct (ltb_spec (1600 - Star.radius s) (Star.x s)) as [Hx' | Hx'] ];
    cbv zeta beta iota; simpl;
    (destruct (ltb_spec (Star.y s) (Star.radius s)) as [Hy | Hy];
     [ | destruct (ltb_spec (800 - Star.radius s) (Star.y s)) as [Hy' | Hy'] ]);
    simpl; repeat split; lra.
Qed.

Lemma checkHole_keeps (acc : Star.t * World) (hole : Hole.t) :
  Star.x (fst (checkHole acc hole)) = Star.x (fst acc)
  /\ Star.y (fst (checkHole acc hole)) = Star.y (fst acc)
  /\ Star.radius (fst (checkHole acc hole)) = Star.radius (fst acc).
Proof.
  destruct acc as [s w]. unfold checkHole.
  destruct (JS.ltb _ _); [destruct (Hole.isActive hole) | ]; repeat split.
Qed.

Lemma checkMeteorite_keeps (acc : Star.t * World) (m : Meteorite.t) :
  Star.x (fst (checkMeteorite acc m)) = Star.x (fst acc)
  /\ Star.y (fst (checkMeteorite acc m)) = Star.y (fst acc)
  /\ Star.radius (fst (checkMeteorite acc m)) = Star.radius (fst acc).
Proof.
  destruct acc as [s w]. unfold checkMeteorite.
  destruct (JS.ltb _ _); repeat split.
Qed.

Lemma fold_keeps {A : Type} (f : Star.t * World -> A -> Star.t * World)
  (Hf : forall acc a,
      Star.x (fst (f acc a)) = Star.x (fst acc)
      /\ Star.y (fst (f acc a)) = Star.y (fst acc)
      /\ Star.radius (fst (f acc a)) = Star.radius (fst acc))
  (l : list A) (acc : Star.t * World) :
  Star.x (fst (fold_left f l acc)) = Star.x (fst acc)
  /\ Star.y (fst (fold_left f l acc)) = Star.y (fst acc)
  /\ Star.radius (fst (fold_left f l acc)) = Star.radius (fst acc).
Proof.
  revert acc. induction l as [ | a l IH]; intros acc; simpl; [repeat split | ].
  destruct (IH (f acc a)) as (X & Y & Rd). destruct (Hf acc a) as (X' & Y' & Rd').
  repeat split; congruence.
Qed.

(** A star that the step integrates ends the step inside the board. *)
Lemma updateStar_inBoard (dt : R) (s : Star.t) (w : World) :
  Star.moving s = true -> Star.inHole s = false -> Star.radius s <= 400 ->
  inBoard (fst (updateStar dt s w)).
Proof.
  intros Hm Hh Hr. unfold updateStar. rewrite Hm, Hh. simpl.
  destruct (checkBoundaryCollisions_inBoard (integrate dt s) w Hr) as (Hb & Hrb & _).
  destruct (checkBoundaryCollisions (integrate dt s) w) as [s1 w1]. simpl in Hb, Hrb.
  pose proof (fold_keeps checkHole checkHole_keeps (holes (physicsEngine w1)) (s1, w1))
    as (X2 & Y2 & R2).
  fold (checkHoleCollisions s1 w1) in X2, Y2, R2.
  destruct (checkHoleCollisions s1 w1) as [s2 w2]. simpl in X2, Y2, R2.
  pose proof (fold_keeps checkMeteorite checkMeteorite_keeps
                (meteorites (physicsEngine w2)) (s2, w2)) as (X3 & Y3 & R3).
  fold (checkMeteoriteCollisions s2 w2) in X3, Y3, R3.
  destruct (checkMeteoriteCollisions s2 w2) as [s3 w3]. simpl in X3, Y3, R3.
  destruct (stopIfSlow_position s3) as (X4 & Y4 & R4 & _).
  unfold inBoard in *. simpl. rewrite X4, Y4, R4, X3, Y3, R3, X2, Y2, R2. exact Hb.
Qed.

Lemma checkHole_far (s : Star.t) (w : World) (l : list Hole.t) :
  Forall (fun hole => collisionThreshold <= holeDistance s hole) l ->
  fold_left checkHole l (s, w) = (s, w).
Proof.
  induction 1 as [ | hole l Hd _ IH]; simpl; [reflexivity | ].
  unfold holeDistance in Hd. rewrite ltb_false by exact Hd. exact IH.
Qed.

Lemma checkMeteorite_far (s : Star.t) (w : World) (l : list Meteorite.t) :
  Forall (fun m => Star.radius s + Meteorite.radius m <= meteoriteDistance s m) l ->
  fold_left checkMeteorite l (s, w) = (s, w).
Proof.
  induction 1 as [ | m l Hd _ IH]; simpl; [reflexivity | ].
  unfold meteoriteDistance in Hd. rewrite ltb_false by exact Hd. exact IH.
Qed.

(** A step that meets nothing is friction, displacement and the stopping
    rule, and calls nothing back. *)
Lemma updateStar_contactFree (dt : R) (s : Star.t) (w : World) :
  Star.moving s = true -> Star.inHole s = false ->
  contactFree (physicsEngine w) dt s ->
  updateStar dt s w = (stopIfSlow (integrate dt s), w).
Proof.
  intros Hm Hh (Hb & Hholes & Hmets). unfold updateStar. rewrite Hm, Hh. simpl.
  rewrite checkBoundaryCollisions_inside by exact Hb.
  unfold checkHoleCollisions. rewrite checkHole_far by exact Hholes.
  unfold checkMeteoriteCollisions. rewrite checkMeteorite_far by exact Hmets.
  reflexivity.
Qed.

(* ================================================================== *)
(** ** Initialisation and active-hole selection *)


(** [setActiveHole] touches the holes, the reference to the active one and
    the random source, and nothing else. *)
Lemma setActiveHole_frame (w : World) :
  let w' := setActiveHole w in
  stars (physicsEngine w') = stars (physicsEngine w)
  /\ meteorites (physicsEngine w') = meteorites (physicsEngine w)
  /\ enabled (physicsEngine w') = enabled (physicsEngine w)
  /\ lastUpdateTime (physicsEngine w') = lastUpdateTime (physicsEngine w)
  /\ useDeltaTime (physicsEngine w') = useDeltaTime (physicsEngine w)
  /\ gameState w' = gameState w
  /\ events w' = events w
  /\ Math_random w' = Math_random w
  /\ randomDraws w' = S (randomDraws w).
Proof.
  unfold setActiveHole. simpl.
  destruct (JS.index _ _) as [h | ]; [destruct (Hole.element h) | ];
    simpl; repeat split.
Qed.

Lemma initializeMeteoritesFrom_frame (index : nat) (l : list MeteoriteNode)
  (w : World) :
  let r := initializeMeteoritesFrom index l w in
  physicsEngine (snd r) = physicsEngine w
  /\ gameState (snd r) = gameState w
  /\ events (snd r) = events w
  /\ Math_random (snd r) = Math_random w
  /\ randomDraws (snd r) = (randomDraws w + 3 * List.length l)%nat
  /\ List.length (fst r) = List.length l.
Proof.
  revert index w. induction l as [ | a l IH]; intros index w.
  - simpl. repeat split. lia.
  - cbn [initializeMeteoritesFrom random].
    match goal with
    | |- context [initializeMeteoritesFrom (S index) l ?w1] =>
        specialize (IH (S index) w1);
        destruct (initializeMeteoritesFrom (S index) l w1) as [others w2]
    end.
    simpl in *. destruct IH as (E & G & V & M & D & L).
    repeat split; try assumption. { rewrite D. lia. } { rewrite L. reflexivity. }
Qed.

Lemma initialize_stars (doc : Document) (now : R) (w : World) :
  stars (physicsEngine (initialize doc now w))
  = stars (physicsEngine (initializeStars doc w))
  /\ enabled (physicsEngine (initialize doc now w)) = enabled (physicsEngine w).
Proof.
  unfold initialize. cbn [physicsEngine set_engine set_lastUpdateTime stars enabled].
  destruct (setActiveHole_frame
              (initializeMeteorites doc (initializeHoles doc (initializeStars doc w))))
    as (S1 & _ & E1 & _).
  rewrite S1, E1. unfold initializeMeteorites.
  pose proof (initializeMeteoritesFrom_frame 0 (meteoriteNodes doc)
                (initializeHoles doc (initializeStars doc w))) as (E & _).
  destruct (initializeMeteoritesFrom _ _ _) as [ms w1]. simpl in *.
  rewrite E. split; reflexivity.
Qed.

(* ================================================================== *)
(** ** The claims about [update] *)

(** C10. When the engine's [enabled] flag is false, a call to [update]
    returns the world it was given: no star, meteorite, camera, clock or
    score changes and no event is recorded; this is the state
    [togglePhysics] leaves an enabled engine in. *)
Theorem update_disabled_is_noop (now : R) (w : World) :
  (enabled (physicsEngine w) = false -> update now w = w)
  /\ (enabled (physicsEngine w) = true ->
      snd (togglePhysics w) = false
      /\ update now (fst (togglePhysics w)) = fst (togglePhysics w)).
Proof.
  split.
  - intros H. unfold update. rewrite H. reflexivity.
  - intros H. unfold togglePhysics, update. simpl. rewrite H. split; reflexivity.
Qed.

Lemma update_disabled_is_noop_witness :
  enabled (physicsEngine (fst (togglePhysics Sample.holeNextToMeteorite))) = false
  /\ update Sample.frame (fst (togglePhysics Sample.holeNextToMeteorite))
     = fst (togglePhysics Sample.holeNextToMeteorite).
Proof.
  split; [reflexivity | ].
  apply (proj1 (update_disabled_is_noop Sample.frame
                  (fst (togglePhysics Sample.holeNextToMeteorite)))).
  reflexivity.
Defined.

(** C2, as the code has it.  The multiplier [update] advances the step with
    never exceeds 3; when the raw quotient exceeds 3 the multiplier is 1,
    otherwise (with [useDeltaTime] on) it is the raw quotient; and an enabled
    [update] runs the stars, the meteorites and the camera with that
    multiplier. *)
Theorem deltaTime_capped_by_reset (now : R) (w : World) :
  deltaTimeOf (physicsEngine w) now <= 3
  /\ (rawDeltaTime (physicsEngine w) now > 3 ->
      deltaTimeOf (physicsEngine w) now = 1)
  /\ (rawDeltaTime (physicsEngine w) now <= 3 ->
      useDeltaTime (physicsEngine w) = true ->
      deltaTimeOf (physicsEngine w) now = rawDeltaTime (physicsEngine w) now)
  /\ (enabled (physicsEngine w) = true ->
      update now w =
        updateCamera
          (updateMeteorites (deltaTimeOf (physicsEngine w) now)
             (updateStars (deltaTimeOf (physicsEngine w) now)
                (set_engine (set_lastUpdateTime now (physicsEngine w)) w)))).
Proof.
  split; [apply deltaTimeOf_le_3 | ].
  split; [ | split].
  - intros H. unfold deltaTimeOf. rewrite gtb_true by lra.
    destruct (useDeltaTime (physicsEngine w)); reflexivity.
  - intros H U. unfold deltaTimeOf. rewrite U, gtb_false by lra. reflexivity.
  - intros H. rewrite update_enabled by assumption. reflexivity.
Qed.

Lemma deltaTime_capped_by_reset_witness :
  deltaTimeOf (physicsEngine Sample.flying) 100 = 1.
Proof.
  apply (proj1 (proj2 (deltaTime_capped_by_reset 100 Sample.flying))).
  unfold rawDeltaTime. simpl lastUpdateTime. lra.
Defined.

Lemma update_starAt_contactFree (now : R) (w : World) (i : nat) (s : Star.t) :
  enabled (physicsEngine w) = true ->
  starAt i w = Some s ->
  Star.moving s = true -> Star.inHole s = false ->
  contactFree (physicsEngine w) (deltaTimeOf (physicsEngine w) now) s ->
  starAt i (update now w)
  = Some (stopIfSlow (integrate (deltaTimeOf (physicsEngine w) now) s)).
Proof.
  intros En Hi Hm Hh Hc.
  destruct (update_starAt now w i s En Hi) as (wi & E & ->).
  rewrite updateStar_contactFree; try assumption; [reflexivity | ].
  unfold contactFree in *. rewrite E. exact Hc.
Qed.

Lemma update_starAt_skipped (now : R) (w : World) (i : nat) (s : Star.t) :
  starAt i w = Some s ->
  enabled (physicsEngine w) = false \/ Star.moving s = false \/ Star.inHole s = true ->
  starAt i (update now w) = Some s.
Proof.
  intros Hi H. destruct (enabled (physicsEngine w)) eqn:En.
  - destruct H as [H | H]; [discriminate | ].
    destruct (update_starAt now w i s En Hi) as (wi & _ & ->).
    rewrite updateStar_skipped by exact H. reflexivity.
  - unfold update. rewrite En. exact Hi.
Qed.

(** C2, counterexample.  On an engine last updated at time 0, a call at time
    100 has a raw quotient above 3 and advances a star flying at (10, 0) by
    one friction-damped step, 9.8, not by three. *)
Lemma deltaTime_not_clamped_to_3 :
  rawDeltaTime (physicsEngine Sample.flying) 100 > 3
  /\ deltaTimeOf (physicsEngine Sample.flying) 100 <> 3
  /\ exists s, starAt 0 (update 100 Sample.flying) = Some s
               /\ Star.x s = 800 + 98 / 10 * 1
               /\ Star.x s <> 800 + 98 / 10 * 3.
Proof.
  assert (Hraw : rawDeltaTime (physicsEngine Sample.flying) 100 > 3)
    by (unfold rawDeltaTime; simpl lastUpdateTime; lra).
  assert (Hdt : deltaTimeOf (physicsEngine Sample.flying) 100 = 1).
  { unfold deltaTimeOf. rewrite gtb_true by lra. reflexivity. }
  split; [exact Hraw | ]. split; [rewrite Hdt; lra | ].
  eexists. split.
  - apply update_starAt_contactFree; try reflexivity.
    rewrite Hdt. unfold contactFree, inBoard.
    cbn -[Rplus Rmult Rminus Rle Rdiv IZR]. unfold friction, STAR_RADIUS.
    repeat split; try constructor; lra.
  - rewrite Hdt. destruct (stopIfSlow_position
      (integrate 1 (Sample.star "star1" yellow 800 400 10 0 true false)))
      as (X & _).
    rewrite X. cbn -[Rplus Rmult Rminus Rle Rdiv IZR]. unfold friction. split; lra.
Qed.

(* ================================================================== *)
(** ** Evaluating a step on a sample world *)

Lemma frame_deltaTime (e : PhysicsEngine) :
  lastUpdateTime e = 0 -> useDeltaTime e = true ->
  deltaTimeOf e Sample.frame = 1.
Proof.
  intros L U. unfold deltaTimeOf, rawDeltaTime, Sample.frame. rewrite L, U.
  rewrite gtb_false by lra. simpl. lra.
Qed.

(** Reduce the field accesses and assignments on the sample bodies. *)
Ltac star_fields :=
  cbn [Sample.star Star.x Star.y Star.velocity Star.radius Star.id Star.moving
       Star.inHole Star.restitution Star.mass Star.rotation Star.type
       Star.set_x Star.set_y Star.set_velocity Star.set_velocity_x
       Star.set_velocity_y Star.set_moving Star.set_inHole Star.set_rotation
       Vec.x Vec.y integrate
       Sample.hole Hole.x Hole.y Hole.isActive Hole.radius Hole.element Hole.id
       Sample.meteorite Meteorite.x Meteorite.y Meteorite.radius
       fst snd].

(* ================================================================== *)
(** ** Shooting *)

Lemma find_update_first {A : Type} (p : A -> bool) (f : A -> A) (l : list A)
  (a : A) :
  (forall x, p (f x) = p x) ->
  JS.find p l = Some a ->
  JS.find p (JS.update_first p f l) = Some (f a).
Proof.
  intros Hp. unfold JS.find. induction l as [ | b l IH]; simpl; [discriminate | ].
  destruct (p b) eqn:Eb; simpl.
  - intros [= ->]. rewrite Hp, Eb. reflexivity.
  - intros H. rewrite Eb. apply IH. exact H.
Qed.

Lemma truthy_some (sel : string) :
  sel <> EmptyString -> JS.truthy (Some sel) = true.
Proof.
  intros H. simpl. destruct (String.eqb_spec sel EmptyString); [contradiction | reflexivity].
Qed.

(** When nothing stops it, [shootStar] launches the selected star, whatever
    its [moving] and [inHole] flags are. *)
Lemma shootStar_fires (dragDistance dragTime : R) (w : World) (sel : string)
  (star : Star.t) :
  selectedStar (gameState w) = Some sel ->
  sel <> EmptyString ->
  enabled (physicsEngine w) = true ->
  JS.find (hasId sel) (stars (physicsEngine w)) = Some star ->
  dragDistanceOf (gameState w) <> 0 ->
  let w' := shootStar dragDistance dragTime w in
  exists star',
    JS.find (hasId sel) (stars (physicsEngine w')) = Some star'
    /\ Star.velocity star'
       = launchVelocity (gameState w) dragDistance (Star.mass star)
    /\ Star.moving star' = true
    /\ Star.inHole star' = false
    /\ Star.x star' = Star.x star /\ Star.y star' = Star.y star.
Proof.
  intros Hsel Hne En Hfind Hd. unfold shootStar.
  rewrite Hsel, (truthy_some sel Hne), En, Hfind. simpl negb. simpl orb. cbv iota.
  fold (dragDistanceOf (gameState w)).
  rewrite eqb_false by exact Hd.
  eexists. split.
  - cbn [physicsEngine set_engine stars set_stars].
    apply find_update_first; [ | exact Hfind]. intros x. reflexivity.
  - repeat split.
Qed.

Lemma shootStar_ignored (dragDistance dragTime : R) (w : World) :
  selectedStar (gameState w) = None
  \/ enabled (physicsEngine w) = false
  \/ (exists sel, selectedStar (gameState w) = Some sel
                  /\ JS.find (hasId sel) (stars (physicsEngine w)) = None)
  \/ dragDistanceOf (gameState w) = 0 ->
  shootStar dragDistance dragTime w = w.
Proof.
  unfold shootStar. intros [H | [H | [(sel & H & F) | H]]].
  - rewrite H. reflexivity.
  - rewrite H. rewrite orb_true_r. reflexivity.
  - rewrite H, F. destruct (negb _ || negb _); reflexivity.
  - destruct (negb _ || negb _); [reflexivity | ].
    destruct (selectedStar (gameState w)) as [sel | ]; [ | reflexivity].
    destruct (JS.find _ _); [ | reflexivity].
    fold (dragDistanceOf (gameState w)). rewrite eqb_true by exact H. reflexivity.
Qed.

(** A press on a star that is unknown, moving or in a hole starts no drag. *)
Lemma handleMouseDown_ignored (event : MouseEvent) (now : R) (w : World)
  (starId : string) :
  closestStar event = Some starId ->
  JS.find (hasId starId) (stars (physicsEngine w)) = None
  \/ (exists star, JS.find (hasId starId) (stars (physicsEngine w)) = Some star
                   /\ (Star.moving star = true \/ Star.inHole star = true)) ->
  handleMouseDown event now w = w.
Proof.
  intros Hc H. unfold handleMouseDown. rewrite Hc.
  destruct (negb _ || _); [reflexivity | ].
  destruct H as [H | (star & H & [Hm | Hh])]; rewrite H; [reflexivity | | ].
  - rewrite Hm. reflexivity.
  - rewrite Hh, orb_true_r. reflexivity.
Qed.

(** C3, as the code has it.  A call to [shootStar] is a silent no-op,
    leaving the whole world as it was, when no star is selected or the
    selected star does not exist.  [shootStar] does not look at [moving] or
    [inHole]: a selected star that exists is launched whatever these flags
    are, and comes out with [moving] set and [inHole] cleared.  What keeps a
    moving or settled star from being shot is [handleMouseDown], which
    ignores a press on it, so no drag starts. *)
Theorem shoot_ignores_unknown_star (dragDistance dragTime : R) (w : World) :
  (selectedStar (gameState w) = None
   \/ (exists sel, selectedStar (gameState w) = Some sel
                   /\ JS.find (hasId sel) (stars (physicsEngine w)) = None) ->
   shootStar dragDistance dragTime w = w)
  /\ (forall sel star,
        selectedStar (gameState w) = Some sel ->
        sel <> EmptyString ->
        enabled (physicsEngine w) = true ->
        JS.find (hasId sel) (stars (physicsEngine w)) = Some star ->
        dragDistanceOf (gameState w) <> 0 ->
        exists star',
          JS.find (hasId sel)
            (stars (physicsEngine (shootStar dragDistance dragTime w)))
          = Some star'
          /\ Star.velocity star'
             = launchVelocity (gameState w) dragDistance (Star.mass star)
          /\ Star.moving star' = true
          /\ Star.inHole star' = false)
  /\ (forall event now starId,
        closestStar event = Some starId ->
        JS.find (hasId starId) (stars (physicsEngine w)) = None
        \/ (exists star,
              JS.find (hasId starId) (stars (physicsEngine w)) = Some star
              /\ (Star.moving star = true \/ Star.inHole star = true)) ->
        handleMouseDown event now w = w).
Proof.
  split; [ | split].
  - intros [H | H]; apply shootStar_ignored; auto.
  - intros sel star Hsel Hne En Hf Hd.
    destruct (shootStar_fires dragDistance dragTime w sel star Hsel Hne En Hf Hd)
      as (star' & F & V & M & I & _).
    exists star'. auto.
  - intros event now starId Hc H. eapply handleMouseDown_ignored; eassumption.
Qed.

Lemma shoot_ignores_unknown_star_witness :
  shootStar 100 250 (set_gameState
                       (set_selectedStar (Some "star9"%string)
                          (gameState Sample.dragOnResting))
                       Sample.dragOnResting)
  = set_gameState
      (set_selectedStar (Some "star9"%string) (gameState Sample.dragOnResting))
      Sample.dragOnResting.
Proof.
  apply (proj1 (shoot_ignores_unknown_star 100 250
                  (set_gameState
                     (set_selectedStar (Some "star9"%string)
                        (gameState Sample.dragOnResting))
                     Sample.dragOnResting))).
  right. exists "star9"%string. split; reflexivity.
Defined.

Lemma sample_drag_distance (gs : GameState) :
  startPos gs = Vec.mk 100 0 -> currentPos gs = Vec.mk 0 0 ->
  dragDistanceOf gs = 100.
Proof.
  intros S C. unfold dragDistanceOf. rewrite S, C. simpl.
  replace ((100 - 0) * (100 - 0) + (0 - 0) * (0 - 0)) with (100 * 100) by lra.
  apply sqrt_square. lra.
Qed.

(** C3, counterexample.  The selected star is moving with velocity (1, 0)
    when a drag of length 100 ends: [shootStar] gives it velocity (12, 0). *)
Lemma shoot_relaunches_moving_star :
  exists s s',
    JS.find (hasId "star1") (stars (physicsEngine Sample.dragOnMoving)) = Some s
    /\ Star.moving s = true
    /\ Star.velocity s = Vec.mk 1 0
    /\ JS.find (hasId "star1")
         (stars (physicsEngine (shootStar 100 250 Sample.dragOnMoving)))
       = Some s'
    /\ Star.velocity s' = Vec.mk 12 0
    /\ shootStar 100 250 Sample.dragOnMoving <> Sample.dragOnMoving.
Proof.
  assert (Hd : dragDistanceOf (gameState Sample.dragOnMoving) = 100)
    by (apply sample_drag_distance; reflexivity).
  destruct (shootStar_fires 100 250 Sample.dragOnMoving "star1"
              (Sample.star "star1" yellow 800 400 1 0 true false))
    as (s' & F & V & _); try reflexivity.
  { discriminate. }
  { rewrite Hd. lra. }
  assert (V' : Star.velocity s' = Vec.mk 12 0).
  { rewrite V. unfold launchVelocity. rewrite Hd.
    cbn [Sample.dragOnMoving Sample.world Sample.gameState gameState startPos
         currentPos Vec.x Vec.y Sample.star Star.mass STAR_PROPERTIES props_mass].
    unfold JS.min, Rmin, POWER_FACTOR, MAX_VELOCITY.
    destruct (Rle_dec _ _); [ | lra]. f_equal; field. }
  exists (Sample.star "star1" yellow 800 400 1 0 true false), s'.
  repeat split; try assumption.
  intros E. rewrite E in F. injection F as <-. simpl in V'.
  apply (f_equal Vec.x) in V'. simpl in V'. lra.
Qed.

Lemma dragDistanceOf_norm (gs : GameState) :
  dragDistanceOf gs = Vec.norm (dragVector gs).
Proof.
  unfold dragDistanceOf, Vec.norm, dragVector. simpl. f_equal. ring.
Qed.

Lemma speed_is_norm (s : Star.t) : speed s = Vec.norm (Star.velocity s).
Proof. reflexivity. Qed.

Lemma launchVelocity_norm (gs : GameState) (mass : R) :
  0 < mass ->
  dragDistanceOf gs <> 0 ->
  Vec.norm (launchVelocity gs (dragDistanceOf gs) mass)
  = Rmin (dragDistanceOf gs * POWER_FACTOR) MAX_VELOCITY / mass.
Proof.
  intros Hm Hd. unfold launchVelocity, Vec.norm, JS.min. cbn [Vec.x Vec.y].
  set (dx := Vec.x (startPos gs) - Vec.x (currentPos gs)).
  set (dy := Vec.y (startPos gs) - Vec.y (currentPos gs)).
  set (d := dragDistanceOf gs) in *.
  set (p := Rmin (d * POWER_FACTOR) MAX_VELOCITY).
  assert (Hd0 : 0 <= d) by apply sqrt_pos.
  assert (Hdd : d * d = dx * dx + dy * dy).
  { unfold d, dragDistanceOf. fold dx dy. apply sqrt_sqrt. nra. }
  assert (Hp : 0 <= p).
  { unfold p. apply Rmin_glb; unfold POWER_FACTOR, MAX_VELOCITY; nra. }
  replace (dx / d * p * (1 / mass) * (dx / d * p * (1 / mass))
           + dy / d * p * (1 / mass) * (dy / d * p * (1 / mass)))
    with ((dx * dx + dy * dy) / (d * d) * (p / mass * (p / mass)))
    by (field; lra).
  rewrite <- Hdd.
  replace (d * d / (d * d)) with 1 by (field; lra).
  rewrite Rmult_1_l. apply sqrt_square.
  apply Rmult_le_pos; [exact Hp | ]. left. apply Rinv_0_lt_compat. exact Hm.
Qed.

(** C7.  When [shootStar] is given the length [d] of the drag vector, as
    [handleMouseUp] gives it, and the selected star exists: if [d] is not
    zero the star's velocity is the drag vector negated and divided by [d],
    times [min(d * POWER_FACTOR, MAX_VELOCITY) / mass], so its magnitude is
    [min(d * POWER_FACTOR, MAX_VELOCITY) / mass]; if [d] is zero the call
    changes nothing.  [POWER_FACTOR] is 0.12 and [MAX_VELOCITY] is 25. *)
Theorem launch_velocity (dragDistance dragTime : R) (w : World) (sel : string)
  (star : Star.t) :
  selectedStar (gameState w) = Some sel ->
  sel <> EmptyString ->
  enabled (physicsEngine w) = true ->
  JS.find (hasId sel) (stars (physicsEngine w)) = Some star ->
  0 < Star.mass star ->
  dragDistance = Vec.norm (dragVector (gameState w)) ->
  POWER_FACTOR = 12 / 100 /\ MAX_VELOCITY = 25
  /\ (dragDistance <> 0 ->
      exists star',
        JS.find (hasId sel)
          (stars (physicsEngine (shootStar dragDistance dragTime w)))
        = Some star'
        /\ Vec.x (Star.velocity star')
           = - Vec.x (dragVector (gameState w)) / dragDistance
             * (Rmin (dragDistance * POWER_FACTOR) MAX_VELOCITY / Star.mass star)
        /\ Vec.y (Star.velocity star')
           = - Vec.y (dragVector (gameState w)) / dragDistance
             * (Rmin (dragDistance * POWER_FACTOR) MAX_VELOCITY / Star.mass star)
        /\ Vec.norm (Star.velocity star')
           = Rmin (dragDistance * POWER_FACTOR) MAX_VELOCITY / Star.mass star)
  /\ (dragDistance = 0 -> shootStar dragDistance dragTime w = w).
Proof.
  intros Hsel Hne En Hf Hm Hd. rewrite <- dragDistanceOf_norm in Hd.
  split; [reflexivity | ]. split; [reflexivity | ]. split.
  - intros Hnz.
    destruct (shootStar_fires dragDistance dragTime w sel star Hsel Hne En Hf)
      as (star' & F & V & _); [congruence | ].
    exists star'. split; [exact F | ]. rewrite V. subst dragDistance.
    split; [ | split].
    + unfold launchVelocity, dragVector, JS.min. simpl. field. lra.
    + unfold launchVelocity, dragVector, JS.min. simpl. field. lra.
    + apply launchVelocity_norm; assumption.
  - intros Hz. apply shootStar_ignored. right. right. right. congruence.
Qed.

(** The launch scenario: drag of length 100, mass 1, speed 12, straight
    against the drag. *)
Lemma launch_velocity_witness :
  exists star',
    JS.find (hasId "star1")
      (stars (physicsEngine (shootStar 100 250 Sample.dragOnResting)))
    = Some star'
    /\ Vec.x (Star.velocity star')
       = - Vec.x (dragVector (gameState Sample.dragOnResting)) / 100
         * (Rmin (100 * POWER_FACTOR) MAX_VELOCITY / 1)
    /\ Vec.y (Star.velocity star')
       = - Vec.y (dragVector (gameState Sample.dragOnResting)) / 100
         * (Rmin (100 * POWER_FACTOR) MAX_VELOCITY / 1)
    /\ Vec.norm (Star.velocity star') = Rmin (100 * POWER_FACTOR) MAX_VELOCITY / 1.
Proof.
  apply (launch_velocity 100 250 Sample.dragOnResting "star1"
           (Sample.star "star1" yellow 800 400 0 0 false false)).
  - reflexivity.
  - discriminate.
  - reflexivity.
  - reflexivity.
  - simpl. lra.
  - rewrite <- dragDistanceOf_norm. symmetry.
    apply sample_drag_distance; reflexivity.
  - lra.
Defined.

Lemma launch_scenario_speed : Rmin (100 * POWER_FACTOR) MAX_VELOCITY / 1 = 12.
Proof.
  unfold Rmin, POWER_FACTOR, MAX_VELOCITY. destruct (Rle_dec _ _); lra.
Qed.

(* ================================================================== *)
(** ** Switching the selected star *)

Lemma findIndex_range {A : Type} (p : A -> bool) (l : list A) :
  (-1 <= JS.findIndex p l < Z.of_nat (List.length l))%Z.
Proof.
  induction l as [ | a l IH]; simpl JS.findIndex; simpl List.length; [lia | ].
  destruct (p a); [lia | ].
  destruct (Z.ltb_spec (JS.findIndex p l) 0); lia.
Qed.

Lemma findIndex_none {A : Type} (p : A -> bool) (l : list A) :
  (forall a, In a l -> p a = false) -> JS.findIndex p l = (-1)%Z.
Proof.
  induction l as [ | a l IH]; intros H; simpl; [reflexivity | ].
  rewrite (H a) by (left; reflexivity).
  rewrite IH by (intros b Hb; apply H; right; exact Hb). reflexivity.
Qed.

Lemma findIndex_first {A : Type} (p : A -> bool) (l : list A) (k : nat) (a : A) :
  nth_error l k = Some a ->
  p a = true ->
  (forall j b, (j < k)%nat -> nth_error l j = Some b -> p b = false) ->
  JS.findIndex p l = Z.of_nat k.
Proof.
  revert k. induction l as [ | x l IH]; intros k Hk Hp Hbefore.
  - destruct k; discriminate.
  - destruct k as [ | k]; simpl in Hk |- *.
    + injection Hk as ->. rewrite Hp. reflexivity.
    + rewrite (Hbefore 0%nat x) by (simpl; (lia || reflexivity)).
      rewrite (IH k Hk Hp).
      * destruct (Z.ltb_spec (Z.of_nat k) 0); lia.
      * intros j b Hj Hb. apply (Hbefore (S j) b); [lia | exact Hb].
Qed.

Lemma selectedIndexOf_range (sel : option string) (l : list Star.t) :
  (-1 <= selectedIndexOf sel l < Z.of_nat (List.length l))%Z.
Proof.
  unfold selectedIndexOf.
  destruct (JS.truthy sel); [destruct sel as [sid | ] | ];
    try apply findIndex_range;
    destruct l; simpl List.length; lia.
Qed.

Lemma nextAvailable_lt (sel : option string) (l : list Star.t) :
  l <> [] ->
  (nextAvailable sel l < List.length l)%nat
  /\ Z.rem (selectedIndexOf sel l + 1) (Z.of_nat (List.length l))
     = Z.of_nat (nextAvailable sel l).
Proof.
  intros Hl. unfold nextAvailable.
  pose proof (selectedIndexOf_range sel l) as Hr.
  assert (Hn : (0 < Z.of_nat (List.length l))%Z) by (destruct l; [contradiction | simpl; lia]).
  rewrite Z.rem_mod_nonneg by lia.
  pose proof (Z.mod_pos_bound (selectedIndexOf sel l + 1) (Z.of_nat (List.length l)) Hn).
  split; lia.
Qed.

Lemma filter_isAvailable (l : list Star.t) (k : nat) (s : Star.t) :
  nth_error (filter isAvailable l) k = Some s ->
  In s l /\ Star.moving s = false /\ Star.inHole s = false.
Proof.
  intros H. apply nth_error_In in H. apply filter_In in H. destruct H as [Hin Ha].
  unfold isAvailable in Ha. apply andb_true_iff in Ha. destruct Ha as [Hm Hh].
  apply negb_true_iff in Hm, Hh. auto.
Qed.

Lemma nextAvailable_after (sid : string) (l : list Star.t) (k : nat) (s : Star.t) :
  sid <> EmptyString ->
  nth_error l k = Some s ->
  Star.id s = sid ->
  (forall j b, (j < k)%nat -> nth_error l j = Some b -> Star.id b <> sid) ->
  nextAvailable (Some sid) l = (S k mod List.length l)%nat.
Proof.
  intros Hne Hk Hid Hbefore. unfold nextAvailable, selectedIndexOf.
  rewrite (truthy_some sid Hne).
  rewrite (findIndex_first (hasId sid) l k s Hk).
  - assert (Hlt : (k < List.length l)%nat) by (apply nth_error_Some; congruence).
    rewrite Z.rem_mod_nonneg by lia.
    replace (Z.of_nat k + 1)%Z with (Z.of_nat (S k)) by lia.
    rewrite <- Nat2Z.inj_mod. apply Nat2Z.id.
  - unfold hasId. apply String.eqb_eq. exact Hid.
  - intros j b Hj Hb. unfold hasId. apply String.eqb_neq. eapply Hbefore; eassumption.
Qed.

Lemma nextAvailable_first (sel : option string) (l : list Star.t) :
  sel = None
  \/ (exists sid, sel = Some sid /\ forall s, In s l -> Star.id s <> sid) ->
  nextAvailable sel l = 0%nat.
Proof.
  intros H. unfold nextAvailable.
  assert (E : selectedIndexOf sel l = (-1)%Z).
  { unfold selectedIndexOf. destruct H as [-> | (sid & -> & Hno)]; [reflexivity | ].
    destruct (JS.truthy (Some sid)); [ | reflexivity].
    apply findIndex_none. intros a Ha. unfold hasId. apply String.eqb_neq. auto. }
  rewrite E. destruct (Z.of_nat (List.length l)); reflexivity.
Qed.

(** C9, as the code has it.  [switchActiveStar] never throws and returns
    nothing ([undefined]) in every case.  With no star that is neither moving
    nor in a hole, it changes nothing.  Otherwise it changes only
    [gameState.selectedStar], to the id of one of those available stars:
    counting the available stars in stored order, the one after the selected
    star (wrapping around) when the selected star is itself available, and
    the first one when nothing is selected or the selected star is not
    available. *)
Theorem switchActiveStar_cycles_available (w : World) :
  let available := filter isAvailable (stars (physicsEngine w)) in
  let next := nextAvailable (selectedStar (gameState w)) available in
  exists w',
    switchActiveStar w = Some (w', None)
    /\ (available = [] -> w' = w)
    /\ (available <> [] ->
        exists nextStar,
          nth_error available next = Some nextStar
          /\ In nextStar (stars (physicsEngine w))
          /\ Star.moving nextStar = false
          /\ Star.inHole nextStar = false
          /\ w' = set_gameState
                    (set_selectedStar (Some (Star.id nextStar)) (gameState w)) w)
    /\ (forall sid k s,
          selectedStar (gameState w) = Some sid ->
          sid <> EmptyString ->
          nth_error available k = Some s ->
          Star.id s = sid ->
          (forall j b, (j < k)%nat -> nth_error available j = Some b ->
                       Star.id b <> sid) ->
          next = (S k mod List.length available)%nat)
    /\ (selectedStar (gameState w) = None
        \/ (exists sid, selectedStar (gameState w) = Some sid
                        /\ forall s, In s available -> Star.id s <> sid) ->
        next = 0%nat).
Proof.
  intros available next. unfold switchActiveStar. fold available.
  destruct available as [ | a l] eqn:Ea.
  - exists w. split; [reflexivity | ]. split; [reflexivity | ].
    split; [intros H; contradiction | ]. split.
    + intros sid k s _ _ Hk. destruct k; discriminate.
    + intros H. apply nextAvailable_first. exact H.
  - assert (Hne : a :: l <> []) by discriminate.
    destruct (nextAvailable_lt (selectedStar (gameState w)) (a :: l) Hne)
      as (Hlt & Hrem).
    fold next in Hlt, Hrem.
    destruct (nth_error (a :: l) next) as [nextStar | ] eqn:En;
      [ | apply nth_error_None in En; lia].
    exists (set_gameState
              (set_selectedStar (Some (Star.id nextStar)) (gameState w)) w).
    split.
    + replace (List.length (a :: l) =? 0)%nat with false by reflexivity.
      rewrite Hrem. unfold JS.index.
      destruct (Z.ltb_spec (Z.of_nat next) 0); [lia | ].
      rewrite Nat2Z.id, En. reflexivity.
    + split; [discriminate | ]. split.
      * intros _. exists nextStar. rewrite <- Ea in En.
        destruct (filter_isAvailable _ _ _ En) as (Hin & Hm & Hh).
        rewrite Ea in En. auto.
      * split.
        -- intros sid k s Hsel Hsid Hk Hid Hb. unfold next. rewrite Hsel.
           eapply nextAvailable_after; eassumption.
        -- intros H. apply nextAvailable_first. exact H.
Qed.

Lemma switchActiveStar_cycles_available_witness :
  exists w' nextStar,
    switchActiveStar Sample.secondInFlight = Some (w', None)
    /\ nth_error (filter isAvailable (stars (physicsEngine Sample.secondInFlight)))
         (nextAvailable (selectedStar (gameState Sample.secondInFlight))
            (filter isAvailable (stars (physicsEngine Sample.secondInFlight))))
       = Some nextStar
    /\ w' = set_gameState
              (set_selectedStar (Some (Star.id nextStar))
                 (gameState Sample.secondInFlight))
              Sample.secondInFlight.
Proof.
  destruct (switchActiveStar_cycles_available Sample.secondInFlight)
    as (w' & Hs & _ & Hnext & _).
  destruct Hnext as (nextStar & Hn & _ & _ & _ & Hw); [discriminate | ].
  exists w', nextStar. auto.
Defined.

(** C9, counterexample.  Of three stars the second is selected and in
    flight.  [switchActiveStar] returns nothing, not an identity, and selects
    the first star, not the third, which is the next available one after the
    selected star in stored order. *)
Lemma switchActiveStar_returns_nothing :
  exists w',
    switchActiveStar Sample.secondInFlight = Some (w', None)
    /\ selectedStar (gameState Sample.secondInFlight) = Some "star2"%string
    /\ map Star.id (filter isAvailable (stars (physicsEngine Sample.secondInFlight)))
       = ["star1"%string; "star3"%string]
    /\ selectedStar (gameState w') = Some "star1"%string.
Proof.
  eexists. split; [reflexivity | ]. repeat split.
Qed.

(* ================================================================== *)
(** ** The active hole *)









(** The holes and the random source of a freshly initialised level. *)
Lemma initialize_holes (doc : Document) (now : R) (w : World) :
  exists w2,
    holes (physicsEngine w2) = initializeHolesFrom doc 0 (holeNodes doc)
    /\ Math_random w2 = Math_random w
    /\ randomDraws w2 = (randomDraws w + 3 * List.length (meteoriteNodes doc))%nat
    /\ holes (physicsEngine (initialize doc now w))
       = holes (physicsEngine (setActiveHole w2))
    /\ activeHole (physicsEngine (initialize doc now w))
       = activeHole (physicsEngine (setActiveHole w2))
    /\ Math_random (initialize doc now w) = Math_random w
    /\ randomDraws (initialize doc now w) = S (randomDraws w2).
Proof.
  exists (initializeMeteorites doc (initializeHoles doc (initializeStars doc w))).
  unfold initialize. cbn [physicsEngine set_engine set_lastUpdateTime holes
                          activeHole Math_random randomDraws].
  destruct (setActiveHole_frame
              (initializeMeteorites doc (initializeHoles doc (initializeStars doc w))))
    as (_ & _ & _ & _ & _ & _ & _ & M & D).
  rewrite M, D. unfold initializeMeteorites.
  pose proof (initializeMeteoritesFrom_frame 0 (meteoriteNodes doc)
                (initializeHoles doc (initializeStars doc w)))
    as (E & _ & _ & M' & D' & _).
  destruct (initializeMeteoritesFrom _ _ _) as [ms w1]. simpl in *.
  rewrite E, M', D'. repeat split.
Qed.


Lemma switchActiveStar_frame (w : World) :
  let w' := exec w OpSwitchActiveStar in
  physicsEngine w' = physicsEngine w
  /\ Math_random w' = Math_random w
  /\ randomDraws w' = randomDraws w.
Proof.
  simpl. unfold switchActiveStar.
  destruct (_ =? 0)%nat; [repeat split | ].
  destruct (JS.index _ _); repeat split.
Qed.

Lemma handleMouseDown_frame (event : MouseEvent) (now : R) (w : World) :
  let w' := handleMouseDown event now w in
  physicsEngine w' = physicsEngine w
  /\ Math_random w' = Math_random w
  /\ randomDraws w' = randomDraws w.
Proof.
  unfold handleMouseDown.
  destruct (negb _ || _); [repeat split | ].
  destruct (closestStar event); [ | repeat split].
  destruct (JS.find _ _) as [star | ]; [ | repeat split].
  destruct (Star.moving star || Star.inHole star); repeat split.
Qed.

Lemma handleMouseMove_frame (event : MouseEvent) (w : World) :
  let w' := handleMouseMove event w in
  physicsEngine w' = physicsEngine w
  /\ Math_random w' = Math_random w
  /\ randomDraws w' = randomDraws w.
Proof.
  unfold handleMouseMove. destruct (negb _ || negb _); repeat split.
Qed.










(** The holes [setActiveHole] leaves, from the holes it found and the value
    it drew. *)
Lemma setActiveHole_holes (w : World) :
  holes (physicsEngine (setActiveHole w))
  = let cleared := map deactivate (holes (physicsEngine w)) in
    let randomIndex :=
      JS.floor (Math_random w (randomDraws w) * INR (List.length cleared)) in
    match JS.index cleared randomIndex with
    | Some activeHole =>
        match Hole.element activeHole with
        | Some _ => JS.update_at (Z.to_nat randomIndex) activate cleared
        | None => cleared
        end
    | None => cleared
    end.
Proof.
  unfold setActiveHole. simpl.
  destruct (JS.index _ _) as [h | ]; [destruct (Hole.element h) | ]; reflexivity.
Qed.

Lemma sample_twoHoles_events :
  events (update Sample.frame Sample.twoHoles) = [StarInHole "star1"].
Proof.
  unfold update.
  cbn [Sample.twoHoles Sample.world physicsEngine enabled negb].
  rewrite frame_deltaTime by reflexivity.
  destruct (updateCamera_frame
              (updateMeteorites 1
                 (updateStars 1
                    (set_engine
                       (set_lastUpdateTime Sample.frame
                          (physicsEngine Sample.twoHoles))
                       Sample.twoHoles))))
    as (_ & _ & _ & Ev).
  cbn [Sample.twoHoles Sample.world physicsEngine enabled negb] in Ev.
  rewrite Ev. clear Ev.
  unfold updateMeteorites. cbn [events set_engine].
  unfold updateStars.
  cbn [stars physicsEngine set_engine set_lastUpdateTime forEachStar].
  unfold updateStar. star_fields. cbn [negb orb].
  rewrite checkBoundaryCollisions_inside
    by (unfold inBoard; star_fields; unfold friction, STAR_RADIUS; lra).
  unfold checkHoleCollisions.
  cbn [holes physicsEngine set_engine set_lastUpdateTime fold_left].
  unfold checkHole at 2. star_fields.
  replace (451 + 50 * friction * 1 - 500) with 0 by (unfold friction; lra).
  replace (400 + 0 * friction * 1 - 400) with 0 by lra.
  replace (0 * 0 + 0 * 0) with 0 by lra. rewrite sqrt_0.
  js_compare. cbv iota beta.
  unfold checkHole. star_fields.
  replace (451 + 50 * friction * 1 - 1000) with (-500) by (unfold friction; lra).
  replace (400 + 0 * friction * 1 - 400) with 0 by lra.
  replace (-500 * -500 + 0 * 0) with (500 * 500) by lra.
  rewrite sqrt_square by lra.
  js_compare. cbv iota beta.
  unfold checkMeteoriteCollisions.
  cbn [onStarInHole notify updateScore physicsEngine set_gameState set_engine
       meteorites set_lastUpdateTime fold_left events app Sample.twoHoles
       Sample.world].
  reflexivity.
Qed.

(* ================================================================== *)
(** ** Friction brings a star to rest *)


(* ================================================================== *)
(** ** Meteorites *)

Lemma updateMeteorite_fields (dt : R) (m : Meteorite.t) :
  Meteorite.id (updateMeteorite dt m) = Meteorite.id m
  /\ Meteorite.radius (updateMeteorite dt m) = Meteorite.radius m
  /\ Meteorite.rotationSpeed (updateMeteorite dt m) = Meteorite.rotationSpeed m
  /\ Meteorite.rotation (updateMeteorite dt m)
     = Meteorite.rotation m + Meteorite.rotationSpeed m * (1 / 100) * dt.
Proof.
  unfold updateMeteorite.
  destruct (JS.ltb _ _ || JS.gtb _ _); destruct (JS.ltb _ _ || JS.gtb _ _);
    repeat split.
Qed.

Lemma updateMeteorite_inBoard (dt : R) (m : Meteorite.t) :
  Meteorite.radius m <= 400 -> meteoriteInBoard (updateMeteorite dt m).
Proof.
  intros Hr. unfold meteoriteInBoard, updateMeteorite, JS.gtb.
  set (r := Meteorite.radius m) in *.
  set (x1 := Meteorite.x m + Vec.x (Meteorite.velocity m) * dt).
  set (y1 := Meteorite.y m + Vec.y (Meteorite.velocity m) * dt).
  destruct (ltb_spec x1 r) as [Hx | Hx];
    destruct (ltb_spec (1600 - r) x1) as [Hx' | Hx'];
    destruct (ltb_spec y1 r) as [Hy | Hy];
    destruct (ltb_spec (800 - r) y1) as [Hy' | Hy'];
    simpl; repeat split; lra.
Qed.

(** X1.  After [updateMeteorites], every meteorite is within the 1600 x 800
    board by its radius on both axes, wherever it was and however long the
    step, as long as its radius is at most 400; its identity, radius and
    rotation speed are kept and no meteorite is added or lost. *)
Theorem meteorites_stay_in_board (dt : R) (w : World) :
  Forall (fun m => Meteorite.radius m <= 400) (meteorites (physicsEngine w)) ->
  Forall meteoriteInBoard (meteorites (physicsEngine (updateMeteorites dt w)))
  /\ map Meteorite.id (meteorites (physicsEngine (updateMeteorites dt w)))
     = map Meteorite.id (meteorites (physicsEngine w))
  /\ map Meteorite.radius (meteorites (physicsEngine (updateMeteorites dt w)))
     = map Meteorite.radius (meteorites (physicsEngine w))
  /\ stars (physicsEngine (updateMeteorites dt w)) = stars (physicsEngine w)
  /\ holes (physicsEngine (updateMeteorites dt w)) = holes (physicsEngine w).
Proof.
  intros H. unfold updateMeteorites. simpl.
  split; [ | split; [ | split; [ | split; reflexivity] ] ].
  - induction H as [ | m l Hm _ IH]; simpl; constructor;
      [apply updateMeteorite_inBoard; exact Hm | exact IH].
  - rewrite map_map. apply map_ext. intros m. apply updateMeteorite_fields.
  - rewrite map_map. apply map_ext. intros m. apply updateMeteorite_fields.
Qed.

Lemma meteorites_stay_in_board_witness :
  Forall meteoriteInBoard
    (meteorites (physicsEngine (updateMeteorites 3 Sample.holeNextToMeteorite))).
Proof.
  apply (meteorites_stay_in_board 3 Sample.holeNextToMeteorite).
  repeat constructor. simpl. unfold METEORITE_RADIUS. lra.
Defined.

(** X2.  A meteorite bounces off the edges without losing speed: on each
    axis [updateMeteorite] keeps the size of the velocity component; the
    component changes sign exactly when the displaced position left the band
    between [radius] and the board extent minus [radius], and then the
    position is put on the edge it crossed; otherwise the meteorite is just
    displaced by velocity times the time multiplier. *)
Theorem meteorite_reflection_is_elastic (dt : R) (m : Meteorite.t) :
  let m' := updateMeteorite dt m in
  let x1 := Meteorite.x m + Vec.x (Meteorite.velocity m) * dt in
  let y1 := Meteorite.y m + Vec.y (Meteorite.velocity m) * dt in
  let r := Meteorite.radius m in
  Rabs (Vec.x (Meteorite.velocity m')) = Rabs (Vec.x (Meteorite.velocity m))
  /\ Rabs (Vec.y (Meteorite.velocity m')) = Rabs (Vec.y (Meteorite.velocity m))
  /\ (r <= x1 <= 1600 - r ->
      Meteorite.x m' = x1
      /\ Vec.x (Meteorite.velocity m') = Vec.x (Meteorite.velocity m))
  /\ (x1 < r ->
      Meteorite.x m' = r
      /\ Vec.x (Meteorite.velocity m') = - Vec.x (Meteorite.velocity m))
  /\ (r <= x1 -> 1600 - r < x1 ->
      Meteorite.x m' = 1600 - r
      /\ Vec.x (Meteorite.velocity m') = - Vec.x (Meteorite.velocity m))
  /\ (r <= y1 <= 800 - r ->
      Meteorite.y m' = y1
      /\ Vec.y (Meteorite.velocity m') = Vec.y (Meteorite.velocity m))
  /\ (y1 < r ->
      Meteorite.y m' = r
      /\ Vec.y (Meteorite.velocity m') = - Vec.y (Meteorite.velocity m))
  /\ (r <= y1 -> 800 - r < y1 ->
      Meteorite.y m' = 800 - r
      /\ Vec.y (Meteorite.velocity m') = - Vec.y (Meteorite.velocity m)).
Proof.
  intros m' x1 y1 r. subst m'. unfold updateMeteorite, JS.gtb.
  fold x1 y1 r.
  destruct (ltb_spec x1 r) as [Hx | Hx];
    destruct (ltb_spec (1600 - r) x1) as [Hx' | Hx'];
    destruct (ltb_spec y1 r) as [Hy | Hy];
    destruct (ltb_spec (800 - r) y1) as [Hy' | Hy'];
    simpl;
    repeat match goal with
      | |- _ /\ _ => split
      | |- _ -> _ => intro
      end;
    try lra;
    try (replace (Vec.x (Meteorite.velocity m) * -1)
           with (- Vec.x (Meteorite.velocity m)) by ring; apply Rabs_Ropp);
    try (replace (Vec.y (Meteorite.velocity m) * -1)
           with (- Vec.y (Meteorite.velocity m)) by ring; apply Rabs_Ropp);
    try reflexivity.
Qed.

Lemma meteorite_reflection_is_elastic_witness :
  Meteorite.x
    (updateMeteorite 1 (Meteorite.mk "meteorite1" 20 400 15 (Vec.mk (-10) 0) 0 0))
  = 15
  /\ Vec.x (Meteorite.velocity
       (updateMeteorite 1 (Meteorite.mk "meteorite1" 20 400 15 (Vec.mk (-10) 0) 0 0)))
     = - -10.
Proof.
  apply (proj1 (proj2 (proj2 (proj2
    (meteorite_reflection_is_elastic 1
       (Meteorite.mk "meteorite1" 20 400 15 (Vec.mk (-10) 0) 0 0)))))).
  simpl. lra.
Defined.

(* ================================================================== *)
(** ** Bounces off the edges *)

Lemma checkBoundaryCollisions_spec (s : Star.t) (w : World) :
  let s' := fst (checkBoundaryCollisions s w) in
  let w' := snd (checkBoundaryCollisions s w) in
  let r := Star.radius s in
  let outX := JS.ltb (Star.x s) r || JS.gtb (Star.x s) (1600 - r) in
  let outY := JS.ltb (Star.y s) r || JS.gtb (Star.y s) (800 - r) in
  Vec.x (Star.velocity s')
  = (if outX then - Star.restitution s * Vec.x (Star.velocity s)
     else Vec.x (Star.velocity s))
  /\ Vec.y (Star.velocity s')
     = (if outY then - Star.restitution s * Vec.y (Star.velocity s)
        else Vec.y (Star.velocity s))
  /\ Star.x s'
     = (if JS.ltb (Star.x s) r then r
        else if JS.gtb (Star.x s) (1600 - r) then 1600 - r else Star.x s)
  /\ Star.y s'
     = (if JS.ltb (Star.y s) r then r
        else if JS.gtb (Star.y s) (800 - r) then 800 - r else Star.y s)
  /\ events w'
     = events w ++ (if outX then [StarBounce (Star.id s)] else [])
                ++ (if outY then [StarBounce (Star.id s)] else [])
  /\ physicsEngine w' = physicsEngine w
  /\ gameState w' = gameState w
  /\ Star.moving s' = Star.moving s /\ Star.inHole s' = Star.inHole s
  /\ (0 <= Star.restitution s <= 1 -> speed s' <= speed s).
Proof.
  cbv zeta.
  assert (Hsp : forall a b k, 0 <= k <= 1 ->
             sqrt ((- k * a) * (- k * a) + b * b) <= sqrt (a * a + b * b)
             /\ sqrt (a * a + (- k * b) * (- k * b)) <= sqrt (a * a + b * b)
             /\ sqrt ((- k * a) * (- k * a) + (- k * b) * (- k * b))
                <= sqrt (a * a + b * b)).
  { intros a b k Hk.
    assert (0 <= a * a) by nra. assert (0 <= b * b) by nra.
    assert (k * k <= 1) by nra.
    assert (k * k * (a * a) <= a * a) by nra.
    assert (k * k * (b * b) <= b * b) by nra.
    repeat split; apply sqrt_le_1; nra. }
  unfold checkBoundaryCollisions, JS.gtb, speed.
  destruct (ltb_spec (Star.x s) (Star.radius s)) as [Hx | Hx];
    [ | destruct (ltb_spec (1600 - Star.radius s) (Star.x s)) as [Hx' | Hx'] ];
    cbv zeta beta iota; simpl;
    (destruct (ltb_spec (Star.y s) (Star.radius s)) as [Hy | Hy];
     [ | destruct (ltb_spec (800 - Star.radius s) (Star.y s)) as [Hy' | Hy'] ]);
    simpl; rewrite ?app_nil_r, <- ?app_assoc;
    (split; [try ring; try reflexivity | ]);
    (split; [try ring; try reflexivity | ]);
    (split; [reflexivity | ]); (split; [reflexivity | ]);
    (split; [reflexivity | ]); (split; [reflexivity | ]);
    (split; [reflexivity | ]); (split; [reflexivity | ]);
    (split; [reflexivity | ]);
    intros Hk;
    destruct (Hsp (Vec.x (Star.velocity s)) (Vec.y (Star.velocity s))
                (Star.restitution s) Hk) as (A & B & C);
    try lra;
    repeat match goal with
      | |- context [?a * - ?k] => replace (a * - k) with (- k * a) by ring
      end;
    assumption.
Qed.

(** X3.  [checkBoundaryCollisions] treats the two axes alike and one after
    the other.  On an axis where the star is closer to an edge than its
    radius, or beyond it, the star is put at its radius from that edge, the
    velocity component becomes minus the restitution times itself, and
    [onStarBounce] is called once; on the other axis nothing changes.  So at
    most two bounces are reported, nothing else of the world changes, and
    with a restitution between 0 and 1 the speed does not grow. *)
Theorem wall_bounce (s : Star.t) (w : World) :
  let s' := fst (checkBoundaryCollisions s w) in
  let w' := snd (checkBoundaryCollisions s w) in
  let r := Star.radius s in
  let outX := JS.ltb (Star.x s) r || JS.gtb (Star.x s) (1600 - r) in
  let outY := JS.ltb (Star.y s) r || JS.gtb (Star.y s) (800 - r) in
  Vec.x (Star.velocity s')
  = (if outX then - Star.restitution s * Vec.x (Star.velocity s)
     else Vec.x (Star.velocity s))
  /\ Vec.y (Star.velocity s')
     = (if outY then - Star.restitution s * Vec.y (Star.velocity s)
        else Vec.y (Star.velocity s))
  /\ Star.x s'
     = (if JS.ltb (Star.x s) r then r
        else if JS.gtb (Star.x s) (1600 - r) then 1600 - r else Star.x s)
  /\ Star.y s'
     = (if JS.ltb (Star.y s) r then r
        else if JS.gtb (Star.y s) (800 - r) then 800 - r else Star.y s)
  /\ events w'
     = events w ++ (if outX then [StarBounce (Star.id s)] else [])
                ++ (if outY then [StarBounce (Star.id s)] else [])
  /\ physicsEngine w' = physicsEngine w
  /\ gameState w' = gameState w
  /\ Star.moving s' = Star.moving s /\ Star.inHole s' = Star.inHole s
  /\ (0 <= Star.restitution s <= 1 -> speed s' <= speed s).
Proof. exact (checkBoundaryCollisions_spec s w). Qed.

Lemma wall_bounce_witness :
  speed (fst (checkBoundaryCollisions
                (Sample.star "star1" yellow 5 400 (-10) 0 true false)
                Sample.fresh))
  <= speed (Sample.star "star1" yellow 5 400 (-10) 0 true false).
Proof.
  apply (wall_bounce (Sample.star "star1" yellow 5 400 (-10) 0 true false)
           Sample.fresh).
  simpl. lra.
Defined.

(* ================================================================== *)
(** ** Directions *)

Lemma norm_scaled (x y : R) :
  x <> 0 -> sqrt (x * x + y * y) = Rabs x * sqrt (1 + (y / x)²).
Proof.
  intros Hx.
  replace (x * x + y * y) with ((Rabs x * Rabs x) * (1 + (y / x)²)).
  - rewrite sqrt_mult.
    + rewrite sqrt_square by apply Rabs_pos. reflexivity.
    + apply Rmult_le_pos; apply Rabs_pos.
    + unfold Rsqr. nra.
  - replace (Rabs x * Rabs x) with (x * x)
      by (unfold Rabs; destruct (Rcase_abs x); ring).
    unfold Rsqr. field. exact Hx.
Qed.

Lemma sqrt_1_plus_sqr_pos (t : R) : 0 < sqrt (1 + t²).
Proof. apply sqrt_lt_R0. unfold Rsqr. nra. Qed.

(** [JS.atan2 y x] is the angle of the vector [(x, y)]. *)
Lemma atan2_cos_sin (y x : R) :
  x <> 0 \/ y <> 0 ->
  cos (JS.atan2 y x) = x / sqrt (x * x + y * y)
  /\ sin (JS.atan2 y x) = y / sqrt (x * x + y * y).
Proof.
  intros Hnz. unfold JS.atan2.
  pose proof (sqrt_1_plus_sqr_pos (y / x)) as Hs.
  destruct (Rlt_dec 0 x) as [Hx | Hx].
  - rewrite cos_atan, sin_atan, norm_scaled by lra.
    rewrite Rabs_pos_eq by lra. split; field; lra.
  - destruct (Rlt_dec x 0) as [Hx' | Hx'].
    + assert (Hn : sqrt (x * x + y * y) = - x * sqrt (1 + (y / x)²)).
      { rewrite norm_scaled by lra. rewrite Rabs_left by lra. reflexivity. }
      destruct (Rle_dec 0 y).
      * rewrite neg_cos, neg_sin, cos_atan, sin_atan, Hn. split; field; lra.
      * rewrite cos_minus, sin_minus, cos_PI, sin_PI, cos_atan, sin_atan, Hn.
        split; field; lra.
    + assert (x = 0) by lra. subst x.
      assert (Hy : y <> 0) by (destruct Hnz; [lra | assumption]).
      replace (0 * 0 + y * y) with (y * y) by ring.
      destruct (Rlt_dec 0 y) as [Hy0 | Hy0].
      * rewrite cos_PI2, sin_PI2, sqrt_square by lra. split; field; lra.
      * destruct (Rlt_dec y 0) as [Hy1 | Hy1]; [ | lra].
        replace (- PI / 2) with (- (PI / 2)) by field.
        rewrite cos_neg, sin_neg, cos_PI2, sin_PI2.
        replace (y * y) with (- y * - y) by ring.
        rewrite sqrt_square by lra. split; field; lra.
Qed.

Lemma sqrt_sum_sqr_zero (a b : R) :
  sqrt (a * a + b * b) = 0 -> a = 0 /\ b = 0.
Proof.
  intros H. apply Rplus_sqr_eq_0. unfold Rsqr. apply sqrt_eq_0; [ | exact H].
  pose proof (Rle_0_sqr a). pose proof (Rle_0_sqr b). unfold Rsqr in *. lra.
Qed.

Lemma atan2_origin : JS.atan2 0 0 = 0.
Proof.
  unfold JS.atan2. destruct (Rlt_dec 0 0); [lra | ]. reflexivity.
Qed.

Lemma unit_vector_norm (a : R) (p : R) :
  0 <= p -> sqrt (cos a * p * (cos a * p) + sin a * p * (sin a * p)) = p.
Proof.
  intros Hp.
  replace (cos a * p * (cos a * p) + sin a * p * (sin a * p))
    with (p * p * ((sin a)² + (cos a)²)) by (unfold Rsqr; ring).
  rewrite sin2_cos2, Rmult_1_r. apply sqrt_square. exact Hp.
Qed.

(** X4.  The wrong-hole nudge.  A star closer than the capture threshold to
    a hole that is not active gets a velocity of magnitude 2 pointing from
    the hole's centre to the star, (2, 0) when the two coincide; its
    position and flags are kept and the game is told nothing. *)
Theorem inactive_hole_nudges_away (s : Star.t) (w : World) (hole : Hole.t) :
  Hole.isActive hole = false ->
  holeDistance s hole < collisionThreshold ->
  let s' := fst (checkHole (s, w) hole) in
  let d := holeDistance s hole in
  snd (checkHole (s, w) hole) = w
  /\ speed s' = 2
  /\ (d <> 0 ->
      Star.velocity s'
      = Vec.mk (2 * ((Star.x s - Hole.x hole) / d))
               (2 * ((Star.y s - Hole.y hole) / d)))
  /\ (d = 0 -> Star.velocity s' = Vec.mk 2 0)
  /\ Star.x s' = Star.x s /\ Star.y s' = Star.y s
  /\ Star.moving s' = Star.moving s /\ Star.inHole s' = Star.inHole s.
Proof.
  intros Ha Hd. cbv zeta. unfold checkHole.
  fold (holeDistance s hole). rewrite ltb_true by exact Hd. rewrite Ha.
  cbn [fst snd]. split; [reflexivity | ].
  split; [unfold speed; star_fields; apply unit_vector_norm; lra | ].
  split; [ | split; [ | repeat split] ].
  - intros Hnz. star_fields.
    assert (Hv : Star.x s - Hole.x hole <> 0 \/ Star.y s - Hole.y hole <> 0).
    { destruct (Req_dec (Star.x s - Hole.x hole) 0) as [Ex | Ex]; [ | left; exact Ex].
      destruct (Req_dec (Star.y s - Hole.y hole) 0) as [Ey | Ey]; [ | right; exact Ey].
      exfalso. apply Hnz. unfold holeDistance. rewrite Ex, Ey.
      replace (0 * 0 + 0 * 0) with 0 by ring. apply sqrt_0. }
    destruct (atan2_cos_sin _ _ Hv) as (C & S).
    rewrite C, S. unfold holeDistance. f_equal; ring.
  - intros Hz. star_fields.
    destruct (sqrt_sum_sqr_zero _ _ Hz) as (Ex & Ey).
    rewrite Ex, Ey, atan2_origin, cos_0, sin_0. f_equal; ring.
Qed.

Lemma inactive_hole_nudges_away_witness :
  speed (fst (checkHole (Sample.star "star1" yellow 500 400 3 4 true false,
                         Sample.fresh)
                        (Sample.hole "hole2" 510 400 false)))
  = 2.
Proof.
  apply (inactive_hole_nudges_away
           (Sample.star "star1" yellow 500 400 3 4 true false) Sample.fresh
           (Sample.hole "hole2" 510 400 false)).
  - reflexivity.
  - unfold holeDistance. star_fields.
    replace ((500 - 510) * (500 - 510) + (400 - 400) * (400 - 400))
      with (10 * 10) by lra.
    rewrite sqrt_square by lra. unfold collisionThreshold. lra.
Defined.

(** X5.  The meteorite push.  A star closer to a meteorite than the sum of
    their radii gets a velocity of magnitude 5 pointing from the meteorite's
    centre to the star, (5, 0) when the two coincide, whatever its velocity
    was; its position and flags are kept. *)
Theorem meteorite_pushes_away (s : Star.t) (w : World) (m : Meteorite.t) :
  meteoriteDistance s m < Star.radius s + Meteorite.radius m ->
  let s' := fst (checkMeteorite (s, w) m) in
  let d := meteoriteDistance s m in
  speed s' = 5
  /\ (d <> 0 ->
      Star.velocity s'
      = Vec.mk (5 * ((Star.x s - Meteorite.x m) / d))
               (5 * ((Star.y s - Meteorite.y m) / d)))
  /\ (d = 0 -> Star.velocity s' = Vec.mk 5 0)
  /\ Star.x s' = Star.x s /\ Star.y s' = Star.y s
  /\ Star.moving s' = Star.moving s /\ Star.inHole s' = Star.inHole s.
Proof.
  intros Hd. cbv zeta. unfold checkMeteorite.
  fold (meteoriteDistance s m). rewrite ltb_true by exact Hd.
  cbn [fst snd].
  split; [unfold speed; star_fields; apply unit_vector_norm; lra | ].
  split; [ | split; [ | repeat split] ].
  - intros Hnz. star_fields.
    assert (Hv : Star.x s - Meteorite.x m <> 0 \/ Star.y s - Meteorite.y m <> 0).
    { destruct (Req_dec (Star.x s - Meteorite.x m) 0) as [Ex | Ex]; [ | left; exact Ex].
      destruct (Req_dec (Star.y s - Meteorite.y m) 0) as [Ey | Ey]; [ | right; exact Ey].
      exfalso. apply Hnz. unfold meteoriteDistance. rewrite Ex, Ey.
      replace (0 * 0 + 0 * 0) with 0 by ring. apply sqrt_0. }
    destruct (atan2_cos_sin _ _ Hv) as (C & S).
    rewrite C, S. unfold meteoriteDistance. f_equal; ring.
  - intros Hz. star_fields.
    destruct (sqrt_sum_sqr_zero _ _ Hz) as (Ex & Ey).
    rewrite Ex, Ey, atan2_origin, cos_0, sin_0. f_equal; ring.
Qed.

Lemma meteorite_pushes_away_witness :
  speed (fst (checkMeteorite (Sample.star "star1" yellow 500 400 3 4 true false,
                              Sample.fresh)
                             (Sample.meteorite "meteorite1" 520 400)))
  = 5.
Proof.
  apply (meteorite_pushes_away
           (Sample.star "star1" yellow 500 400 3 4 true false) Sample.fresh
           (Sample.meteorite "meteorite1" 520 400)).
  unfold meteoriteDistance. star_fields.
  replace ((500 - 520) * (500 - 520) + (400 - 400) * (400 - 400))
    with (20 * 20) by lra.
  rewrite sqrt_square by lra. unfold STAR_RADIUS, METEORITE_RADIUS. lra.
Defined.

(* ================================================================== *)
(** ** Capture *)

Lemma captures_same_place (s s' : Star.t) (hole : Hole.t) :
  Star.x s' = Star.x s -> Star.y s' = Star.y s ->
  captures s' hole = captures s hole.
Proof. intros X Y. unfold captures, holeDistance. rewrite X, Y. reflexivity. Qed.

Lemma checkHole_flags (s : Star.t) (w : World) (hole : Hole.t) :
  Star.inHole (fst (checkHole (s, w) hole)) = Star.inHole s || captures s hole
  /\ Star.moving (fst (checkHole (s, w) hole))
     = Star.moving s && negb (captures s hole).
Proof.
  unfold checkHole, captures. fold (holeDistance s hole).
  destruct (JS.ltb _ _); [destruct (Hole.isActive hole) | ]; simpl;
    rewrite ?orb_true_r, ?orb_false_r, ?andb_true_r, ?andb_false_r; split; reflexivity.
Qed.

Lemma fold_checkHole_flags (l : list Hole.t) (s : Star.t) (w : World) :
  Star.inHole (fst (fold_left checkHole l (s, w)))
  = Star.inHole s || existsb (captures s) l
  /\ Star.moving (fst (fold_left checkHole l (s, w)))
     = Star.moving s && negb (existsb (captures s) l).
Proof.
  revert s w. induction l as [ | hole l IH]; intros s w; cbn [fold_left existsb fst].
  - rewrite orb_false_r, andb_true_r. split; reflexivity.
  - destruct (checkHole_flags s w hole) as (I & M).
    destruct (checkHole_keeps (s, w) hole) as (X & Y & _).
    destruct (checkHole (s, w) hole) as [s1 w1]. cbn [fst snd] in *.
    destruct (IH s1 w1) as (I' & M').
    rewrite I', M', I, M.
    assert (Ex : existsb (captures s1) l = existsb (captures s) l).
    { clear -X Y. induction l as [ | h l IHl]; simpl; [reflexivity | ].
      rewrite IHl, (captures_same_place s s1 h X Y). reflexivity. }
    rewrite Ex.
    rewrite negb_orb, orb_assoc, andb_assoc. split; reflexivity.
Qed.

Lemma checkMeteorite_flags (acc : Star.t * World) (m : Meteorite.t) :
  Star.inHole (fst (checkMeteorite acc m)) = Star.inHole (fst acc)
  /\ Star.moving (fst (checkMeteorite acc m)) = Star.moving (fst acc).
Proof.
  destruct acc as [s w]. unfold checkMeteorite. destruct (JS.ltb _ _); split; reflexivity.
Qed.

Lemma fold_checkMeteorite_flags (l : list Meteorite.t) (acc : Star.t * World) :
  Star.inHole (fst (fold_left checkMeteorite l acc)) = Star.inHole (fst acc)
  /\ Star.moving (fst (fold_left checkMeteorite l acc)) = Star.moving (fst acc).
Proof.
  revert acc. induction l as [ | m l IH]; intros acc; simpl; [split; reflexivity | ].
  destruct (IH (checkMeteorite acc m)) as (I & M).
  destruct (checkMeteorite_flags acc m) as (I' & M'). split; congruence.
Qed.

Lemma stopIfSlow_moving (s : Star.t) :
  Star.moving (stopIfSlow s) = Star.moving s && negb (JS.ltb (speed s) minSpeed).
Proof.
  unfold stopIfSlow. destruct (JS.ltb _ _); simpl;
    rewrite ?andb_true_r, ?andb_false_r; reflexivity.
Qed.

(** The flags and the place of a star in flight after its step. *)
Lemma updateStar_flying (dt : R) (s : Star.t) (w : World) :
  Star.moving s = true -> Star.inHole s = false ->
  let s1 := fst (checkBoundaryCollisions (integrate dt s) w) in
  let s' := fst (updateStar dt s w) in
  Star.inHole s' = existsb (captures s1) (holes (physicsEngine w))
  /\ (Star.moving s' = true ->
      existsb (captures s1) (holes (physicsEngine w)) = false)
  /\ Star.x s' = Star.x s1 /\ Star.y s' = Star.y s1.
Proof.
  intros Hm Hh. cbv zeta. unfold updateStar. rewrite Hm, Hh. simpl negb. simpl orb.
  cbv iota.
  pose proof (checkBoundaryCollisions_frame (integrate dt s) w) as (E1 & _).
  pose proof (checkBoundaryCollisions_spec (integrate dt s) w) as (_ & _ & _ & _ & _ & _ & _ & M1 & I1 & _).
  cbv zeta in M1, I1.
  destruct (checkBoundaryCollisions (integrate dt s) w) as [s1 w1]. simpl in E1, M1, I1 |- *.
  unfold checkHoleCollisions. rewrite E1.
  destruct (fold_checkHole_flags (holes (physicsEngine w)) s1 w1) as (I2 & M2).
  pose proof (fold_keeps checkHole checkHole_keeps (holes (physicsEngine w)) (s1, w1))
    as (X2 & Y2 & _).
  destruct (fold_left checkHole (holes (physicsEngine w)) (s1, w1)) as [s2 w2].
  simpl in I2, M2, X2, Y2.
  unfold checkMeteoriteCollisions.
  destruct (fold_checkMeteorite_flags (meteorites (physicsEngine w2)) (s2, w2)) as (I3 & M3).
  pose proof (fold_keeps checkMeteorite checkMeteorite_keeps
                (meteorites (physicsEngine w2)) (s2, w2)) as (X3 & Y3 & _).
  destruct (fold_left checkMeteorite (meteorites (physicsEngine w2)) (s2, w2)) as [s3 w3].
  simpl in I3, M3, X3, Y3 |- *.
  destruct (stopIfSlow_position s3) as (X4 & Y4 & _ & I4).
  split; [ | split; [ | split] ].
  - rewrite I4, I3, I2, I1. cbn [integrate Star.inHole Star.set_x Star.set_y
      Star.set_velocity_x Star.set_velocity_y Star.set_velocity Star.set_rotation].
    rewrite Hh. reflexivity.
  - rewrite stopIfSlow_moving, M3, M2. intros H.
    apply andb_true_iff in H. destruct H as (H & _).
    apply andb_true_iff in H. destruct H as (_ & H).
    apply negb_true_iff in H. exact H.
  - congruence.
  - congruence.
Qed.

Lemma updateStar_capture (dt : R) (s : Star.t) (w : World) :
  Star.moving s = true -> Star.inHole s = false ->
  let s1 := fst (checkBoundaryCollisions (integrate dt s) w) in
  let s' := fst (updateStar dt s w) in
  (Star.inHole s' = true <->
   exists hole, In hole (holes (physicsEngine w))
                /\ Hole.isActive hole = true
                /\ holeDistance s1 hole < collisionThreshold)
  /\ (Star.inHole s' = true -> Star.moving s' = false).
Proof.
  intros Hm Hh. cbv zeta.
  destruct (updateStar_flying dt s w Hm Hh) as (I & M & _). cbv zeta in I, M.
  split.
  - rewrite I, existsb_exists. split.
    + intros (hole & Hin & Hc). exists hole. unfold captures in Hc.
      apply andb_true_iff in Hc. destruct Hc as (Hd & Ha).
      split; [exact Hin | ]. split; [exact Ha | ].
      destruct (ltb_spec (holeDistance (fst (checkBoundaryCollisions (integrate dt s) w)) hole)
                  collisionThreshold); [assumption | discriminate].
    + intros (hole & Hin & Ha & Hd). exists hole. split; [exact Hin | ].
      unfold captures. rewrite Ha, ltb_true by exact Hd. reflexivity.
  - intros Hi. rewrite I in Hi.
    destruct (Star.moving (fst (updateStar dt s w))) eqn:Em; [ | reflexivity].
    rewrite (M eq_refl) in Hi. discriminate.
Qed.

(** X6.  Capture.  A star in flight ends its step in a hole exactly when,
    once displaced and put back into the board, it is closer than the
    capture threshold to a hole that is active; it is then not moving.  An
    inactive hole, or an active one at the threshold or farther, never
    captures. *)
Theorem capture_iff_active_hole_in_reach (dt : R) (s : Star.t) (w : World) :
  Star.moving s = true -> Star.inHole s = false ->
  let s1 := fst (checkBoundaryCollisions (integrate dt s) w) in
  let s' := fst (updateStar dt s w) in
  (Star.inHole s' = true <->
   exists hole, In hole (holes (physicsEngine w))
                /\ Hole.isActive hole = true
                /\ holeDistance s1 hole < collisionThreshold)
  /\ (Star.inHole s' = true -> Star.moving s' = false).
Proof. exact (updateStar_capture dt s w). Qed.

Lemma capture_iff_active_hole_in_reach_witness :
  let s := Sample.star "star1" yellow 451 400 50 0 true false in
  Star.moving s = true /\ Star.inHole s = false
  /\ (Star.inHole (fst (updateStar 1 s Sample.twoHoles)) = true <->
      exists hole,
        In hole (holes (physicsEngine Sample.twoHoles))
        /\ Hole.isActive hole = true
        /\ holeDistance
             (fst (checkBoundaryCollisions (integrate 1 s) Sample.twoHoles)) hole
           < collisionThreshold).
Proof.
  intros s. split; [reflexivity | ]. split; [reflexivity | ].
  exact (proj1 (capture_iff_active_hole_in_reach 1 s Sample.twoHoles
                  eq_refl eq_refl)).
Defined.

(* ================================================================== *)
(** ** A star in a hole is at rest *)

Lemma updateStar_settled (dt : R) (s : Star.t) (w : World) :
  (Star.inHole s = true -> Star.moving s = false) ->
  Star.inHole (fst (updateStar dt s w)) = true ->
  Star.moving (fst (updateStar dt s w)) = false.
Proof.
  intros P.
  destruct (Star.moving s) eqn:Hm; [destruct (Star.inHole s) eqn:Hh | ].
  - discriminate (P eq_refl).
  - apply (updateStar_capture dt s w Hm Hh).
  - rewrite updateStar_skipped by (left; exact Hm). simpl. intros _. exact Hm.
Qed.

Lemma forEachStar_Forall (P : Star.t -> Prop)
  (f : Star.t -> World -> Star.t * World)
  (Hf : forall s w, P s -> P (fst (f s w)))
  (l : list Star.t) (w : World) :
  Forall P l -> Forall P (fst (forEachStar f l w)).
Proof.
  intros H. revert w. induction H as [ | s l Hs _ IH]; intros w; simpl.
  - constructor.
  - pose proof (Hf s w Hs) as H1. destruct (f s w) as [s' w1].
    specialize (IH w1). destruct (forEachStar f l w1) as [l' w2].
    simpl in *. constructor; assumption.
Qed.

Lemma update_stars (now : R) (w : World) :
  enabled (physicsEngine w) = true ->
  stars (physicsEngine (update now w))
  = fst (forEachStar (updateStar (deltaTimeOf (physicsEngine w) now))
           (stars (physicsEngine w))
           (set_engine (set_lastUpdateTime now (physicsEngine w)) w)).
Proof.
  intros En. unfold update. rewrite En. simpl negb. cbv iota zeta.
  rewrite (proj1 (updateCamera_frame _)). unfold updateMeteorites.
  cbn [physicsEngine set_engine stars set_meteorites].
  rewrite updateStars_unfold. reflexivity.
Qed.

Lemma update_settled (now : R) (w : World) :
  settledStarsRest w -> settledStarsRest (update now w).
Proof.
  intros H. unfold settledStarsRest in *.
  destruct (enabled (physicsEngine w)) eqn:En.
  - rewrite update_stars by exact En.
    apply forEachStar_Forall; [ | exact H].
    intros s w0 P. apply updateStar_settled. exact P.
  - unfold update. rewrite En. exact H.
Qed.

Lemma update_first_Forall {A : Type} (P : A -> Prop) (p : A -> bool) (f : A -> A)
  (l : list A) :
  (forall a, P (f a)) -> Forall P l -> Forall P (JS.update_first p f l).
Proof.
  intros Hf H. induction H as [ | a l Ha Hl IH]; simpl; [constructor | ].
  destruct (p a); constructor; auto.
Qed.

Lemma shootStar_settled (dragDistance dragTime : R) (w : World) :
  settledStarsRest w -> settledStarsRest (shootStar dragDistance dragTime w).
Proof.
  intros H. unfold settledStarsRest in *. unfold shootStar.
  destruct (negb _ || negb _); [exact H | ].
  destruct (selectedStar (gameState w)); [ | exact H].
  destruct (JS.find _ _); [ | exact H].
  destruct (JS.eqb _ _); [exact H | ].
  cbn [physicsEngine set_engine stars set_stars].
  apply update_first_Forall; [ | exact H]. intros a. simpl. discriminate.
Qed.

Lemma initialize_settled (doc : Document) (now : R) (w : World) :
  settledStarsRest (initialize doc now w).
Proof.
  unfold settledStarsRest. rewrite (proj1 (initialize_stars doc now w)).
  unfold initializeStars. cbn [physicsEngine set_engine stars set_stars].
  unfold starElements. cbn [flat_map fst snd].
  destruct (getElementById doc "star1"); destruct (getElementById doc "star2");
    destruct (getElementById doc "star3"); cbn [app];
    repeat constructor; simpl; discriminate.
Qed.

Lemma exec_settled (w : World) (op : Op) :
  settledStarsRest w -> settledStarsRest (exec w op).
Proof.
  intros H. destruct op; simpl.
  - apply initialize_settled.
  - unfold settledStarsRest. rewrite (proj1 (setActiveHole_frame w)). exact H.
  - apply update_settled. exact H.
  - apply shootStar_settled. exact H.
  - unfold settledStarsRest. destruct (switchActiveStar_frame w) as (E & _).
    simpl in E. rewrite E. exact H.
  - exact H.
  - constructor.
  - unfold settledStarsRest.
    rewrite (proj1 (handleMouseDown_frame event now w)). exact H.
  - unfold settledStarsRest.
    rewrite (proj1 (handleMouseMove_frame event w)). exact H.
  - unfold handleMouseUp. destruct (negb _ || negb _); [exact H | ].
    destruct (JS.gtb _ _); [ | exact H].
    unfold settledStarsRest.
    cbn [set_gameState physicsEngine notify].
    apply shootStar_settled. exact H.
Qed.

(** X7.  A star whose [inHole] is true is never [moving]: this holds when a
    level has been initialised and after whatever the game does next (steps,
    shots, pointer gestures, selections, ...), and every operation keeps it
    from any world where it holds. *)
Theorem settled_stars_are_at_rest (ops : list Op) :
  (forall doc now w0, settledStarsRest (run ops (initialize doc now w0)))
  /\ (forall w, settledStarsRest w -> settledStarsRest (run ops w)).
Proof.
  assert (G : forall w, settledStarsRest w -> settledStarsRest (run ops w)).
  { unfold run. induction ops as [ | op ops IH]; intros w H; simpl; [exact H | ].
    apply IH. apply exec_settled. exact H. }
  split; [ | exact G].
  intros doc now w0. apply G. apply initialize_settled.
Qed.

Lemma settled_stars_are_at_rest_witness :
  settledStarsRest
    (run [OpUpdate Sample.frame; OpShootStar 100 250; OpUpdate (2 * Sample.frame)]
         Sample.holeNextToMeteorite).
Proof.
  apply (proj2 (settled_stars_are_at_rest
                  [OpUpdate Sample.frame; OpShootStar 100 250;
                   OpUpdate (2 * Sample.frame)])).
  constructor; [simpl; discriminate | constructor].
Defined.

(* ================================================================== *)
(** ** What a shot changes *)

Lemma update_first_length {A : Type} (p : A -> bool) (f : A -> A) (l : list A) :
  List.length (JS.update_first p f l) = List.length l.
Proof.
  induction l as [ | a l IH]; simpl; [reflexivity | ].
  destruct (p a); simpl; congruence.
Qed.

Lemma update_first_map {A B : Type} (g : A -> B) (p : A -> bool) (f : A -> A)
  (l : list A) :
  (forall a, g (f a) = g a) -> map g (JS.update_first p f l) = map g l.
Proof.
  intros Hg. induction l as [ | a l IH]; simpl; [reflexivity | ].
  destruct (p a); simpl; congruence.
Qed.

Lemma update_first_other {A : Type} (p : A -> bool) (f : A -> A) (l : list A)
  (i : nat) (a : A) :
  nth_error l i = Some a -> p a = false ->
  nth_error (JS.update_first p f l) i = Some a.
Proof.
  revert i. induction l as [ | b l IH]; intros i Hi Hp; [destruct i; discriminate | ].
  simpl. destruct i as [ | i]; simpl in Hi.
  - injection Hi as ->. rewrite Hp. reflexivity.
  - destruct (p b); simpl; [exact Hi | apply IH; assumption].
Qed.

Lemma shootStar_others (dragDistance dragTime : R) (w : World) :
  let w' := shootStar dragDistance dragTime w in
  gameState w' = gameState w
  /\ events w' = events w
  /\ physicsEngine w' = set_stars (stars (physicsEngine w')) (physicsEngine w)
  /\ List.length (stars (physicsEngine w')) = List.length (stars (physicsEngine w))
  /\ map Star.id (stars (physicsEngine w')) = map Star.id (stars (physicsEngine w))
  /\ map Star.x (stars (physicsEngine w')) = map Star.x (stars (physicsEngine w))
  /\ map Star.y (stars (physicsEngine w')) = map Star.y (stars (physicsEngine w))
  /\ map body (stars (physicsEngine w')) = map body (stars (physicsEngine w))
  /\ (forall i s,
        starAt i w = Some s ->
        selectedStar (gameState w) <> Some (Star.id s) ->
        starAt i w' = Some s).
Proof.
  cbv zeta. unfold shootStar, starAt.
  assert (Same : forall e : PhysicsEngine, e = set_stars (stars e) e)
    by (intros []; reflexivity).
  destruct (negb _ || negb _); [repeat split; auto | ].
  destruct (selectedStar (gameState w)) as [sel | ]; [ | repeat split; auto].
  destruct (JS.find _ _); [ | repeat split; auto].
  destruct (JS.eqb _ _); [repeat split; auto | ].
  cbn [physicsEngine set_engine stars set_stars gameState events].
  repeat split.
  - apply update_first_length.
  - apply update_first_map. reflexivity.
  - apply update_first_map. reflexivity.
  - apply update_first_map. reflexivity.
  - apply update_first_map. reflexivity.
  - intros i s Hi Hne. apply update_first_other; [exact Hi | ].
    unfold hasId. apply String.eqb_neq. congruence.
Qed.

(** X8.  A shot touches one star at most.  [shootStar] leaves the game
    state, the events, the holes, the meteorites and the switches of the
    engine alone; it keeps the number of stars and the identity, type, mass,
    restitution, radius and position of each, and a star whose identity is
    not the selected one is left exactly as it was. *)
Theorem shootStar_touches_one_star (dragDistance dragTime : R) (w : World) :
  let w' := shootStar dragDistance dragTime w in
  gameState w' = gameState w
  /\ events w' = events w
  /\ physicsEngine w' = set_stars (stars (physicsEngine w')) (physicsEngine w)
  /\ List.length (stars (physicsEngine w')) = List.length (stars (physicsEngine w))
  /\ map Star.id (stars (physicsEngine w')) = map Star.id (stars (physicsEngine w))
  /\ map Star.x (stars (physicsEngine w')) = map Star.x (stars (physicsEngine w))
  /\ map Star.y (stars (physicsEngine w')) = map Star.y (stars (physicsEngine w))
  /\ map body (stars (physicsEngine w')) = map body (stars (physicsEngine w))
  /\ (forall i s,
        starAt i w = Some s ->
        selectedStar (gameState w) <> Some (Star.id s) ->
        starAt i w' = Some s).
Proof. exact (shootStar_others dragDistance dragTime w). Qed.

Lemma shootStar_touches_one_star_witness :
  starAt 0 (shootStar 100 250 Sample.secondInFlight)
  = Some (Sample.star "star1" yellow 800 400 0 0 false false).
Proof.
  apply (shootStar_touches_one_star 100 250 Sample.secondInFlight).
  - reflexivity.
  - discriminate.
Defined.

Lemma launchVelocity_norm_any (gs : GameState) (dragDistance mass : R) :
  0 < mass -> 0 <= dragDistance ->
  dragDistanceOf gs <> 0 ->
  Vec.norm (launchVelocity gs dragDistance mass)
  = Rmin (dragDistance * POWER_FACTOR) MAX_VELOCITY / mass.
Proof.
  intros Hm Hdd Hd. unfold launchVelocity, Vec.norm, JS.min. cbn [Vec.x Vec.y].
  set (dx := Vec.x (startPos gs) - Vec.x (currentPos gs)).
  set (dy := Vec.y (startPos gs) - Vec.y (currentPos gs)).
  set (d := dragDistanceOf gs) in *.
  set (p := Rmin (dragDistance * POWER_FACTOR) MAX_VELOCITY).
  assert (Hd0 : 0 <= d) by apply sqrt_pos.
  assert (Hsq : d * d = dx * dx + dy * dy).
  { unfold d, dragDistanceOf. fold dx dy. apply sqrt_sqrt.
    pose proof (Rle_0_sqr dx). pose proof (Rle_0_sqr dy). unfold Rsqr in *. lra. }
  assert (Hp : 0 <= p).
  { unfold p. apply Rmin_glb; unfold POWER_FACTOR, MAX_VELOCITY; nra. }
  replace (dx / d * p * (1 / mass) * (dx / d * p * (1 / mass))
           + dy / d * p * (1 / mass) * (dy / d * p * (1 / mass)))
    with ((dx * dx + dy * dy) / (d * d) * (p / mass * (p / mass)))
    by (field; lra).
  rewrite <- Hsq.
  replace (d * d / (d * d)) with 1 by (field; lra).
  rewrite Rmult_1_l. apply sqrt_square.
  apply Rmult_le_pos; [exact Hp | ]. left. apply Rinv_0_lt_compat. exact Hm.
Qed.

(** X9.  The launch speed is capped.  Whatever non-negative drag distance
    [shootStar] is given, the speed of the star it launches is
    [min(dragDistance * 0.12, 25) / mass]: never more than [25 / mass],
    exactly that from a drag distance of [25 / 0.12] on, and zero for a drag
    distance of zero. *)
Theorem launch_speed_is_capped (dragDistance dragTime : R) (w : World)
  (sel : string) (star : Star.t) :
  selectedStar (gameState w) = Some sel ->
  sel <> EmptyString ->
  enabled (physicsEngine w) = true ->
  JS.find (hasId sel) (stars (physicsEngine w)) = Some star ->
  dragDistanceOf (gameState w) <> 0 ->
  0 < Star.mass star ->
  0 <= dragDistance ->
  exists star',
    JS.find (hasId sel) (stars (physicsEngine (shootStar dragDistance dragTime w)))
    = Some star'
    /\ speed star' = Rmin (dragDistance * POWER_FACTOR) MAX_VELOCITY / Star.mass star
    /\ speed star' <= MAX_VELOCITY / Star.mass star
    /\ (MAX_VELOCITY / POWER_FACTOR <= dragDistance ->
        speed star' = MAX_VELOCITY / Star.mass star)
    /\ (dragDistance = 0 -> speed star' = 0).
Proof.
  intros Hsel Hne En Hf Hd Hm Hdd.
  destruct (shootStar_fires dragDistance dragTime w sel star Hsel Hne En Hf Hd)
    as (star' & F & V & _).
  exists star'. split; [exact F | ].
  assert (Hs : speed star'
               = Rmin (dragDistance * POWER_FACTOR) MAX_VELOCITY / Star.mass star).
  { rewrite speed_is_norm, V. apply launchVelocity_norm_any; assumption. }
  assert (Hinv : 0 < / Star.mass star) by (apply Rinv_0_lt_compat; exact Hm).
  split; [exact Hs | ]. rewrite Hs. unfold Rdiv.
  split; [ | split].
  - apply Rmult_le_compat_r; [lra | apply Rmin_r].
  - intros Hbig. f_equal. apply Rmin_right.
    unfold MAX_VELOCITY, POWER_FACTOR in *. lra.
  - intros ->. rewrite Rmult_0_l, Rmin_left by (unfold MAX_VELOCITY; lra). ring.
Qed.

Lemma launch_speed_is_capped_witness :
  exists star',
    JS.find (hasId "star1")
      (stars (physicsEngine (shootStar 1000 250 Sample.dragOnResting)))
    = Some star'
    /\ speed star' = Rmin (1000 * POWER_FACTOR) MAX_VELOCITY / 1
    /\ speed star' <= MAX_VELOCITY / 1
    /\ (MAX_VELOCITY / POWER_FACTOR <= 1000 -> speed star' = MAX_VELOCITY / 1)
    /\ (1000 = 0 -> speed star' = 0).
Proof.
  apply (launch_speed_is_capped 1000 250 Sample.dragOnResting "star1"
           (Sample.star "star1" yellow 800 400 0 0 false false)).
  - reflexivity.
  - discriminate.
  - reflexivity.
  - reflexivity.
  - rewrite (sample_drag_distance (gameState Sample.dragOnResting))
      by reflexivity. lra.
  - simpl. lra.
  - lra.
Defined.

(* ================================================================== *)
(** ** The drag gesture *)

Lemma gesture_state (ev1 ev2 : MouseEvent) (t1 : R) (w : World)
  (starId : string) (star : Star.t) :
  gameActive (gameState w) = true ->
  gamePaused (gameState w) = false ->
  closestStar ev1 = Some starId ->
  JS.find (hasId starId) (stars (physicsEngine w)) = Some star ->
  Star.moving star = false -> Star.inHole star = false ->
  handleMouseMove ev2 (handleMouseDown ev1 t1 w)
  = set_gameState
      (mkGameState true false (Some starId)
         (Vec.mk (clientX ev1) (clientY ev1)) (Vec.mk (clientX ev2) (clientY ev2))
         true t1 (camera (gameState w)) (score (gameState w)))
      w.
Proof.
  intros Ha Hp Hc Hf Hm Hh.
  unfold handleMouseDown. rewrite Ha, Hp, Hc, Hf, Hm, Hh. simpl.
  unfold handleMouseMove. simpl. rewrite Ha. simpl.
  unfold set_gameState, set_currentPos, set_startPos, set_dragStartTime,
    set_dragging, set_selectedStar. simpl. rewrite Ha, Hp. reflexivity.
Qed.

(** X10.  The drag gesture.  With the game running, a press on a star that
    is at rest and not in a hole, a move and a release select that star and
    end the drag.  If the pointer moved by more than 10 the star is launched
    against the movement, with speed [min(d * 0.12, 25) / mass] for a
    movement of length [d], and one shot is reported; if it moved by 10 or
    less nothing is launched and nothing is reported. *)
Theorem drag_gesture (ev1 ev2 : MouseEvent) (t1 t3 : R) (w : World)
  (starId : string) (star : Star.t) :
  gameActive (gameState w) = true ->
  gamePaused (gameState w) = false ->
  enabled (physicsEngine w) = true ->
  closestStar ev1 = Some starId ->
  starId <> EmptyString ->
  JS.find (hasId starId) (stars (physicsEngine w)) = Some star ->
  Star.moving star = false -> Star.inHole star = false ->
  0 < Star.mass star ->
  let dx := clientX ev1 - clientX ev2 in
  let dy := clientY ev1 - clientY ev2 in
  let d := sqrt (dx * dx + dy * dy) in
  let w' := handleMouseUp t3 (handleMouseMove ev2 (handleMouseDown ev1 t1 w)) in
  selectedStar (gameState w') = Some starId
  /\ dragging (gameState w') = false
  /\ (10 < d ->
      events w' = events w ++ [StarShot]
      /\ exists star',
           JS.find (hasId starId) (stars (physicsEngine w')) = Some star'
           /\ Star.velocity star'
              = Vec.mk (dx / d * Rmin (d * POWER_FACTOR) MAX_VELOCITY
                        * (1 / Star.mass star))
                       (dy / d * Rmin (d * POWER_FACTOR) MAX_VELOCITY
                        * (1 / Star.mass star))
           /\ speed star' = Rmin (d * POWER_FACTOR) MAX_VELOCITY / Star.mass star
           /\ Star.moving star' = true)
  /\ (d <= 10 -> physicsEngine w' = physicsEngine w /\ events w' = events w).
Proof.
  intros Ha Hp En Hc Hne Hf Hm Hh Hmass. cbv zeta.
  rewrite (gesture_state ev1 ev2 t1 w starId star Ha Hp Hc Hf Hm Hh).
  set (gs := mkGameState true false (Some starId)
               (Vec.mk (clientX ev1) (clientY ev1))
               (Vec.mk (clientX ev2) (clientY ev2)) true t1
               (camera (gameState w)) (score (gameState w))).
  set (d := sqrt ((clientX ev1 - clientX ev2) * (clientX ev1 - clientX ev2)
                  + (clientY ev1 - clientY ev2) * (clientY ev1 - clientY ev2))).
  assert (Hd : dragDistanceOf gs = d) by reflexivity.
  unfold handleMouseUp.
  change (gameState (set_gameState gs w)) with gs.
  change (gameActive gs) with true. change (dragging gs) with true.
  cbn [negb orb]. rewrite Hd. change (dragStartTime gs) with t1.
  destruct (ltb_spec 10 d) as [Hlong | Hshort]; unfold JS.gtb.
  - rewrite ltb_true by exact Hlong.
    destruct (shootStar_fires d (t3 - t1) (set_gameState gs w) starId star)
      as (star' & F & V & M & _); try assumption; try reflexivity.
    { change (dragDistanceOf gs <> 0). rewrite Hd. lra. }
    pose proof (shootStar_others d (t3 - t1) (set_gameState gs w))
      as (G & Ev & _). cbv zeta in G, Ev.
    cbn [gameState set_gameState notify selectedStar dragging set_dragging
         events physicsEngine dragStartTime].
    rewrite G. cbn [gameState set_gameState selectedStar gs].
    split; [reflexivity | ]. split; [reflexivity | ]. split.
    + intros _. split; [rewrite Ev; reflexivity | ].
      exists star'. split; [exact F | ]. split.
      * rewrite V. change (gameState (set_gameState gs w)) with gs.
        unfold launchVelocity. rewrite Hd. reflexivity.
      * split; [ | exact M]. rewrite speed_is_norm, V.
        change (gameState (set_gameState gs w)) with gs. rewrite <- Hd.
        apply launchVelocity_norm; [exact Hmass | rewrite Hd; lra].
    + intros Hle. lra.
  - rewrite ltb_false by lra.
    cbn [gameState set_gameState selectedStar dragging set_dragging gs events
         physicsEngine].
    split; [reflexivity | ]. split; [reflexivity | ]. split.
    + intros Hgt. lra.
    + intros _. split; reflexivity.
Qed.

Lemma drag_gesture_witness :
  selectedStar
    (gameState
       (handleMouseUp 250
          (handleMouseMove {| closestStar := None; clientX := 0; clientY := 0 |}
             (handleMouseDown
                {| closestStar := Some "star1"%string; clientX := 100; clientY := 0 |}
                0 Sample.dragOnResting))))
  = Some "star1"%string.
Proof.
  apply (drag_gesture
           {| closestStar := Some "star1"%string; clientX := 100; clientY := 0 |}
           {| closestStar := None; clientX := 0; clientY := 0 |}
           0 250 Sample.dragOnResting "star1"
           (Sample.star "star1" yellow 800 400 0 0 false false));
    try reflexivity.
  - discriminate.
  - simpl. lra.
Defined.

(* ================================================================== *)
(** ** Cycling through the available stars *)

Lemma distinct_ids (l : list Star.t) (j k : nat) (b s : Star.t) :
  NoDup (map Star.id l) ->
  nth_error l j = Some b -> nth_error l k = Some s -> j <> k ->
  Star.id b <> Star.id s.
Proof.
  intros Hnd Hj Hk Hjk Heq. apply Hjk.
  apply (proj1 (NoDup_nth_error (map Star.id l)) Hnd).
  - rewrite length_map. apply nth_error_Some. congruence.
  - rewrite !nth_error_map, Hj, Hk. simpl. congruence.
Qed.

Lemma switch_step (w : World) (k : nat) (s : Star.t) :
  let available := filter isAvailable (stars (physicsEngine w)) in
  NoDup (map Star.id available) ->
  Star.id s <> EmptyString ->
  nth_error available k = Some s ->
  selectedStar (gameState w) = Some (Star.id s) ->
  exists s',
    nth_error available (S k mod List.length available) = Some s'
    /\ exec w OpSwitchActiveStar
       = set_gameState (set_selectedStar (Some (Star.id s')) (gameState w)) w.
Proof.
  intros available Hnd Hne Hk Hsel.
  assert (Hnil : available <> []) by (intros E; rewrite E in Hk; destruct k; discriminate).
  destruct (nextAvailable_lt (selectedStar (gameState w)) available Hnil) as (Hlt & Hrem).
  assert (Hnext : nextAvailable (selectedStar (gameState w)) available
                  = (S k mod List.length available)%nat).
  { rewrite Hsel. apply (nextAvailable_after (Star.id s) available k s Hne Hk eq_refl).
    intros j b Hj Hb. apply (distinct_ids available j k b s Hnd Hb Hk). lia. }
  rewrite Hnext in Hlt, Hrem.
  destruct (nth_error available (S k mod List.length available)) as [s' | ] eqn:En;
    [ | apply nth_error_None in En; lia].
  exists s'. split; [reflexivity | ].
  simpl. unfold switchActiveStar. fold available.
  destruct available as [ | a l]; [contradiction | ].
  replace (List.length (a :: l) =? 0)%nat with false by reflexivity.
  rewrite Hrem. unfold JS.index.
  destruct (Z.ltb_spec (Z.of_nat (S k mod List.length (a :: l))) 0); [lia | ].
  rewrite Nat2Z.id, En. reflexivity.
Qed.

Lemma switch_walk (j : nat) :
  forall (w : World) (k : nat) (s : Star.t),
    let available := filter isAvailable (stars (physicsEngine w)) in
    NoDup (map Star.id available) ->
    Forall (fun a => Star.id a <> EmptyString) available ->
    nth_error available k = Some s ->
    selectedStar (gameState w) = Some (Star.id s) ->
    physicsEngine (switchTimes j w) = physicsEngine w
    /\ selectedStar (gameState (switchTimes j w))
       = option_map Star.id (nth_error available ((k + j) mod List.length available)).
Proof.
  induction j as [ | j IH]; intros w k s available Hnd Hne Hk Hsel.
  - simpl. split; [reflexivity | ].
    assert (Hlt : (k < List.length available)%nat) by (apply nth_error_Some; congruence).
    rewrite Nat.add_0_r, Nat.mod_small by exact Hlt. rewrite Hk. exact Hsel.
  - assert (Hs : Star.id s <> EmptyString).
    { rewrite Forall_forall in Hne. apply Hne. eapply nth_error_In. exact Hk. }
    destruct (switch_step w k s Hnd Hs Hk Hsel) as (s' & Hk' & Hw).
    fold available in Hk'.
    cbn [switchTimes]. rewrite Hw.
    set (w1 := set_gameState (set_selectedStar (Some (Star.id s')) (gameState w)) w).
    destruct (IH w1 (S k mod List.length available)%nat s') as (E & S1);
      try assumption; try reflexivity.
    split; [exact E | ].
    rewrite S1. change (stars (physicsEngine w1)) with (stars (physicsEngine w)).
    fold available.
    assert (Hn : List.length available <> 0%nat).
    { intros E0. destruct available; [destruct k; discriminate | discriminate]. }
    f_equal. f_equal.
    rewrite Nat.Div0.add_mod_idemp_l. f_equal. lia.
Qed.

(** X11.  Switching walks a cycle.  When the available stars (not moving,
    not in a hole) have distinct non-empty identities and the selected star
    is the one at position [k] among them, [j] calls of [switchActiveStar]
    select the available star at position [(k + j) mod n], [n] being their
    number, and change nothing of the engine; so [n] calls come back to the
    star that was selected. *)
Theorem switching_walks_a_cycle (w : World) (k j : nat) (s : Star.t) :
  let available := filter isAvailable (stars (physicsEngine w)) in
  NoDup (map Star.id available) ->
  Forall (fun a => Star.id a <> EmptyString) available ->
  nth_error available k = Some s ->
  selectedStar (gameState w) = Some (Star.id s) ->
  physicsEngine (switchTimes j w) = physicsEngine w
  /\ selectedStar (gameState (switchTimes j w))
     = option_map Star.id (nth_error available ((k + j) mod List.length available))
  /\ selectedStar (gameState (switchTimes (List.length available) w))
     = selectedStar (gameState w).
Proof.
  intros available Hnd Hne Hk Hsel.
  destruct (switch_walk j w k s Hnd Hne Hk Hsel) as (E & S1).
  split; [exact E | ]. split; [exact S1 | ].
  destruct (switch_walk (List.length available) w k s Hnd Hne Hk Hsel) as (_ & S2).
  fold available in S2. rewrite S2.
  assert (Hlt : (k < List.length available)%nat) by (apply nth_error_Some; congruence).
  replace ((k + List.length available) mod List.length available)%nat with k.
  - rewrite Hk. symmetry. exact Hsel.
  - rewrite <- Nat.Div0.add_mod_idemp_r, Nat.Div0.mod_same, Nat.add_0_r.
    symmetry. apply Nat.mod_small. exact Hlt.
Qed.

Lemma switching_walks_a_cycle_witness :
  selectedStar
    (gameState
       (switchTimes 2
          (set_gameState
             (set_selectedStar (Some "star3"%string) (gameState Sample.secondInFlight))
             Sample.secondInFlight)))
  = Some "star3"%string.
Proof.
  apply (switching_walks_a_cycle
           (set_gameState
              (set_selectedStar (Some "star3"%string) (gameState Sample.secondInFlight))
              Sample.secondInFlight)
           1 0 (Sample.star "star3" red 750 450 0 0 false false)).
  - simpl. repeat constructor; simpl; intuition discriminate.
  - simpl. repeat constructor; discriminate.
  - reflexivity.
  - reflexivity.
Defined.

(* ================================================================== *)
(** ** The camera *)

(** X12.  The camera follows the stars in flight.  With no star in flight
    (moving and not in a hole) [updateCamera] changes nothing.  Otherwise it
    moves the camera, on each axis, one twentieth of the way to the mean
    position of the stars in flight, whatever the time multiplier: the
    distance to that point shrinks by the factor 0.95; the engine, the
    events and the rest of the game state are left alone. *)
Theorem camera_follows_stars_in_flight (w : World) :
  let flying := filter isFlying (stars (physicsEngine w)) in
  let c := centroid (stars (physicsEngine w)) in
  let cam := camera (gameState w) in
  let cam' := camera (gameState (updateCamera w)) in
  (flying = [] -> updateCamera w = w)
  /\ (flying <> [] ->
      Vec.x cam' - Vec.x c = 95 / 100 * (Vec.x cam - Vec.x c)
      /\ Vec.y cam' - Vec.y c = 95 / 100 * (Vec.y cam - Vec.y c)
      /\ Rabs (Vec.x cam' - Vec.x c) <= Rabs (Vec.x cam - Vec.x c)
      /\ Rabs (Vec.y cam' - Vec.y c) <= Rabs (Vec.y cam - Vec.y c))
  /\ physicsEngine (updateCamera w) = physicsEngine w
  /\ events (updateCamera w) = events w
  /\ set_camera Vec.zero (gameState (updateCamera w))
     = set_camera Vec.zero (gameState w).
Proof.
  cbv zeta. unfold updateCamera, centroid.
  destruct (filter isFlying (stars (physicsEngine w))) as [ | a l] eqn:Ef.
  - simpl. split; [reflexivity | ].
    split; [intros H; contradiction | repeat split].
  - replace (0 <? List.length (a :: l))%nat with true by reflexivity.
    cbn [gameState set_gameState camera set_camera Vec.x Vec.y physicsEngine events].
    split; [discriminate | ]. split; [ | repeat split].
    intros _.
    assert (Hs : forall u v : R, Rabs (95 / 100 * (u - v)) <= Rabs (u - v)).
    { intros u v. rewrite Rabs_mult, (Rabs_pos_eq (95 / 100)) by lra.
      pose proof (Rabs_pos (u - v)). lra. }
    split; [lra | ]. split; [lra | ].
    split.
    + match goal with
      | |- Rabs ?e <= Rabs (?u - ?v) =>
          replace e with (95 / 100 * (u - v)) by lra; apply Hs
      end.
    + match goal with
      | |- Rabs ?e <= Rabs (?u - ?v) =>
          replace e with (95 / 100 * (u - v)) by lra; apply Hs
      end.
Qed.

Lemma camera_follows_stars_in_flight_witness :
  Vec.x (camera (gameState (updateCamera Sample.flying)))
  - Vec.x (centroid (stars (physicsEngine Sample.flying)))
  = 95 / 100 * (Vec.x (camera (gameState Sample.flying))
                - Vec.x (centroid (stars (physicsEngine Sample.flying)))).
Proof.
  apply (camera_follows_stars_in_flight Sample.flying). discriminate.
Defined.

(* ================================================================== *)
(** ** What a level starts with *)

(** X13.  The stars of a fresh level.  [initialize] makes one star for each
    of star1, star2, star3 whose element the document has, in that order
    (the identities and types of the stars are those of the table, the
    entries without an element left out) and with no duplicate, whatever
    stars the engine held before; each is at
    rest (not moving, not in a hole, velocity (0, 0), rotation 0), has radius
    16, sits where the element's [left] and [top] parse to (0 where they do
    not), and has the mass and restitution of its type, the mass positive
    and the restitution strictly between 0 and 1. *)
Theorem stars_of_a_fresh_level (doc : Document) (now : R) (w : World) :
  let ss := stars (physicsEngine (initialize doc now w)) in
  Forall
    (fun s =>
       Star.moving s = false /\ Star.inHole s = false
       /\ Star.velocity s = Vec.mk 0 0 /\ Star.rotation s = 0
       /\ Star.radius s = 16
       /\ In (Star.id s, Star.type s) starElements
       /\ (exists element,
              getElementById doc (Star.id s) = Some element
              /\ Star.x s = JS.parseIntOr0 (star_left element)
              /\ Star.y s = JS.parseIntOr0 (star_top element))
       /\ Star.mass s = props_mass (STAR_PROPERTIES (Star.type s))
       /\ Star.restitution s = props_restitution (STAR_PROPERTIES (Star.type s))
       /\ 0 < Star.mass s
       /\ 0 < Star.restitution s < 1)
    ss
  /\ (List.length ss <= 3)%nat
  /\ NoDup (map Star.id ss)
  /\ (forall id, In id (map Star.id ss) <->
                 In id (map fst starElements) /\ getElementById doc id <> None)
  /\ map (fun s => (Star.id s, Star.type s)) ss
     = filter (fun starInfo =>
                 match getElementById doc (fst starInfo) with
                 | Some _ => true
                 | None => false
                 end)
              starElements.
Proof.
  cbv zeta. rewrite (proj1 (initialize_stars doc now w)).
  unfold initializeStars. cbn [physicsEngine set_engine stars set_stars].
  unfold starElements. cbn [flat_map fst snd map filter].
  assert (Hprops : forall t, 0 < props_mass (STAR_PROPERTIES t)
                             /\ 0 < props_restitution (STAR_PROPERTIES t) < 1)
    by (intros []; simpl; lra).
  destruct (getElementById doc "star1") as [e1 | ] eqn:E1;
    destruct (getElementById doc "star2") as [e2 | ] eqn:E2;
    destruct (getElementById doc "star3") as [e3 | ] eqn:E3;
    cbn [app List.length map];
    (split;
     [ repeat (constructor;
               [ cbn [Star.moving Star.inHole Star.velocity Star.rotation
                      Star.radius Star.id Star.type Star.x Star.y Star.mass
                      Star.restitution];
                 repeat split; try reflexivity;
                 try (unfold STAR_RADIUS; lra);
                 try (simpl; tauto);
                 try (eexists; split; [eassumption | split; reflexivity]);
                 try apply Hprops
               | ]);
       constructor
     | split; [lia | ] ]);
    (split;
     [ repeat (constructor; [simpl; intuition discriminate | ]); constructor
     | split;
       [ intros id; simpl; split;
         [ intros H; repeat destruct H as [H | H]; try contradiction; subst id;
           (split; [tauto | congruence])
         | intros (H & Hn); repeat destruct H as [H | H]; try contradiction;
           subst id; try tauto; try congruence ]
       | reflexivity ] ]).
Qed.

Lemma initializeMeteoritesFrom_range (index : nat) (l : list MeteoriteNode)
  (w : World) :
  randomInRange w ->
  Forall
    (fun m =>
       -1 <= Vec.x (Meteorite.velocity m) < 1
       /\ -1 <= Vec.y (Meteorite.velocity m) < 1
       /\ -2 <= Meteorite.rotationSpeed m < 2
       /\ Meteorite.radius m = 15
       /\ Meteorite.rotation m = 0)
    (fst (initializeMeteoritesFrom index l w)).
Proof.
  intros Hr. revert index w Hr. induction l as [ | a l IH]; intros index w Hr.
  - constructor.
  - cbn [initializeMeteoritesFrom random].
    pose proof (Hr (randomDraws w)) as R1.
    pose proof (Hr (S (randomDraws w))) as R2.
    pose proof (Hr (S (S (randomDraws w)))) as R3.
    match goal with
    | |- context [initializeMeteoritesFrom (S index) l ?w1] =>
        specialize (IH (S index) w1 Hr);
        destruct (initializeMeteoritesFrom (S index) l w1) as [others w2]
    end.
    cbn [fst snd Math_random randomDraws] in *. constructor; [ | exact IH].
    cbn [Meteorite.velocity Meteorite.rotationSpeed Meteorite.radius
         Meteorite.rotation Vec.x Vec.y].
    unfold METEORITE_RADIUS. repeat split; lra.
Qed.

(** X14.  The meteorites of a fresh level.  With [Math.random()] in
    [[0, 1)], [initialize] makes one meteorite per element, each with radius
    15, rotation 0, both velocity components in [[-1, 1)] and a rotation
    speed in [[-2, 2)]; it consumes three random values per meteorite and
    one more for the active hole. *)
Theorem meteorites_of_a_fresh_level (doc : Document) (now : R) (w : World) :
  randomInRange w ->
  let ms := meteorites (physicsEngine (initialize doc now w)) in
  Forall
    (fun m =>
       -1 <= Vec.x (Meteorite.velocity m) < 1
       /\ -1 <= Vec.y (Meteorite.velocity m) < 1
       /\ -2 <= Meteorite.rotationSpeed m < 2
       /\ Meteorite.radius m = 15
       /\ Meteorite.rotation m = 0)
    ms
  /\ List.length ms = List.length (meteoriteNodes doc)
  /\ randomDraws (initialize doc now w)
     = (randomDraws w + 3 * List.length (meteoriteNodes doc) + 1)%nat.
Proof.
  intros Hr. cbv zeta.
  assert (Hm : meteorites (physicsEngine (initialize doc now w))
               = fst (initializeMeteoritesFrom 0 (meteoriteNodes doc)
                        (initializeHoles doc (initializeStars doc w)))).
  { unfold initialize. cbn [physicsEngine set_engine set_lastUpdateTime meteorites].
    rewrite (proj1 (proj2 (setActiveHole_frame _))).
    unfold initializeMeteorites.
    destruct (initializeMeteoritesFrom _ _ _) as [ms w1]. reflexivity. }
  rewrite Hm. split; [ | split].
  - apply initializeMeteoritesFrom_range. exact Hr.
  - apply (initializeMeteoritesFrom_frame 0 (meteoriteNodes doc)
             (initializeHoles doc (initializeStars doc w))).
  - destruct (initialize_holes doc now w) as (w2 & _ & _ & D2 & _ & _ & _ & D).
    rewrite D, D2. lia.
Qed.

Lemma meteorites_of_a_fresh_level_witness :
  List.length
    (meteorites (physicsEngine (initialize Sample.smallDocument 0 Sample.fresh)))
  = List.length (meteoriteNodes Sample.smallDocument).
Proof.
  apply (meteorites_of_a_fresh_level Sample.smallDocument 0 Sample.fresh).
  intros n. simpl. lra.
Defined.

(* ================================================================== *)
(** ** Resetting the stars *)

Lemma resetStar_twice (base : Vec.t) (s : Star.t) :
  resetStar base (resetStar base s) = resetStar base s.
Proof. reflexivity. Qed.

Lemma resetStarsFrom_normal (l : list Star.t) :
  forall index,
    (index + List.length l <= 3)%nat ->
    exists l',
      resetStarsFrom index l = Normal l'
      /\ List.length l' = List.length l
      /\ (forall i s, nth_error l i = Some s ->
            exists base,
              nth_error basePositions (index + i) = Some base
              /\ nth_error l' i = Some (resetStar base s))
      /\ resetStarsFrom index l' = Normal l'.
Proof.
  induction l as [ | a l IH]; intros index Hlen.
  - exists []. repeat split. intros i s H. destruct i; discriminate.
  - simpl in Hlen.
    destruct (nth_error basePositions index) as [base | ] eqn:Eb;
      [ | apply nth_error_None in Eb; simpl in Eb; lia].
    destruct (IH (S index)) as (l' & Hr & Hl & Hp & Hi); [lia | ].
    exists (resetStar base a :: l').
    cbn [resetStarsFrom]. rewrite Eb, Hr, Hi.
    split; [reflexivity | ]. split; [simpl; congruence | ]. split; [ | reflexivity].
    intros i s Hs. destruct i as [ | i]; simpl in Hs.
    + injection Hs as <-. exists base. rewrite Nat.add_0_r. split; [exact Eb | reflexivity].
    + destruct (Hp i s Hs) as (b & Hb & Hn). exists b.
      replace (index + S i)%nat with (S index + i)%nat by lia.
      split; [exact Hb | exact Hn].
Qed.

Lemma resetStarsFrom_thrown (l : list Star.t) :
  forall index,
    (index <= 3)%nat ->
    (3 < index + List.length l)%nat ->
    exists l',
      resetStarsFrom index l = Thrown l'
      /\ List.length l' = List.length l
      /\ (forall i s, (index + i < 3)%nat -> nth_error l i = Some s ->
            exists base,
              nth_error basePositions (index + i) = Some base
              /\ nth_error l' i = Some (resetStar base s))
      /\ (forall i, (3 <= index + i)%nat -> nth_error l' i = nth_error l i).
Proof.
  induction l as [ | a l IH]; intros index Hle Hlen.
  - simpl in Hlen. lia.
  - simpl in Hlen. cbn [resetStarsFrom].
    destruct (nth_error basePositions index) as [base | ] eqn:Eb.
    + assert (Hi : (index < 3)%nat)
        by (apply (nth_error_Some basePositions index); congruence).
      destruct (IH (S index)) as (l' & Hr & Hl & Hp & Hq); [lia | lia | ].
      exists (resetStar base a :: l'). rewrite Hr.
      split; [reflexivity | ]. split; [simpl; congruence | ]. split.
      * intros i s Hlt Hs. destruct i as [ | i]; simpl in Hs.
        -- injection Hs as <-. exists base. rewrite Nat.add_0_r.
           split; [exact Eb | reflexivity].
        -- destruct (Hp i s) as (b & Hb & Hn); [lia | exact Hs | ].
           exists b. replace (index + S i)%nat with (S index + i)%nat by lia.
           split; [exact Hb | exact Hn].
      * intros i Hge. destruct i as [ | i]; [lia | ]. simpl. apply Hq. lia.
    + exists (a :: l). split; [reflexivity | ]. split; [reflexivity | ].
      apply nth_error_None in Eb. simpl in Eb. split.
      * intros i s Hlt. lia.
      * intros i _. reflexivity.
Qed.

(** X15.  Resetting up to three stars.  On an engine with at most three
    stars, as [initializeStars] makes it, [resetStars] returns: the star at
    position 0, 1, 2 is put at (800, 400), (850, 450), (750, 450), by
    position and not by identity, with velocity (0, 0), rotation 0, not
    moving and not in a hole, which is inside the board for a star of radius
    350 or less; "star1" becomes the selected star, whether or
    not such a star exists; holes and meteorites are untouched; and a second
    reset changes nothing more. *)
Theorem resetStars_puts_stars_back (w : World) :
  (List.length (stars (physicsEngine w)) <= 3)%nat ->
  exists w',
    resetStars w = Normal w'
    /\ resetStars w' = Normal w'
    /\ selectedStar (gameState w') = Some "star1"%string
    /\ holes (physicsEngine w') = holes (physicsEngine w)
    /\ meteorites (physicsEngine w') = meteorites (physicsEngine w)
    /\ List.length (stars (physicsEngine w')) = List.length (stars (physicsEngine w))
    /\ (forall i s, starAt i w = Some s ->
          exists base s',
            nth_error basePositions i = Some base
            /\ starAt i w' = Some s'
            /\ Star.x s' = Vec.x base /\ Star.y s' = Vec.y base
            /\ Star.velocity s' = Vec.mk 0 0 /\ Star.rotation s' = 0
            /\ Star.moving s' = false /\ Star.inHole s' = false
            /\ Star.id s' = Star.id s /\ Star.mass s' = Star.mass s
            /\ Star.radius s' = Star.radius s
            /\ (Star.radius s <= 350 -> inBoard s')).
Proof.
  intros Hlen.
  destruct (resetStarsFrom_normal (stars (physicsEngine w)) 0 Hlen)
    as (l' & Hr & Hl & Hp & Hi).
  unfold resetStars. rewrite Hr. eexists. split; [reflexivity | ].
  cbn [physicsEngine set_engine set_gameState stars set_stars gameState
       selectedStar set_selectedStar holes meteorites].
  rewrite Hi. split.
  - unfold set_gameState, set_engine, set_stars, set_selectedStar. simpl. reflexivity.
  - split; [reflexivity | ]. split; [reflexivity | ]. split; [reflexivity | ].
    split; [exact Hl | ].
    intros i s Hs. destruct (Hp i s Hs) as (base & Hb & Hn).
    cbn [Nat.add] in Hb.
    exists base, (resetStar base s). split; [exact Hb | ].
    split; [exact Hn | ]. do 9 (split; [reflexivity | ]).
    intros Hrad.
    assert (Hi3 : (i < 3)%nat)
      by (apply (nth_error_Some basePositions i); congruence).
    unfold inBoard.
    destruct i as [ | [ | [ | i] ] ]; try lia; simpl in Hb; injection Hb as <-;
      simpl; repeat split; lra.
Qed.

Lemma resetStars_puts_stars_back_witness :
  exists w',
    resetStars Sample.secondInFlight = Normal w'
    /\ resetStars w' = Normal w'
    /\ selectedStar (gameState w') = Some "star1"%string.
Proof.
  destruct (resetStars_puts_stars_back Sample.secondInFlight) as (w' & A & B & C & _).
  - simpl. lia.
  - exists w'. auto.
Defined.

(** X16.  Resetting more than three stars.  On an engine with more than
    three stars [resetStars] throws while reading the base position of the
    fourth: the first three stars have been reset, the others are as they
    were, and the selected star has not been changed. *)
Theorem resetStars_throws_past_three (w : World) :
  (3 < List.length (stars (physicsEngine w)))%nat ->
  exists w',
    resetStars w = Thrown w'
    /\ gameState w' = gameState w
    /\ List.length (stars (physicsEngine w')) = List.length (stars (physicsEngine w))
    /\ (forall i s, (i < 3)%nat -> starAt i w = Some s ->
          exists base,
            nth_error basePositions i = Some base
            /\ starAt i w' = Some (resetStar base s))
    /\ (forall i, (3 <= i)%nat -> starAt i w' = starAt i w).
Proof.
  intros Hlen.
  destruct (resetStarsFrom_thrown (stars (physicsEngine w)) 0 (Nat.le_0_l 3) Hlen)
    as (l' & Hr & Hl & Hp & Hq).
  unfold resetStars. rewrite Hr. eexists. split; [reflexivity | ].
  unfold starAt. cbn [physicsEngine set_engine stars set_stars gameState].
  split; [reflexivity | ]. split; [exact Hl | ]. split.
  - intros i s Hi Hs. apply (Hp i s); [exact Hi | exact Hs].
  - intros i Hi. apply Hq. exact Hi.
Qed.

Lemma resetStars_throws_past_three_witness :
  exists w',
    resetStars
      (set_engine
         (set_stars
            (Sample.star "star4" yellow 10 10 1 1 true false
             :: stars (physicsEngine Sample.secondInFlight))
            (physicsEngine Sample.secondInFlight))
         Sample.secondInFlight)
    = Thrown w'.
Proof.
  destruct (resetStars_throws_past_three
              (set_engine
                 (set_stars
                    (Sample.star "star4" yellow 10 10 1 1 true false
                     :: stars (physicsEngine Sample.secondInFlight))
                    (physicsEngine Sample.secondInFlight))
                 Sample.secondInFlight)) as (w' & A & _).
  - simpl. lia.
  - exists w'. exact A.
Defined.

(* ================================================================== *)
(** ** A cleaned-up engine, a quiet step *)

(** X17.  After [cleanup] nothing happens any more.  The engine is disabled
    and holds no star, hole or meteorite, the game state is untouched, and
    from then on [update], [shootStar], [switchActiveStar], a press of the
    pointer and a second [cleanup] all leave the world as it is; no star is
    moving. *)
Theorem after_cleanup_nothing_happens (w : World) :
  let c := cleanup w in
  enabled (physicsEngine c) = false
  /\ stars (physicsEngine c) = [] /\ holes (physicsEngine c) = []
  /\ meteorites (physicsEngine c) = []
  /\ gameState c = gameState w /\ events c = events w
  /\ (forall now, update now c = c)
  /\ (forall dragDistance dragTime, shootStar dragDistance dragTime c = c)
  /\ switchActiveStar c = Some (c, None)
  /\ (forall event now, handleMouseDown event now c = c)
  /\ isAnyStarMoving c = false
  /\ cleanup c = c.
Proof.
  cbv zeta. repeat split.
  - intros dragDistance dragTime. unfold shootStar.
    cbn [cleanup physicsEngine set_engine enabled set_meteorites set_holes
         set_stars set_enabled negb]. rewrite orb_true_r. reflexivity.
  - intros event now. unfold handleMouseDown.
    destruct (negb _ || _); [reflexivity | ].
    destruct (closestStar event); reflexivity.
Qed.

Lemma forEachStar_all_skipped (dt : R) (l : list Star.t) (w : World) :
  existsb Star.moving l = false ->
  forEachStar (updateStar dt) l w = (l, w).
Proof.
  revert w. induction l as [ | s l IH]; intros w H; simpl; [reflexivity | ].
  simpl in H. apply orb_false_iff in H. destruct H as (Hs & Hl).
  rewrite updateStar_skipped by (left; exact Hs). rewrite IH by exact Hl. reflexivity.
Qed.

Lemma filter_isFlying_none (l : list Star.t) :
  existsb Star.moving l = false -> filter isFlying l = [].
Proof.
  induction l as [ | s l IH]; intros H; simpl; [reflexivity | ].
  simpl in H. apply orb_false_iff in H. destruct H as (Hs & Hl).
  unfold isFlying at 1. rewrite Hs. simpl. apply IH. exact Hl.
Qed.

(** X18.  A quiet step.  When no star is moving, an enabled [update]
    changes only the engine's clock and the meteorites: every star, the
    holes, the game state with its camera and score, and the events are as
    they were; each meteorite has made its own step. *)
Theorem quiet_step_moves_meteorites_only (now : R) (w : World) :
  isAnyStarMoving w = false ->
  enabled (physicsEngine w) = true ->
  update now w
  = set_engine
      (set_meteorites
         (map (updateMeteorite (deltaTimeOf (physicsEngine w) now))
              (meteorites (physicsEngine w)))
         (set_lastUpdateTime now (physicsEngine w)))
      w.
Proof.
  intros Hq En. unfold isAnyStarMoving in Hq.
  unfold update. rewrite En. cbn [negb]. cbv zeta.
  rewrite updateStars_unfold.
  cbn [physicsEngine set_engine stars set_lastUpdateTime].
  rewrite forEachStar_all_skipped by exact Hq. cbn [fst snd].
  unfold updateMeteorites, updateCamera.
  cbn [physicsEngine set_engine stars set_stars set_meteorites meteorites
       set_lastUpdateTime].
  rewrite filter_isFlying_none by exact Hq. simpl. reflexivity.
Qed.

Lemma quiet_step_moves_meteorites_only_witness :
  update Sample.frame Sample.dragOnResting
  = set_engine
      (set_meteorites
         (map (updateMeteorite
                 (deltaTimeOf (physicsEngine Sample.dragOnResting) Sample.frame))
              (meteorites (physicsEngine Sample.dragOnResting)))
         (set_lastUpdateTime Sample.frame (physicsEngine Sample.dragOnResting)))
      Sample.dragOnResting.
Proof.
  apply (quiet_step_moves_meteorites_only Sample.frame Sample.dragOnResting);
    reflexivity.
Defined.

(* ================================================================== *)
(** ** What a step never changes *)

Lemma checkBoundaryCollisions_body (s : Star.t) (w : World) :
  body (fst (checkBoundaryCollisions s w)) = body s.
Proof.
  unfold checkBoundaryCollisions.
  destruct (JS.ltb (Star.x s) (Star.radius s));
    [ | destruct (JS.gtb (Star.x s) (1600 - Star.radius s)) ];
    cbv zeta beta iota;
    match goal with
    | |- context [if JS.ltb ?a ?b then _ else _] => destruct (JS.ltb a b)
    end;
    try match goal with
    | |- context [if JS.gtb ?a ?b then _ else _] => destruct (JS.gtb a b)
    end;
    reflexivity.
Qed.

Lemma checkHole_body (acc : Star.t * World) (hole : Hole.t) :
  body (fst (checkHole acc hole)) = body (fst acc).
Proof.
  destruct acc as [s w]. unfold checkHole.
  destruct (JS.ltb _ _); [destruct (Hole.isActive hole) | ]; reflexivity.
Qed.

Lemma checkMeteorite_body (acc : Star.t * World) (m : Meteorite.t) :
  body (fst (checkMeteorite acc m)) = body (fst acc).
Proof.
  destruct acc as [s w]. unfold checkMeteorite. destruct (JS.ltb _ _); reflexivity.
Qed.

Lemma fold_body {A : Type} (f : Star.t * World -> A -> Star.t * World)
  (Hf : forall acc a, body (fst (f acc a)) = body (fst acc))
  (l : list A) (acc : Star.t * World) :
  body (fst (fold_left f l acc)) = body (fst acc).
Proof.
  revert acc. induction l as [ | a l IH]; intros acc; simpl; [reflexivity | ].
  rewrite IH. apply Hf.
Qed.

Lemma updateStar_body (dt : R) (s : Star.t) (w : World) :
  body (fst (updateStar dt s w)) = body s.
Proof.
  unfold updateStar. destruct (negb _ || _); [reflexivity | ].
  pose proof (checkBoundaryCollisions_body (integrate dt s) w) as B1.
  destruct (checkBoundaryCollisions (integrate dt s) w) as [s1 w1].
  pose proof (fold_body checkHole checkHole_body (holes (physicsEngine w1)) (s1, w1)) as B2.
  fold (checkHoleCollisions s1 w1) in B2.
  destruct (checkHoleCollisions s1 w1) as [s2 w2].
  pose proof (fold_body checkMeteorite checkMeteorite_body
                (meteorites (physicsEngine w2)) (s2, w2)) as B3.
  fold (checkMeteoriteCollisions s2 w2) in B3.
  destruct (checkMeteoriteCollisions s2 w2) as [s3 w3].
  cbn [fst] in *.
  assert (B4 : body (stopIfSlow s3) = body s3)
    by (unfold stopIfSlow; destruct (JS.ltb _ _); reflexivity).
  rewrite B4, B3, B2, B1. reflexivity.
Qed.

Lemma forEachStar_map {B : Type} (g : Star.t -> B)
  (f : Star.t -> World -> Star.t * World)
  (Hf : forall s w, g (fst (f s w)) = g s)
  (l : list Star.t) (w : World) :
  map g (fst (forEachStar f l w)) = map g l.
Proof.
  revert w. induction l as [ | s l IH]; intros w; simpl; [reflexivity | ].
  pose proof (Hf s w) as H1. destruct (f s w) as [s' w1].
  specialize (IH w1). destruct (forEachStar f l w1) as [l' w2].
  simpl in *. congruence.
Qed.

(** X19.  What a step never changes.  [update] keeps the number and order of
    the stars and, of each star, the identity, type, mass, restitution and
    radius, whatever it collides with; and it keeps the holes, the engine's
    switches and the random source. *)
Theorem update_keeps_the_bodies (now : R) (w : World) :
  map body (stars (physicsEngine (update now w)))
  = map body (stars (physicsEngine w))
  /\ List.length (stars (physicsEngine (update now w)))
     = List.length (stars (physicsEngine w))
  /\ holes (physicsEngine (update now w)) = holes (physicsEngine w)
  /\ enabled (physicsEngine (update now w)) = enabled (physicsEngine w)
  /\ randomDraws (update now w) = randomDraws w.
Proof.
  assert (Hb : map body (stars (physicsEngine (update now w)))
               = map body (stars (physicsEngine w))).
  { destruct (enabled (physicsEngine w)) eqn:En.
    - rewrite update_stars by exact En.
      apply forEachStar_map. intros s w0. apply updateStar_body.
    - unfold update. rewrite En. reflexivity. }
  split; [exact Hb | ]. split.
  - rewrite <- (length_map body), Hb, length_map. reflexivity.
  - destruct (update_frame now w) as (H & _ & E & _ & _ & D). auto.
Qed.

(* ================================================================== *)
(** ** The update pass with the game's own callbacks *)

Lemma updateScoreX_throws (points : Z) (w : World) :
  Strict.updateScoreX points w = Thrown (updateScore points w).
Proof. reflexivity. Qed.

Lemma bouncesOnly_refl (w : World) : bouncesOnly w w.
Proof.
  repeat split. exists []. split; [symmetry; apply app_nil_r | constructor].
Qed.

Lemma bouncesOnly_trans (w1 w2 w3 : World) :
  bouncesOnly w1 w2 -> bouncesOnly w2 w3 -> bouncesOnly w1 w3.
Proof.
  intros (E1 & G1 & M1 & D1 & l1 & V1 & F1) (E2 & G2 & M2 & D2 & l2 & V2 & F2).
  repeat split; try congruence.
  exists (l1 ++ l2). split.
  - rewrite V2, V1, app_assoc. reflexivity.
  - apply Forall_app. split; assumption.
Qed.

Lemma bounces_then_scored (w1 w2 w3 : World) :
  bouncesOnly w1 w2 -> scoredOnce w2 w3 -> scoredOnce w1 w3.
Proof.
  intros (E1 & G1 & M1 & D1 & l1 & V1 & F1) (E2 & G2 & S2 & M2 & D2 & l2 & V2 & F2).
  unfold scoredOnce. rewrite G1 in G2, S2.
  split; [congruence | ]. split; [exact G2 | ]. split; [exact S2 | ].
  split; [congruence | ]. split; [congruence | ].
  exists (l1 ++ l2). split.
  - rewrite V2, V1, app_assoc. reflexivity.
  - apply Forall_app. split; assumption.
Qed.

Lemma checkBoundaryCollisions_bounces (s : Star.t) (w : World) :
  bouncesOnly w (snd (checkBoundaryCollisions s w)).
Proof.
  assert (B : forall id v, bouncesOnly v (onStarBounce id v)).
  { intros id v. repeat split. exists [StarBounce id]. split; [reflexivity | ].
    constructor; [exists id; reflexivity | constructor]. }
  unfold checkBoundaryCollisions.
  destruct (JS.ltb (Star.x s) (Star.radius s));
    [ | destruct (JS.gtb (Star.x s) (1600 - Star.radius s)) ];
    cbv zeta beta iota;
    match goal with
    | |- context [if JS.ltb ?a ?b then _ else _] => destruct (JS.ltb a b)
    end;
    try match goal with
    | |- context [if JS.gtb ?a ?b then _ else _] => destruct (JS.gtb a b)
    end;
    cbn [fst snd];
    repeat first [ apply bouncesOnly_refl
                 | apply B
                 | eapply bouncesOnly_trans; [apply B | ] ].
Qed.

Lemma scored_by (points : Z) (w : World) :
  points = 100%Z \/ points = (-50)%Z -> scoredOnce w (updateScore points w).
Proof.
  intros H. repeat split.
  - simpl. destruct H as [-> | ->]; [left | right]; lia.
  - exists []. split; [symmetry; apply app_nil_r | constructor].
Qed.

Lemma checkHoleX_spec (s : Star.t) (w : World) (hole : Hole.t) :
  match Strict.checkHoleX (s, w) hole with
  | Normal r => r = checkHole (s, w) hole /\ snd r = w
  | Thrown (s', w') => scoredOnce w w' /\ settledOrPushed s' /\ body s' = body s
  end.
Proof.
  unfold Strict.checkHoleX, checkHole.
  destruct (JS.ltb _ _); [destruct (Hole.isActive hole) | ].
  - unfold Strict.onStarInHoleX. rewrite updateScoreX_throws.
    split; [apply scored_by; left; reflexivity | ].
    split; [ | reflexivity]. left. repeat split.
  - split; reflexivity.
  - split; reflexivity.
Qed.

Lemma checkMeteoriteX_spec (s : Star.t) (w : World) (m : Meteorite.t) :
  match Strict.checkMeteoriteX (s, w) m with
  | Normal r => r = checkMeteorite (s, w) m /\ snd r = w
  | Thrown (s', w') => scoredOnce w w' /\ settledOrPushed s' /\ body s' = body s
  end.
Proof.
  unfold Strict.checkMeteoriteX, checkMeteorite.
  destruct (JS.ltb _ _).
  - unfold Strict.onStarHitMeteoriteX. rewrite updateScoreX_throws.
    split; [apply scored_by; right; reflexivity | ].
    split; [ | reflexivity].
    right. unfold speed. star_fields. apply unit_vector_norm. lra.
  - split; reflexivity.
Qed.

Lemma forEachX_spec {A : Type}
  (fX : Star.t * World -> A -> Completion (Star.t * World))
  (f : Star.t * World -> A -> Star.t * World)
  (H : forall s w a,
      match fX (s, w) a with
      | Normal r => r = f (s, w) a /\ snd r = w
      | Thrown (s', w') => scoredOnce w w' /\ settledOrPushed s' /\ body s' = body s
      end)
  (Hb : forall acc a, body (fst (f acc a)) = body (fst acc))
  (l : list A) (s : Star.t) (w : World) :
  match Strict.forEachX fX l (s, w) with
  | Normal r => r = fold_left f l (s, w) /\ snd r = w
  | Thrown (s', w') => scoredOnce w w' /\ settledOrPushed s' /\ body s' = body s
  end.
Proof.
  revert s. induction l as [ | a l IH]; intros s; simpl.
  - split; reflexivity.
  - pose proof (H s w a) as Ha. pose proof (Hb (s, w) a) as Hba.
    destruct (fX (s, w) a) as [[s1 w1] | [s1 w1]].
    + destruct Ha as (E & Ew). simpl in Ew. subst w1. rewrite <- E in *.
      cbn [fst] in Hba. specialize (IH s1).
      destruct (Strict.forEachX fX l (s1, w)) as [r | [s2 w2]]; [exact IH | ].
      destruct IH as (S & P & B).
      split; [exact S | split; [exact P | congruence] ].
    + exact Ha.
Qed.

Lemma updateStarX_spec (dt : R) (s : Star.t) (w : World) :
  match Strict.updateStarX dt s w with
  | Normal r => r = updateStar dt s w /\ bouncesOnly w (snd r)
  | Thrown (s', w') => scoredOnce w w' /\ settledOrPushed s' /\ body s' = body s
  end.
Proof.
  unfold Strict.updateStarX, updateStar.
  destruct (negb _ || _); [split; [reflexivity | apply bouncesOnly_refl] | ].
  pose proof (checkBoundaryCollisions_bounces (integrate dt s) w) as B.
  pose proof (checkBoundaryCollisions_body (integrate dt s) w) as Bd.
  destruct (checkBoundaryCollisions (integrate dt s) w) as [s1 w1].
  cbn [fst snd] in B, Bd.
  assert (Bd1 : body s1 = body s) by (rewrite Bd; reflexivity).
  unfold Strict.checkHoleCollisionsX, checkHoleCollisions.
  pose proof (forEachX_spec Strict.checkHoleX checkHole checkHoleX_spec
                checkHole_body (holes (physicsEngine w1)) s1 w1) as H2.
  pose proof (fold_body checkHole checkHole_body (holes (physicsEngine w1)) (s1, w1))
    as Bd2.
  destruct (Strict.forEachX Strict.checkHoleX (holes (physicsEngine w1)) (s1, w1))
    as [[s2 w2] | [s2 w2]].
  - destruct H2 as (E2 & Ew2). cbn [snd] in Ew2. subst w2. rewrite <- E2 in *.
    cbn [fst] in Bd2.
    unfold Strict.checkMeteoriteCollisionsX, checkMeteoriteCollisions.
    pose proof (forEachX_spec Strict.checkMeteoriteX checkMeteorite
                  checkMeteoriteX_spec checkMeteorite_body
                  (meteorites (physicsEngine w1)) s2 w1) as H3.
    destruct (Strict.forEachX Strict.checkMeteoriteX
                (meteorites (physicsEngine w1)) (s2, w1)) as [[s3 w3] | [s3 w3]].
    + destruct H3 as (E3 & Ew3). cbn [snd] in Ew3. subst w3. rewrite <- E3.
      split; [reflexivity | exact B].
    + destruct H3 as (S3 & P3 & B3). split; [ | split; [exact P3 | congruence] ].
      eapply bounces_then_scored; eassumption.
  - destruct H2 as (S2 & P2 & B2). split; [ | split; [exact P2 | congruence] ].
    eapply bounces_then_scored; eassumption.
Qed.

Lemma forEachStarX_spec (dt : R) (l : list Star.t) (w : World) :
  match Strict.forEachStarX (Strict.updateStarX dt) l w with
  | Normal r => r = forEachStar (updateStar dt) l w /\ bouncesOnly w (snd r)
  | Thrown (l', w') =>
      scoredOnce w w'
      /\ map body l' = map body l
      /\ exists i s', nth_error l' i = Some s' /\ settledOrPushed s'
  end.
Proof.
  revert w. induction l as [ | s l IH]; intros w; simpl.
  - split; [reflexivity | apply bouncesOnly_refl].
  - pose proof (updateStarX_spec dt s w) as H1.
    pose proof (updateStar_body dt s w) as B1.
    destruct (Strict.updateStarX dt s w) as [[s1 w1] | [s1 w1]].
    + destruct H1 as (E1 & Bo1). rewrite <- E1 in *. cbn [fst snd] in *.
      specialize (IH w1).
      destruct (Strict.forEachStarX (Strict.updateStarX dt) l w1)
        as [[l2 w2] | [l2 w2]].
      * destruct IH as (E2 & Bo2). rewrite <- E2. cbn [snd] in *.
        split; [reflexivity | eapply bouncesOnly_trans; eassumption].
      * destruct IH as (S2 & Bd & i & s' & Hi & P).
        split; [eapply bounces_then_scored; eassumption | ].
        split; [simpl; congruence | ].
        exists (S i), s'. split; assumption.
    + destruct H1 as (S1 & P1 & Bd1). split; [exact S1 | ]. split.
      * simpl. congruence.
      * exists 0%nat, s1. split; [reflexivity | exact P1].
Qed.

Lemma updateX_spec (now : R) (w : World) :
  match Strict.updateX now w with
  | Normal w' =>
      w' = update now w
      /\ score (gameState w') = score (gameState w)
      /\ exists l, events w' = events w ++ l /\ Forall isBounce l
  | Thrown w' =>
      enabled (physicsEngine w) = true
      /\ physicsEngine w'
         = set_stars (stars (physicsEngine w'))
             (set_lastUpdateTime now (physicsEngine w))
      /\ set_score 0 (gameState w') = set_score 0 (gameState w)
      /\ (score (gameState w') = (score (gameState w) + 100)%Z
          \/ score (gameState w') = (score (gameState w) - 50)%Z)
      /\ (exists l, events w' = events w ++ l /\ Forall isBounce l)
      /\ map body (stars (physicsEngine w')) = map body (stars (physicsEngine w))
      /\ exists i s', starAt i w' = Some s' /\ settledOrPushed s'
  end.
Proof.
  unfold Strict.updateX, update.
  destruct (enabled (physicsEngine w)) eqn:En; cbn [negb]; cbv zeta.
  2:{ split; [reflexivity | ]. split; [reflexivity | ].
      exists []. split; [symmetry; apply app_nil_r | constructor]. }
  set (dt := deltaTimeOf (physicsEngine w) now).
  set (w0 := set_engine (set_lastUpdateTime now (physicsEngine w)) w).
  unfold Strict.updateStarsX. rewrite (updateStars_unfold dt w0).
  pose proof (forEachStarX_spec dt (stars (physicsEngine w0)) w0) as H.
  destruct (Strict.forEachStarX (Strict.updateStarX dt) (stars (physicsEngine w0)) w0)
    as [[l w1] | [l w1]].
  - destruct H as (E & (E1 & G1 & _ & _ & l1 & V1 & F1)). rewrite <- E.
    cbn [fst snd] in *. split; [reflexivity | ].
    destruct (updateCamera_frame
                (updateMeteorites dt (set_engine (set_stars l (physicsEngine w1)) w1)))
      as (_ & _ & _ & Ev).
    split.
    + unfold updateCamera. destruct (0 <? _)%nat; simpl; rewrite G1; reflexivity.
    + exists l1. rewrite Ev. simpl. split; [exact V1 | exact F1].
  - destruct H as ((E1 & G1 & S1 & _ & _ & Ev1) & Bd & i & s' & Hi & P).
    cbn [physicsEngine set_engine stars set_stars gameState events] in *.
    split; [reflexivity | ]. split; [rewrite E1; reflexivity | ].
    split; [exact G1 | ]. split; [exact S1 | ]. split; [exact Ev1 | ].
    split; [exact Bd | ]. exists i, s'. split; [exact Hi | exact P].
Qed.

Lemma isBounce_dec_false (starId : string) :
  ~ isBounce (StarInHole starId) /\ ~ isBounce (StarHitMeteorite starId)
  /\ ~ isBounce StarShot.
Proof. repeat split; intros (id & H); discriminate. Qed.

Lemma updateX_throws_on_scoring (now : R) (w : World) :
  (exists ev, In ev (events (update now w)) /\ ~ In ev (events w) /\ ~ isBounce ev) ->
  exists w', Strict.updateX now w = Thrown w'.
Proof.
  intros (ev & Hin & Hold & Hnb).
  pose proof (updateX_spec now w) as H.
  destruct (Strict.updateX now w) as [w' | w']; [ | exists w'; reflexivity].
  exfalso. destruct H as (E & _ & l & V & F). subst w'.
  rewrite V in Hin. apply in_app_or in Hin. destruct Hin as [Hin | Hin].
  - exact (Hold Hin).
  - rewrite Forall_forall in F. exact (Hnb (F ev Hin)).
Qed.

Lemma sample_twoHoles_throws :
  exists w', Strict.updateX Sample.frame Sample.twoHoles = Thrown w'.
Proof.
  apply updateX_throws_on_scoring. exists (StarInHole "star1").
  rewrite sample_twoHoles_events. split; [left; reflexivity | ].
  split; [intros H; exact H | apply isBounce_dec_false].
Qed.

(** X20.  A call of [update] that returns has not scored.  Following the
    exception that [updateScore] raises (its last statement calls
    [checkScoreAchievement], which [AchievementManager] does not define):
    when [update] returns, the world is the one [update] gives with
    callbacks that return, the score is what it was and only bounces were
    reported; and whenever a pass makes a star enter the active hole or
    touch a meteorite, the call of [update] throws. *)
Theorem update_returns_only_without_scoring (now : R) (w : World) :
  (forall w',
      Strict.updateX now w = Normal w' ->
      w' = update now w
      /\ score (gameState w') = score (gameState w)
      /\ exists l, events w' = events w ++ l /\ Forall isBounce l)
  /\ ((exists ev, In ev (events (update now w)) /\ ~ In ev (events w)
                  /\ ~ isBounce ev) ->
      exists w', Strict.updateX now w = Thrown w').
Proof.
  split.
  - intros w' H. pose proof (updateX_spec now w) as S. rewrite H in S. exact S.
  - apply updateX_throws_on_scoring.
Qed.

Lemma update_returns_only_without_scoring_witness :
  exists w', Strict.updateX Sample.frame Sample.twoHoles = Thrown w'.
Proof.
  apply (proj2 (update_returns_only_without_scoring Sample.frame Sample.twoHoles)).
  exists (StarInHole "star1").
  rewrite sample_twoHoles_events. split; [left; reflexivity | ].
  split; [intros H; exact H | apply isBounce_dec_false].
Defined.

(** X21.  What the exception leaves.  When [update] throws, the engine's
    clock has been set and the stars up to the one that scored have made
    their step, that star being settled in the hole (not moving, velocity
    (0, 0)) or pushed to speed 5 by the meteorite; the score has changed
    once, by +100 or by -50; only bounces were reported, so neither the
    capture nor the hit reached the sound, vibration and notification
    collaborators; and the meteorites, the holes and the camera are as they
    were, no star having changed identity. *)
Theorem update_exception_leaves (now : R) (w w' : World) :
  Strict.updateX now w = Thrown w' ->
  enabled (physicsEngine w) = true
  /\ lastUpdateTime (physicsEngine w') = now
  /\ meteorites (physicsEngine w') = meteorites (physicsEngine w)
  /\ holes (physicsEngine w') = holes (physicsEngine w)
  /\ camera (gameState w') = camera (gameState w)
  /\ selectedStar (gameState w') = selectedStar (gameState w)
  /\ (score (gameState w') = (score (gameState w) + 100)%Z
      \/ score (gameState w') = (score (gameState w) - 50)%Z)
  /\ (exists l, events w' = events w ++ l /\ Forall isBounce l)
  /\ map body (stars (physicsEngine w')) = map body (stars (physicsEngine w))
  /\ exists i s', starAt i w' = Some s' /\ settledOrPushed s'.
Proof.
  intros H. pose proof (updateX_spec now w) as S. rewrite H in S.
  destruct S as (En & E & G & Sc & Ev & Bd & P).
  split; [exact En | ]. rewrite E. cbn [lastUpdateTime set_stars set_lastUpdateTime
                                         meteorites holes].
  split; [reflexivity | ]. split; [reflexivity | ]. split; [reflexivity | ].
  split; [exact (f_equal camera G) | ].
  split; [exact (f_equal selectedStar G) | ].
  split; [exact Sc | ]. split; [exact Ev | ]. split; [exact Bd | exact P].
Qed.

Lemma update_exception_leaves_witness :
  exists w',
    Strict.updateX Sample.frame Sample.twoHoles = Thrown w'
    /\ meteorites (physicsEngine w') = meteorites (physicsEngine Sample.twoHoles)
    /\ camera (gameState w') = camera (gameState Sample.twoHoles).
Proof.
  destruct sample_twoHoles_throws as (w' & H).
  exists w'. split; [exact H | ].
  destruct (update_exception_leaves Sample.frame Sample.twoHoles w' H)
    as (_ & _ & M & _ & C & _).
  split; [exact M | exact C].
Defined.

(* ================================================================== *)
(** ** Powerups and the keyboard *)

Lemma update_at_middle {A : Type} (f : A -> A) (pre post : list A) (a : A) :
  JS.update_at (List.length pre) f (pre ++ a :: post) = pre ++ f a :: post.
Proof.
  induction pre as [ | b pre IH]; [reflexivity | ].
  cbn [List.length app JS.update_at]. rewrite IH. reflexivity.
Qed.

Lemma splice1_middle {A : Type} (pre post : list A) (a : A) :
  JS_splice1 (List.length pre) (pre ++ a :: post) = pre ++ post.
Proof.
  induction pre as [ | b pre IH]; [reflexivity | ].
  cbn [List.length app JS_splice1]. rewrite IH. reflexivity.
Qed.

Lemma nth_error_middle {A : Type} (pre post : list A) (a : A) :
  nth_error (pre ++ a :: post) (List.length pre) = Some a.
Proof.
  induction pre as [ | b pre IH]; [reflexivity | exact IH].
Qed.

Lemma updatePowerupsLoop_spec (deltaTime : R) (pre post : list Powerup.t)
  (log : list PowerupEvent) :
  updatePowerupsLoop deltaTime (List.length pre) (pre ++ post) log
  = Normal (filter stillRunning (map (tick deltaTime) pre) ++ post,
            log ++ flat_map (powerupEvents deltaTime) (rev pre)).
Proof.
  revert post log. induction pre as [ | p pre IH] using rev_ind; intros post log.
  - simpl. rewrite app_nil_r. reflexivity.
  - rewrite length_app. cbn [List.length]. rewrite Nat.add_1_r.
    cbn [updatePowerupsLoop]. rewrite <- app_assoc. cbn [app].
    rewrite nth_error_middle. cbv zeta.
    rewrite update_at_middle.
    rewrite rev_app_distr. cbn [rev app flat_map].
    rewrite map_app, filter_app. cbn [map filter].
    unfold stillRunning at 2. unfold powerupEvents at 1. cbv zeta.
    destruct (JS_leb (Powerup.timeLeft (tick deltaTime p)) 0) eqn:E; cbn [negb].
    + rewrite splice1_middle. rewrite IH. rewrite app_nil_r.
      rewrite <- !app_assoc. reflexivity.
    + rewrite (IH (tick deltaTime p :: post)). rewrite <- !app_assoc. reflexivity.
Qed.

(** X22.  [updatePowerups] visits the powerups from the last to the first,
    takes [deltaTime / 1000] off the time left of each and removes exactly
    those whose time left is then zero or less, the others keeping their
    order; removing while it walks makes it skip none and read no position
    past the end, so the call returns, and every powerup left has time left
    above zero.  The interface is told the remaining fraction of each
    powerup, last one first, and that it expired right after its fraction
    (the fractions as stated when no duration is zero). *)
Theorem updatePowerups_expires (deltaTime : R) (powerups : list Powerup.t) :
  exists log,
    updatePowerups deltaTime powerups
    = Normal (filter stillRunning (map (tick deltaTime) powerups), log)
    /\ Forall (fun p => Powerup.timeLeft p > 0)
         (filter stillRunning (map (tick deltaTime) powerups))
    /\ (Forall (fun p => Powerup.duration p <> 0) powerups ->
        log = flat_map (powerupEvents deltaTime) (rev powerups)).
Proof.
  exists (flat_map (powerupEvents deltaTime) (rev powerups)). split.
  - unfold updatePowerups.
    pose proof (updatePowerupsLoop_spec deltaTime powerups [] []) as H.
    rewrite !app_nil_r in H. exact H.
  - split; [ | intros _; reflexivity].
    apply Forall_forall. intros p Hp. apply filter_In in Hp.
    destruct Hp as (_ & Hp). unfold stillRunning, JS_leb in Hp.
    destruct (Rle_dec (Powerup.timeLeft p) 0); [discriminate | lra].
Qed.

Lemma updatePowerups_expires_witness :
  exists log,
    updatePowerups 500 [Powerup.mk "shield" 10 (1 / 4); Powerup.mk "magnet" 5 2]
    = Normal ([Powerup.mk "magnet" 5 (2 - 500 / 1000)], log)
    /\ log = [PowerupDisplay "magnet" ((2 - 500 / 1000) / 5);
              PowerupDisplay "shield" ((1 / 4 - 500 / 1000) / 10);
              PowerupExpired "shield"].
Proof.
  destruct (updatePowerups_expires 500
              [Powerup.mk "shield" 10 (1 / 4); Powerup.mk "magnet" 5 2])
    as (log & E & _ & L).
  exists log. split.
  - rewrite E. f_equal. f_equal. unfold stillRunning, JS_leb.
    cbn [map filter tick Powerup.type Powerup.duration Powerup.timeLeft].
    destruct (Rle_dec (1 / 4 - 500 / 1000) 0) as [_ | N]; [ | exfalso; lra].
    destruct (Rle_dec (2 - 500 / 1000) 0) as [N | _]; [exfalso; lra | ].
    reflexivity.
  - rewrite L by (repeat constructor; cbn [Powerup.duration]; lra).
    cbn [rev app flat_map]. unfold powerupEvents, JS_leb.
    cbn [tick Powerup.type Powerup.duration Powerup.timeLeft].
    destruct (Rle_dec (1 / 4 - 500 / 1000) 0) as [_ | N]; [ | exfalso; lra].
    destruct (Rle_dec (2 - 500 / 1000) 0) as [N | _]; [exfalso; lra | ].
    reflexivity.
Defined.

Lemma switchActiveStar_returns (w : World) :
  exists w',
    switchActiveStar w = Some (w', None)
    /\ physicsEngine w' = physicsEngine w
    /\ set_selectedStar None (gameState w') = set_selectedStar None (gameState w)
    /\ events w' = events w.
Proof.
  unfold switchActiveStar.
  set (available := filter isAvailable (stars (physicsEngine w))).
  destruct available as [ | a l] eqn:Ea.
  - exists w. repeat split.
  - assert (Hne : a :: l <> []) by discriminate.
    destruct (nextAvailable_lt (selectedStar (gameState w)) (a :: l) Hne)
      as (Hlt & Hrem).
    set (next := nextAvailable (selectedStar (gameState w)) (a :: l)) in *.
    destruct (nth_error (a :: l) next) as [nextStar | ] eqn:En;
      [ | apply nth_error_None in En; lia].
    exists (set_gameState
              (set_selectedStar (Some (Star.id nextStar)) (gameState w)) w).
    split.
    + replace (List.length (a :: l) =? 0)%nat with false by reflexivity.
      rewrite Hrem. unfold JS.index.
      destruct (Z.ltb_spec (Z.of_nat next) 0); [lia | ].
      rewrite Nat2Z.id, En. reflexivity.
    + repeat split.
Qed.

(** X23.  The keyboard.  [handleKeyDown] never throws and never touches the
    engine, the score or the drag in progress.  It does nothing while no
    game is active; while the game is paused only Escape acts, and resumes
    it; in a running game Escape pauses, an arrow moves the camera by 20
    along its axis and nothing else, and every other key but the space bar
    is ignored. *)
Theorem keys_pause_switch_and_move_camera (key : Key) (w : World) :
  exists w',
    handleKeyDown key w = Some w'
    /\ physicsEngine w' = physicsEngine w
    /\ score (gameState w') = score (gameState w)
    /\ events w' = events w
    /\ dragging (gameState w') = dragging (gameState w)
    /\ gameActive (gameState w') = gameActive (gameState w)
    /\ (gameActive (gameState w) = false -> w' = w)
    /\ (gameActive (gameState w) = true ->
        (key = Escape ->
         w' = set_gameState
                (set_gamePaused (negb (gamePaused (gameState w))) (gameState w)) w)
        /\ (key <> Escape -> gamePaused (gameState w) = true -> w' = w)
        /\ (gamePaused (gameState w) = false ->
            match key with
            | ArrowLeft => w' = moveCamera (- 20) 0 w
            | ArrowRight => w' = moveCamera 20 0 w
            | ArrowUp => w' = moveCamera 0 (- 20) w
            | ArrowDown => w' = moveCamera 0 20 w
            | OtherKey => w' = w
            | Escape | Space => True
            end)).
Proof.
  unfold handleKeyDown.
  destruct (gameActive (gameState w)) eqn:Ga; cbn [negb].
  2:{ exists w. repeat split; intros; try reflexivity; congruence. }
  destruct key; try destruct (gamePaused (gameState w)) eqn:Gp; cbn [negb];
    try (eexists; split; [reflexivity | ]; unfold togglePause, moveCamera;
         try rewrite Gp; cbn [fst negb];
         repeat split; intros; try reflexivity; try exact I; try congruence;
         try (simpl; assumption); fail).
  destruct (switchActiveStar_returns w) as (w' & E & Pe & G & Ev).
  exists w'. rewrite E. split; [reflexivity | ]. split; [exact Pe | ].
  split; [exact (f_equal score G) | ]. split; [exact Ev | ].
  split; [exact (f_equal dragging G) | ].
  split; [rewrite <- Ga; exact (f_equal gameActive G) | ].
  split; [intros H; discriminate | ]. intros _.
  split; [intros H; discriminate | ]. split; [intros _ H; discriminate | ].
  intros _. exact I.
Qed.

Lemma keys_pause_switch_and_move_camera_witness :
  handleKeyDown ArrowLeft Sample.twoHoles
  = Some (moveCamera (- 20) 0 Sample.twoHoles).
Proof.
  destruct (keys_pause_switch_and_move_camera ArrowLeft Sample.twoHoles)
    as (w' & E & _ & _ & _ & _ & _ & _ & H).
  destruct (H eq_refl) as (_ & _ & H3).
  rewrite E. f_equal. exact (H3 eq_refl).
Defined.

(* ================================================================== *)
(** ** The pass over the stars with the game's own callbacks, star by star *)

Lemma captures_existsb_same_place (s s' : Star.t) (l : list Hole.t) :
  Star.x s' = Star.x s -> Star.y s' = Star.y s ->
  existsb (captures s') l = existsb (captures s) l.
Proof.
  intros X Y. induction l as [ | h l IH]; simpl; [reflexivity | ].
  rewrite IH, (captures_same_place s s' h X Y). reflexivity.
Qed.

Lemma touches_same_place (s s' : Star.t) (m : Meteorite.t) :
  Star.x s' = Star.x s -> Star.y s' = Star.y s -> Star.radius s' = Star.radius s ->
  touches s' m = touches s m.
Proof.
  intros X Y Rd. unfold touches, meteoriteDistance. rewrite X, Y, Rd. reflexivity.
Qed.

(** The capture branch of [checkHoleCollisions]: the four assignments are
    made, then [onStarInHole] throws. *)
Lemma checkHoleX_captures (s : Star.t) (w : World) (hole : Hole.t) :
  captures s hole = true ->
  exists s',
    Strict.checkHoleX (s, w) hole = Thrown (s', updateScore 100 w)
    /\ Star.inHole s' = true /\ Star.moving s' = false
    /\ Star.velocity s' = Vec.mk 0 0
    /\ Star.x s' = Star.x s /\ Star.y s' = Star.y s /\ body s' = body s.
Proof.
  unfold captures, holeDistance, Strict.checkHoleX. cbv zeta.
  destruct (JS.ltb _ _); [ | discriminate].
  destruct (Hole.isActive hole); [ | discriminate]. intros _.
  eexists. split; [reflexivity | ]. repeat split.
Qed.

(** The other branches: the callback returns what [checkHole] gives, and
    the game has not been called. *)
Lemma checkHoleX_passes (s : Star.t) (w : World) (hole : Hole.t) :
  captures s hole = false ->
  Strict.checkHoleX (s, w) hole = Normal (checkHole (s, w) hole)
  /\ snd (checkHole (s, w) hole) = w.
Proof.
  unfold captures, holeDistance, Strict.checkHoleX, checkHole. cbv zeta.
  destruct (JS.ltb _ _); [ | split; reflexivity].
  destruct (Hole.isActive hole); [discriminate | split; reflexivity].
Qed.

Lemma checkHoleCollisionsX_cases (l : list Hole.t) (s : Star.t) (w : World) :
  if existsb (captures s) l then
    exists s',
      Strict.forEachX Strict.checkHoleX l (s, w) = Thrown (s', updateScore 100 w)
      /\ Star.inHole s' = true /\ Star.moving s' = false
      /\ Star.velocity s' = Vec.mk 0 0
      /\ Star.x s' = Star.x s /\ Star.y s' = Star.y s /\ body s' = body s
  else
    Strict.forEachX Strict.checkHoleX l (s, w)
    = Normal (fold_left checkHole l (s, w))
    /\ snd (fold_left checkHole l (s, w)) = w.
Proof.
  revert s. induction l as [ | h l IH]; intros s; cbn [existsb].
  - split; reflexivity.
  - destruct (captures s h) eqn:C; cbn [orb].
    + destruct (checkHoleX_captures s w h C) as (s' & E & P).
      exists s'. split; [ | exact P]. cbn [Strict.forEachX]. rewrite E. reflexivity.
    + destruct (checkHoleX_passes s w h C) as (E & Ew).
      destruct (checkHole_keeps (s, w) h) as (X & Y & _).
      pose proof (checkHole_body (s, w) h) as B.
      cbn [Strict.forEachX fold_left]. rewrite E.
      destruct (checkHole (s, w) h) as [s2 w2]. cbn [fst snd] in *. subst w2.
      specialize (IH s2).
      rewrite (captures_existsb_same_place s s2 l X Y) in IH.
      destruct (existsb (captures s) l).
      * destruct IH as (s' & E' & I' & M' & V' & X' & Y' & B').
        exists s'. split; [exact E' | ]. repeat split; congruence.
      * exact IH.
Qed.

(** A meteorite that the star touches: the velocity is assigned, then
    [onStarHitMeteorite] throws. *)
Lemma checkMeteoriteX_touches (s : Star.t) (w : World) (m : Meteorite.t) :
  touches s m = true ->
  Strict.checkMeteoriteX (s, w) m
  = Thrown (fst (checkMeteorite (s, w) m), updateScore (-50) w).
Proof.
  unfold touches, meteoriteDistance, Strict.checkMeteoriteX, checkMeteorite.
  cbv zeta. destruct (JS.ltb _ _); [ | discriminate]. intros _. reflexivity.
Qed.

Lemma checkMeteoriteX_passes (s : Star.t) (w : World) (m : Meteorite.t) :
  touches s m = false ->
  Strict.checkMeteoriteX (s, w) m = Normal (s, w)
  /\ checkMeteorite (s, w) m = (s, w).
Proof.
  unfold touches, meteoriteDistance, Strict.checkMeteoriteX, checkMeteorite.
  cbv zeta. destruct (JS.ltb _ _); [discriminate | split; reflexivity].
Qed.

Lemma checkMeteoriteCollisionsX_cases (l : list Meteorite.t) (s : Star.t)
  (w : World) :
  match List.find (touches s) l with
  | Some m =>
      Strict.forEachX Strict.checkMeteoriteX l (s, w)
      = Thrown (fst (checkMeteorite (s, w) m), updateScore (-50) w)
      /\ touches s m = true
  | None =>
      Strict.forEachX Strict.checkMeteoriteX l (s, w) = Normal (s, w)
      /\ fold_left checkMeteorite l (s, w) = (s, w)
  end.
Proof.
  induction l as [ | m l IH]; cbn [List.find].
  - split; reflexivity.
  - destruct (touches s m) eqn:T.
    + cbn [Strict.forEachX]. rewrite (checkMeteoriteX_touches s w m T).
      split; [reflexivity | exact T].
    + destruct (checkMeteoriteX_passes s w m T) as (E & E').
      cbn [Strict.forEachX fold_left]. rewrite E, E'. exact IH.
Qed.

Lemma find_pointwise {A : Type} (p q : A -> bool) (l : list A) :
  (forall a, p a = q a) -> List.find p l = List.find q l.
Proof.
  intros H. induction l as [ | a l IH]; simpl; [reflexivity | ].
  rewrite H, IH. reflexivity.
Qed.

Lemma pushed_star (s : Star.t) (w : World) (m : Meteorite.t) :
  touches s m = true ->
  let s' := fst (checkMeteorite (s, w) m) in
  speed s' = 5
  /\ Star.inHole s' = Star.inHole s /\ Star.moving s' = Star.moving s
  /\ Star.x s' = Star.x s /\ Star.y s' = Star.y s /\ body s' = body s.
Proof.
  intros T. cbv zeta.
  destruct (checkMeteorite_keeps (s, w) m) as (X & Y & _).
  destruct (checkMeteorite_flags (s, w) m) as (I & M).
  pose proof (checkMeteorite_body (s, w) m) as B.
  cbn [fst] in *. split; [ | repeat split; assumption].
  revert T. unfold touches, meteoriteDistance, checkMeteorite. cbv zeta.
  destruct (JS.ltb _ _); [ | discriminate]. intros _.
  unfold speed. star_fields. apply unit_vector_norm. lra.
Qed.

(** The visit of a star in flight: [s1] is the star displaced and put back
    into the board.  If an active hole is in reach of [s1] the visit ends in
    the capture, by the exception; otherwise, if [s1] touches a meteorite,
    in the push of the first one it touches, by the exception; otherwise it
    returns, and returns what [updateStar] gives. *)
Lemma updateStarX_cases (dt : R) (s : Star.t) (w : World) :
  Star.moving s = true -> Star.inHole s = false ->
  let s1 := fst (checkBoundaryCollisions (integrate dt s) w) in
  let w1 := snd (checkBoundaryCollisions (integrate dt s) w) in
  if existsb (captures s1) (holes (physicsEngine w)) then
    exists s',
      Strict.updateStarX dt s w = Thrown (s', updateScore 100 w1)
      /\ Star.inHole s' = true /\ Star.moving s' = false
      /\ Star.velocity s' = Vec.mk 0 0
      /\ Star.x s' = Star.x s1 /\ Star.y s' = Star.y s1 /\ body s' = body s
  else
    let s2 := fst (checkHoleCollisions s1 w1) in
    match List.find (touches s1) (meteorites (physicsEngine w)) with
    | Some m =>
        Strict.updateStarX dt s w
        = Thrown (fst (checkMeteorite (s2, w1) m), updateScore (-50) w1)
        /\ touches s1 m = true
        /\ Star.inHole s2 = false /\ Star.moving s2 = true
        /\ Star.x s2 = Star.x s1 /\ Star.y s2 = Star.y s1 /\ body s2 = body s
    | None =>
        Strict.updateStarX dt s w = Normal (updateStar dt s w)
        /\ Star.inHole (fst (updateStar dt s w)) = false
    end.
Proof.
  intros Hm Hh. cbv zeta.
  pose proof (updateStar_flying dt s w Hm Hh) as (Fi & _). cbv zeta in Fi.
  unfold Strict.updateStarX, updateStar in *. rewrite Hm, Hh in *.
  cbn [negb orb] in *. cbv iota zeta in *.
  pose proof (checkBoundaryCollisions_frame (integrate dt s) w) as (E1 & _).
  pose proof (checkBoundaryCollisions_spec (integrate dt s) w)
    as (_ & _ & _ & _ & _ & _ & _ & M1 & I1 & _).
  pose proof (checkBoundaryCollisions_body (integrate dt s) w) as B1.
  cbv zeta in M1, I1.
  destruct (checkBoundaryCollisions (integrate dt s) w) as [s1 w1].
  cbn [fst snd] in *.
  assert (B1' : body s1 = body s) by (rewrite B1; reflexivity).
  unfold Strict.checkHoleCollisionsX, checkHoleCollisions in *. rewrite E1 in *.
  pose proof (checkHoleCollisionsX_cases (holes (physicsEngine w)) s1 w1) as H2.
  destruct (existsb (captures s1) (holes (physicsEngine w))) eqn:C.
  - destruct H2 as (s' & E & I' & M' & V' & X' & Y' & B').
    exists s'. rewrite E. split; [reflexivity | ]. repeat split; congruence.
  - destruct H2 as (E2 & Ew2). rewrite E2.
    destruct (fold_checkHole_flags (holes (physicsEngine w)) s1 w1) as (I2 & M2).
    pose proof (fold_keeps checkHole checkHole_keeps (holes (physicsEngine w))
                  (s1, w1)) as (X2 & Y2 & R2).
    pose proof (fold_body checkHole checkHole_body (holes (physicsEngine w))
                  (s1, w1)) as B2.
    destruct (fold_left checkHole (holes (physicsEngine w)) (s1, w1)) as [s2 w2].
    cbn [fst snd] in *. subst w2.
    destruct (integrate_flags dt s) as (Fm & Fh & _).
    rewrite C, I1, Fh, Hh in I2. rewrite C, M1, Fm, Hm in M2.
    cbn [orb andb negb] in I2, M2.
    unfold Strict.checkMeteoriteCollisionsX, checkMeteoriteCollisions in *.
    rewrite E1 in *.
    pose proof (checkMeteoriteCollisionsX_cases (meteorites (physicsEngine w)) s2 w1)
      as H3.
    assert (Hf : List.find (touches s2) (meteorites (physicsEngine w))
                 = List.find (touches s1) (meteorites (physicsEngine w))).
    { apply find_pointwise. intros m. apply touches_same_place; assumption. }
    rewrite Hf in H3.
    destruct (List.find (touches s1) (meteorites (physicsEngine w))) as [m | ].
    + destruct H3 as (E3 & T3). rewrite E3. split; [reflexivity | ].
      split; [rewrite <- T3; symmetry; apply touches_same_place; assumption | ].
      repeat split; congruence.
    + destruct H3 as (E3 & F3). rewrite E3, F3 in *. split; [reflexivity | ].
      rewrite Fi. reflexivity.
Qed.

Lemma updateStarX_world (dt : R) (s : Star.t) (w : World) :
  let w' := snd (stateAfter (Strict.updateStarX dt s w)) in
  physicsEngine w' = physicsEngine w
  /\ Math_random w' = Math_random w
  /\ randomDraws w' = randomDraws w.
Proof.
  cbv zeta. pose proof (updateStarX_spec dt s w) as H.
  destruct (Strict.updateStarX dt s w) as [[s' w'] | [s' w']]; cbn [stateAfter snd] in *.
  - destruct H as (_ & E & _ & M & D & _). auto.
  - destruct H as ((E & _ & _ & M & D & _) & _). auto.
Qed.

Lemma forEachStarX_world (dt : R) (l : list Star.t) (w : World) :
  let r := stateAfter (Strict.forEachStarX (Strict.updateStarX dt) l w) in
  physicsEngine (snd r) = physicsEngine w
  /\ Math_random (snd r) = Math_random w
  /\ randomDraws (snd r) = randomDraws w
  /\ List.length (fst r) = List.length l.
Proof.
  cbv zeta. revert w. induction l as [ | s l IH]; intros w.
  - repeat split.
  - cbn [Strict.forEachStarX].
    destruct (updateStarX_world dt s w) as (E1 & M1 & D1).
    destruct (Strict.updateStarX dt s w) as [[s1 w1] | [s1 w1]];
      cbn [stateAfter snd fst] in *.
    + specialize (IH w1).
      destruct (Strict.forEachStarX (Strict.updateStarX dt) l w1)
        as [[l2 w2] | [l2 w2]]; cbn [stateAfter snd fst List.length] in *;
        destruct IH as (E2 & M2 & D2 & L2); repeat split; congruence.
    + repeat split; assumption.
Qed.

(** The stars a pass visits are those before the position where it throws. *)
Lemma forEachStarX_visited (dt : R) (l : list Star.t) (w : World) :
  match Strict.forEachStarX (Strict.updateStarX dt) l w with
  | Normal _ => visitedStars (Strict.updateStarX dt) l w = List.length l
  | Thrown _ =>
      (1 <= visitedStars (Strict.updateStarX dt) l w <= List.length l)%nat
  end.
Proof.
  revert w. induction l as [ | s l IH]; intros w; [reflexivity | ].
  cbn [Strict.forEachStarX visitedStars List.length].
  destruct (Strict.updateStarX dt s w) as [[s1 w1] | [s1 w1]]; [ | lia].
  specialize (IH w1).
  destruct (Strict.forEachStarX (Strict.updateStarX dt) l w1) as [[l2 w2] | [l2 w2]];
    lia.
Qed.

(** A star past the last one visited is untouched; a star that is visited is
    what its own visit left, and that visit returned unless it is the last. *)
Lemma forEachStarX_nth (dt : R) (l : list Star.t) (w : World) (i : nat)
  (s : Star.t) :
  nth_error l i = Some s ->
  let c := Strict.forEachStarX (Strict.updateStarX dt) l w in
  let k := visitedStars (Strict.updateStarX dt) l w in
  ((k <= i)%nat -> nth_error (fst (stateAfter c)) i = Some s)
  /\ ((i < k)%nat ->
      exists wi,
        physicsEngine wi = physicsEngine w
        /\ nth_error (fst (stateAfter c)) i
           = Some (fst (stateAfter (Strict.updateStarX dt s wi)))
        /\ ((S i < k)%nat \/ (exists r, c = Normal r) ->
            exists r, Strict.updateStarX dt s wi = Normal r)).
Proof.
  cbv zeta. revert w i. induction l as [ | a l IH]; intros w i Hi.
  - destruct i; discriminate.
  - cbn [Strict.forEachStarX visitedStars].
    destruct (updateStarX_world dt a w) as (E1 & _).
    destruct (Strict.updateStarX dt a w) as [[a1 w1] | [a1 w1]] eqn:Ea;
      cbn [stateAfter snd fst] in E1.
    + destruct i as [ | i]; cbn [nth_error] in Hi.
      * injection Hi as <-. split; [lia | ]. intros _.
        exists w. split; [reflexivity | ]. rewrite Ea. cbn [stateAfter fst].
        split.
        -- destruct (Strict.forEachStarX (Strict.updateStarX dt) l w1)
             as [[l2 w2] | [l2 w2]]; reflexivity.
        -- intros _. exists (a1, w1). reflexivity.
      * destruct (IH w1 i Hi) as (Hpast & Hin).
        destruct (Strict.forEachStarX (Strict.updateStarX dt) l w1)
          as [[l2 w2] | [l2 w2]] eqn:El; cbn [stateAfter fst nth_error] in *.
        -- split; [intros H; apply Hpast; lia | ].
           intros H. destruct Hin as (wi & Ei & Hn & Hr); [lia | ].
           exists wi. split; [congruence | ]. split; [exact Hn | ].
           intros _. apply Hr. right. exists (l2, w2). reflexivity.
        -- split; [intros H; apply Hpast; lia | ].
           intros H. destruct Hin as (wi & Ei & Hn & Hr); [lia | ].
           exists wi. split; [congruence | ]. split; [exact Hn | ].
           intros [H' | (r & H')]; [apply Hr; left; lia | discriminate].
    + destruct i as [ | i]; cbn [nth_error stateAfter fst] in *.
      * injection Hi as <-. split; [lia | ]. intros _.
        exists w. split; [reflexivity | ]. rewrite Ea. cbn [stateAfter fst].
        split; [reflexivity | ].
        intros [H' | (r & H')]; [lia | discriminate].
      * split; [intros _; exact Hi | lia].
Qed.

(** The stars a call of [update] leaves are those its pass over the stars
    leaves. *)
Lemma updateX_stars (now : R) (w : World) :
  enabled (physicsEngine w) = true ->
  stars (physicsEngine (stateAfter (Strict.updateX now w)))
  = fst (stateAfter
           (Strict.forEachStarX
              (Strict.updateStarX (deltaTimeOf (physicsEngine w) now))
              (stars (physicsEngine w))
              (set_engine (set_lastUpdateTime now (physicsEngine w)) w))).
Proof.
  intros En. unfold Strict.updateX, Strict.updateStarsX. rewrite En.
  cbn [negb]. cbv zeta.
  cbn [physicsEngine set_engine stars set_lastUpdateTime].
  destruct (Strict.forEachStarX _ _ _) as [[l w1] | [l w1]];
    cbn [stateAfter fst]; [ | reflexivity].
  rewrite (proj1 (updateCamera_frame _)). reflexivity.
Qed.

(** What a call of [update] keeps, whether it returns or throws. *)
Lemma updateX_frame (now : R) (w : World) :
  let w' := stateAfter (Strict.updateX now w) in
  holes (physicsEngine w') = holes (physicsEngine w)
  /\ activeHole (physicsEngine w') = activeHole (physicsEngine w)
  /\ enabled (physicsEngine w') = enabled (physicsEngine w)
  /\ useDeltaTime (physicsEngine w') = useDeltaTime (physicsEngine w)
  /\ Math_random w' = Math_random w
  /\ randomDraws w' = randomDraws w
  /\ List.length (stars (physicsEngine w')) = List.length (stars (physicsEngine w))
  /\ (enabled (physicsEngine w) = true -> lastUpdateTime (physicsEngine w') = now).
Proof.
  cbv zeta. destruct (enabled (physicsEngine w)) eqn:En.
  2:{ unfold Strict.updateX. rewrite En. cbn [negb stateAfter].
      repeat split; try assumption. intros H; discriminate. }
  pose proof (updateX_stars now w En) as Hs.
  unfold Strict.updateX, Strict.updateStarsX in *. rewrite En in *.
  cbn [negb] in *. cbv zeta in *.
  set (dt := deltaTimeOf (physicsEngine w) now) in *.
  set (w0 := set_engine (set_lastUpdateTime now (physicsEngine w)) w) in *.
  destruct (forEachStarX_world dt (stars (physicsEngine w0)) w0) as (E & M & D & L).
  change (stars (physicsEngine w0)) with (stars (physicsEngine w)) in *.
  destruct (Strict.forEachStarX (Strict.updateStarX dt) (stars (physicsEngine w)) w0)
    as [[l w1] | [l w1]]; cbn [stateAfter fst snd] in *.
  - destruct (updateCamera_frame
                (updateMeteorites dt (set_engine (set_stars l (physicsEngine w1)) w1)))
      as (Ec & Mc & Dc & _).
    rewrite Ec, Mc, Dc. unfold updateMeteorites.
    cbn [physicsEngine set_engine set_meteorites set_stars holes activeHole enabled
         useDeltaTime lastUpdateTime stars Math_random randomDraws].
    rewrite E, M, D. repeat split; try assumption; try reflexivity.
  - cbn [physicsEngine set_engine set_stars holes activeHole enabled
         useDeltaTime lastUpdateTime stars Math_random randomDraws].
    rewrite E, M, D. repeat split; try assumption; try reflexivity.
Qed.

(** The star at a position after a call of [update]. *)
Lemma updateX_starAt (now : R) (w : World) (i : nat) (s : Star.t) :
  enabled (physicsEngine w) = true ->
  starAt i w = Some s ->
  let w' := stateAfter (Strict.updateX now w) in
  let dt := deltaTimeOf (physicsEngine w) now in
  ((visited now w <= i)%nat -> starAt i w' = Some s)
  /\ ((i < visited now w)%nat ->
      exists wi,
        physicsEngine wi = set_lastUpdateTime now (physicsEngine w)
        /\ starAt i w' = Some (fst (stateAfter (Strict.updateStarX dt s wi)))
        /\ ((S i < visited now w)%nat \/ (exists r, Strict.updateX now w = Normal r) ->
            exists r, Strict.updateStarX dt s wi = Normal r)).
Proof.
  intros En Hi. cbv zeta. unfold starAt in *.
  rewrite (updateX_stars now w En). unfold visited. rewrite En. cbn [negb].
  pose proof (forEachStarX_nth (deltaTimeOf (physicsEngine w) now)
                (stars (physicsEngine w))
                (set_engine (set_lastUpdateTime now (physicsEngine w)) w) i s Hi)
    as (Hpast & Hin). cbv zeta in Hpast, Hin.
  split; [exact Hpast | ].
  intros H. destruct (Hin H) as (wi & E & Hn & Hr).
  exists wi. split; [exact E | ]. split; [exact Hn | ].
  intros [H' | (r & H')]; [apply Hr; left; exact H' | ].
  apply Hr. right. revert H'.
  unfold Strict.updateX, Strict.updateStarsX. rewrite En. cbn [negb]. cbv zeta.
  cbn [physicsEngine set_engine stars set_lastUpdateTime].
  destruct (Strict.forEachStarX _ _ _) as [[l w1] | [l w1]]; [ | discriminate].
  intros _. exists (l, w1). reflexivity.
Qed.

Lemma updateX_disabled (now : R) (w : World) :
  enabled (physicsEngine w) = false -> Strict.updateX now w = Normal w.
Proof. intros En. unfold Strict.updateX. rewrite En. reflexivity. Qed.

Lemma updateX_returns_all (now : R) (w w' : World) :
  enabled (physicsEngine w) = true ->
  Strict.updateX now w = Normal w' ->
  visited now w = List.length (stars (physicsEngine w)).
Proof.
  intros En. unfold Strict.updateX, Strict.updateStarsX, visited. rewrite En.
  cbn [negb]. cbv zeta. cbn [physicsEngine set_engine stars set_lastUpdateTime].
  pose proof (forEachStarX_visited (deltaTimeOf (physicsEngine w) now)
                (stars (physicsEngine w))
                (set_engine (set_lastUpdateTime now (physicsEngine w)) w)) as V.
  destruct (Strict.forEachStarX _ _ _) as [[l w1] | [l w1]]; [ | discriminate].
  intros _. exact V.
Qed.

(** The first star is always visited. *)
Lemma visited_first (now : R) (w : World) :
  enabled (physicsEngine w) = true ->
  stars (physicsEngine w) <> [] ->
  (0 < visited now w)%nat.
Proof.
  intros En Hne. unfold visited. rewrite En. cbn [negb].
  destruct (stars (physicsEngine w)) as [ | s l]; [contradiction | ].
  cbn [visitedStars]. destruct (Strict.updateStarX _ _ _) as [[s1 w1] | r]; lia.
Qed.

(** What the visit of a star leaves of it. *)
Lemma updateStarX_after (dt : R) (s : Star.t) (w : World) :
  let s' := fst (stateAfter (Strict.updateStarX dt s w)) in
  (Star.moving s = false \/ Star.inHole s = true -> s' = s)
  /\ (Star.moving s = true -> Star.inHole s = false ->
      body s' = body s
      /\ (Star.radius s <= 400 -> inBoard s')
      /\ (Star.inHole s' = true ->
          Star.moving s' = false /\ Star.velocity s' = Vec.mk 0 0
          /\ exists r, Strict.updateStarX dt s w = Thrown r)).
Proof.
  cbv zeta. split.
  - intros H. unfold Strict.updateStarX.
    destruct H as [H | H]; rewrite H; rewrite ?orb_true_r; reflexivity.
  - intros Hm Hh. pose proof (updateStarX_cases dt s w Hm Hh) as C.
    cbv zeta in C.
    destruct (integrate_flags dt s) as (_ & _ & Rd & _).
    assert (In1 : Star.radius s <= 400 ->
                  inBoard (fst (checkBoundaryCollisions (integrate dt s) w))
                  /\ Star.radius (fst (checkBoundaryCollisions (integrate dt s) w))
                     = Star.radius s).
    { intros Hr.
      destruct (checkBoundaryCollisions_inBoard (integrate dt s) w) as (B & R1 & _);
        [rewrite Rd; exact Hr | ].
      split; [exact B | congruence]. }
    assert (Hb : forall a b : Star.t, body a = body b -> Star.radius a = Star.radius b).
    { intros a b H. unfold body in H. congruence. }
    assert (Hin : forall a b : Star.t,
               inBoard b -> Star.x a = Star.x b -> Star.y a = Star.y b ->
               Star.radius a = Star.radius b -> inBoard a).
    { intros a b B X Y R0. unfold inBoard in *. rewrite X, Y, R0. exact B. }
    destruct (existsb _ _).
    + destruct C as (s' & E & I' & M' & V' & X' & Y' & B').
      rewrite E. cbn [stateAfter fst]. split; [exact B' | ]. split.
      * intros Hr. destruct (In1 Hr) as (B & R1).
        apply (Hin _ _ B X' Y'). rewrite R1. apply Hb. exact B'.
      * intros _. split; [exact M' | ]. split; [exact V' | ].
        eexists. reflexivity.
    + destruct (List.find _ _) as [m | ].
      * destruct C as (E & T & I2 & M2 & X2 & Y2 & B2). rewrite E.
        cbn [stateAfter fst].
        set (s2 := fst (checkHoleCollisions
                          (fst (checkBoundaryCollisions (integrate dt s) w))
                          (snd (checkBoundaryCollisions (integrate dt s) w)))) in *.
        set (w1 := snd (checkBoundaryCollisions (integrate dt s) w)) in *.
        assert (T2 : touches s2 m = true).
        { rewrite <- T. apply touches_same_place; try assumption.
          rewrite (Hb _ _ B2).
          rewrite (Hb _ _ (checkBoundaryCollisions_body (integrate dt s) w)).
          symmetry. exact Rd. }
        destruct (pushed_star s2 w1 m T2) as (_ & I3 & M3 & X3 & Y3 & B3).
        cbv zeta in *. split; [congruence | ]. split.
        -- intros Hr. destruct (In1 Hr) as (B & R1).
           apply (Hin _ _ B); [congruence | congruence | ].
           rewrite R1. apply Hb. congruence.
        -- intros H. congruence.
      * destruct C as (E & I'). rewrite E. cbn [stateAfter].
        split; [apply updateStar_body | ]. split.
        -- intros Hr. apply updateStar_inBoard; assumption.
        -- intros H. congruence.
Qed.

(* ================================================================== *)
(** ** Runs of the game with its own callbacks *)

Lemma forEachStarX_Forall (P : Star.t -> Prop) (dt : R)
  (Hf : forall s w, P s -> P (fst (stateAfter (Strict.updateStarX dt s w))))
  (l : list Star.t) (w : World) :
  Forall P l ->
  Forall P (fst (stateAfter (Strict.forEachStarX (Strict.updateStarX dt) l w))).
Proof.
  intros H. revert w. induction H as [ | s l Hs Hl IH]; intros w.
  - constructor.
  - cbn [Strict.forEachStarX]. pose proof (Hf s w Hs) as H1.
    destruct (Strict.updateStarX dt s w) as [[s1 w1] | [s1 w1]];
      cbn [stateAfter fst] in *.
    + specialize (IH w1).
      destruct (Strict.forEachStarX (Strict.updateStarX dt) l w1)
        as [[l2 w2] | [l2 w2]]; cbn [stateAfter fst] in *;
        constructor; assumption.
    + constructor; assumption.
Qed.

Lemma updateX_settledAtRest (now : R) (w : World) :
  settledAtRest w -> settledAtRest (stateAfter (Strict.updateX now w)).
Proof.
  intros H. unfold settledAtRest in *.
  destruct (enabled (physicsEngine w)) eqn:En.
  - rewrite updateX_stars by exact En.
    apply forEachStarX_Forall; [ | exact H].
    intros s w0 P.
    destruct (updateStarX_after (deltaTimeOf (physicsEngine w) now) s w0)
      as (Hskip & Hfly). cbv zeta in Hskip, Hfly.
    destruct (Star.moving s) eqn:Hm; [destruct (Star.inHole s) eqn:Hh | ].
    + destruct (P eq_refl) as (M & _). discriminate.
    + destruct (Hfly eq_refl eq_refl) as (_ & _ & Hs).
      intros Hi. destruct (Hs Hi) as (M & V & _). split; assumption.
    + rewrite Hskip by (left; reflexivity). rewrite Hm. exact P.
  - rewrite updateX_disabled by exact En. exact H.
Qed.

Lemma initialize_keeps (P : Star.t -> Prop)
  (HP : forall s, Star.inHole s = false -> P s) (doc : Document) (now : R)
  (w : World) :
  Forall P (stars (physicsEngine (initialize doc now w))).
Proof.
  rewrite (proj1 (initialize_stars doc now w)).
  unfold initializeStars. cbn [physicsEngine set_engine stars set_stars].
  unfold starElements. cbn [flat_map fst snd].
  destruct (getElementById doc "star1"); destruct (getElementById doc "star2");
    destruct (getElementById doc "star3"); cbn [app];
    repeat constructor; apply HP; reflexivity.
Qed.

(** Whatever holds of every star that is not in a hole, and of the stars of
    a world, holds of its stars after an operation other than [update]. *)
Lemma exec_keeps (P : Star.t -> Prop)
  (HP : forall s, Star.inHole s = false -> P s) (w : World) (op : Op) :
  (forall now, op <> OpUpdate now) ->
  Forall P (stars (physicsEngine w)) ->
  Forall P (stars (physicsEngine (exec w op))).
Proof.
  intros Hop H.
  assert (Hshoot : forall d t v,
             Forall P (stars (physicsEngine v)) ->
             Forall P (stars (physicsEngine (shootStar d t v)))).
  { intros d t v Hv. unfold shootStar.
    destruct (negb _ || negb _); [exact Hv | ].
    destruct (selectedStar (gameState v)); [ | exact Hv].
    destruct (JS.find _ _); [ | exact Hv].
    destruct (JS.eqb _ _); [exact Hv | ].
    cbn [physicsEngine set_engine stars set_stars].
    apply update_first_Forall; [ | exact Hv]. intros a. apply HP. reflexivity. }
  destruct op; cbn [exec].
  - apply initialize_keeps. exact HP.
  - rewrite (proj1 (setActiveHole_frame w)). exact H.
  - exfalso. exact (Hop now eq_refl).
  - apply Hshoot. exact H.
  - destruct (switchActiveStar_frame w) as (E & _). simpl in E. rewrite E. exact H.
  - exact H.
  - constructor.
  - rewrite (proj1 (handleMouseDown_frame event now w)). exact H.
  - rewrite (proj1 (handleMouseMove_frame event w)). exact H.
  - unfold handleMouseUp. destruct (negb _ || negb _); [exact H | ].
    destruct (JS.gtb _ _); [ | exact H].
    cbn [set_gameState physicsEngine notify].
    apply Hshoot. exact H.
Qed.

Lemma execX_settledAtRest (w : World) (op : Op) :
  settledAtRest w -> settledAtRest (execX w op).
Proof.
  intros H.
  assert (G : forall o, (forall now, o <> OpUpdate now) -> settledAtRest (exec w o)).
  { intros o Ho. unfold settledAtRest.
    apply exec_keeps; [ | exact Ho | exact H].
    intros s Hs Hi. congruence. }
  destruct op; try (apply G; discriminate).
  apply updateX_settledAtRest. exact H.
Qed.

Lemma initialize_settledAtRest (doc : Document) (now : R) (w : World) :
  settledAtRest (initialize doc now w).
Proof.
  unfold settledAtRest. apply initialize_keeps. intros s Hs Hi. congruence.
Qed.

(* ================================================================== *)
(** ** A call of [update] on sample worlds *)

(** A call of [update] on an engine with one star. *)
Lemma updateX_one_star (now : R) (w : World) (s : Star.t) :
  enabled (physicsEngine w) = true ->
  stars (physicsEngine w) = [s] ->
  let dt := deltaTimeOf (physicsEngine w) now in
  let w0 := set_engine (set_lastUpdateTime now (physicsEngine w)) w in
  Strict.updateX now w
  = match Strict.updateStarX dt s w0 with
    | Normal (s', w1) =>
        Normal (updateCamera
                  (updateMeteorites dt
                     (set_engine (set_stars [s'] (physicsEngine w1)) w1)))
    | Thrown (s', w1) => Thrown (set_engine (set_stars [s'] (physicsEngine w1)) w1)
    end.
Proof.
  intros En Hs. cbv zeta. unfold Strict.updateX, Strict.updateStarsX.
  rewrite En. cbn [negb]. cbv zeta.
  cbn [physicsEngine set_engine stars set_lastUpdateTime]. rewrite Hs.
  cbn [Strict.forEachStarX].
  destruct (Strict.updateStarX _ _ _) as [[s' w1] | [s' w1]]; reflexivity.
Qed.

(** The star of the samples that is one step away from the hole at
    (500, 400). *)
Lemma sample_star_reaches_hole :
  let s1 := integrate 1 (Sample.star "star1" yellow 451 400 50 0 true false) in
  inBoard s1 /\ Star.x s1 = 500 /\ Star.y s1 = 400
  /\ captures s1 (Sample.hole "hole1" 500 400 true) = true.
Proof.
  cbv zeta. unfold inBoard, captures, holeDistance. star_fields.
  replace (451 + 50 * friction * 1 - 500) with 0 by (unfold friction; lra).
  replace (400 + 0 * friction * 1 - 400) with 0 by lra.
  replace (0 * 0 + 0 * 0) with 0 by lra. rewrite sqrt_0.
  rewrite ltb_true by (unfold collisionThreshold; lra).
  unfold friction, STAR_RADIUS. repeat split; lra.
Qed.

(** One frame on a world whose only star is that star and whose first hole
    is that hole, active: the star is settled, 100 points are awarded, and
    [update] throws. *)
Lemma sample_star_enters_hole (w : World) (rest : list Hole.t) :
  enabled (physicsEngine w) = true ->
  lastUpdateTime (physicsEngine w) = 0 ->
  useDeltaTime (physicsEngine w) = true ->
  stars (physicsEngine w) = [Sample.star "star1" yellow 451 400 50 0 true false] ->
  holes (physicsEngine w) = Sample.hole "hole1" 500 400 true :: rest ->
  exists s',
    Strict.updateX Sample.frame w
    = Thrown (set_engine
                (set_stars [s'] (set_lastUpdateTime Sample.frame (physicsEngine w)))
                (updateScore 100 w))
    /\ Star.inHole s' = true /\ Star.moving s' = false
    /\ Star.velocity s' = Vec.mk 0 0
    /\ Star.x s' = 500 /\ Star.y s' = 400.
Proof.
  intros En L U Hs Hh.
  rewrite (updateX_one_star Sample.frame w _ En Hs).
  rewrite frame_deltaTime by assumption.
  set (s0 := Sample.star "star1" yellow 451 400 50 0 true false).
  set (w0 := set_engine (set_lastUpdateTime Sample.frame (physicsEngine w)) w).
  destruct sample_star_reaches_hole as (B & X & Y & C). fold s0 in B, X, Y, C.
  pose proof (updateStarX_cases 1 s0 w0 eq_refl eq_refl) as H. cbv zeta in H.
  rewrite (checkBoundaryCollisions_inside _ w0 B) in H. cbn [fst snd] in H.
  change (holes (physicsEngine w0)) with (holes (physicsEngine w)) in H.
  rewrite Hh in H. cbn [existsb] in H. rewrite C in H. cbn [orb] in H.
  destruct H as (s' & E & I' & M' & V' & X' & Y' & _).
  exists s'. rewrite E. split; [reflexivity | ].
  repeat split; congruence.
Qed.

Lemma forEachStarX_all_skipped (dt : R) (l : list Star.t) (w : World) :
  existsb Star.moving l = false ->
  Strict.forEachStarX (Strict.updateStarX dt) l w = Normal (l, w).
Proof.
  induction l as [ | s l IH]; intros H; [reflexivity | ].
  cbn [existsb] in H. apply orb_false_iff in H. destruct H as (Hs & Hl).
  cbn [Strict.forEachStarX]. unfold Strict.updateStarX at 1. rewrite Hs.
  cbn [negb orb]. rewrite (IH Hl). reflexivity.
Qed.

(** With no star moving, [update] returns. *)
Lemma updateX_quiet (now : R) (w : World) :
  isAnyStarMoving w = false -> Strict.updateX now w = Normal (update now w).
Proof.
  intros H. pose proof (updateX_spec now w) as S.
  destruct (Strict.updateX now w) as [w' | w'] eqn:E.
  - destruct S as (-> & _). reflexivity.
  - exfalso. revert E. unfold Strict.updateX, Strict.updateStarsX.
    destruct (negb _); [discriminate | ]. cbv zeta.
    cbn [physicsEngine set_engine stars set_lastUpdateTime].
    rewrite forEachStarX_all_skipped by exact H. discriminate.
Qed.

(* ================================================================== *)
(** ** Stars in a hole *)

Lemma sample_holeNextToMeteorite_settles :
  exists w' s,
    Strict.updateX Sample.frame Sample.holeNextToMeteorite = Thrown w'
    /\ starAt 0 w' = Some s
    /\ Star.inHole s = true
    /\ Star.x s = 500 /\ Star.y s = 400
    /\ meteoriteDistance s (Sample.meteorite "meteorite1" 520 400)
       < Star.radius s + METEORITE_RADIUS.
Proof.
  destruct (sample_star_enters_hole Sample.holeNextToMeteorite [])
    as (s' & E & I' & M' & V' & X' & Y'); try reflexivity.
  eexists. exists s'. split; [exact E | ]. split; [reflexivity | ].
  split; [exact I' | ]. split; [exact X' | ]. split; [exact Y' | ].
  unfold meteoriteDistance. rewrite X', Y'. star_fields.
  pose proof (updateX_frame Sample.frame Sample.holeNextToMeteorite) as F.
  assert (Hr : Star.radius s' = 16).
  { pose proof (updateX_spec Sample.frame Sample.holeNextToMeteorite) as S.
    rewrite E in S. destruct S as (_ & _ & _ & _ & _ & Bd & _).
    cbn [physicsEngine set_engine set_stars stars Sample.holeNextToMeteorite
         Sample.world map] in Bd.
    unfold body in Bd. injection Bd as _ _ _ _ Hr. exact Hr. }
  rewrite Hr.
  replace ((500 - 520) * (500 - 520) + (400 - 400) * (400 - 400))
    with (20 * 20) by lra.
  rewrite sqrt_square by lra. unfold METEORITE_RADIUS. lra.
Qed.

(** C1.  A star in a hole is not moving and has velocity (0, 0): this holds
    once a level is initialised and after whatever sequence of operations
    follows, each running to its end or to its exception, and every
    operation keeps it from any world where it holds.  Within a pass: the
    visit of a star that comes within reach of an active hole ends in the
    capture, the star in the hole, not moving and with velocity (0, 0),
    because [onStarInHole] throws there (its [updateScore] calls a method
    that [AchievementManager] does not have): no later hole and no
    meteorite is checked for that star.  And a visit that returns has not
    changed [inHole]. *)
Theorem settled_star_has_no_velocity (ops : list Op) :
  (forall doc now w0, settledAtRest (runX ops (initialize doc now w0)))
  /\ (forall w, settledAtRest w -> settledAtRest (runX ops w))
  /\ (forall dt s w,
        Star.moving s = true -> Star.inHole s = false ->
        existsb (captures (fst (checkBoundaryCollisions (integrate dt s) w)))
                (holes (physicsEngine w)) = true ->
        exists s' w',
          Strict.updateStarX dt s w = Thrown (s', w')
          /\ Star.inHole s' = true /\ Star.moving s' = false
          /\ Star.velocity s' = Vec.mk 0 0)
  /\ (forall dt s w s' w',
        Strict.updateStarX dt s w = Normal (s', w') ->
        Star.inHole s' = Star.inHole s).
Proof.
  assert (G : forall w, settledAtRest w -> settledAtRest (runX ops w)).
  { unfold runX. induction ops as [ | op ops IH]; intros w H; simpl; [exact H | ].
    apply IH. apply execX_settledAtRest. exact H. }
  split; [intros doc now w0; apply G; apply initialize_settledAtRest | ].
  split; [exact G | ]. split.
  - intros dt s w Hm Hh C.
    pose proof (updateStarX_cases dt s w Hm Hh) as H. cbv zeta in H.
    rewrite C in H. destruct H as (s' & E & I' & M' & V' & _).
    exists s'. eexists. split; [exact E | ]. auto.
  - intros dt s w s' w' E.
    destruct (updateStarX_after dt s w) as (Hskip & Hfly). cbv zeta in *.
    rewrite E in *. cbn [stateAfter fst] in *.
    destruct (Star.moving s) eqn:Hm; [destruct (Star.inHole s) eqn:Hh | ].
    + rewrite Hskip by (right; reflexivity). exact Hh.
    + destruct (Hfly eq_refl eq_refl) as (_ & _ & Hs).
      destruct (Star.inHole s') eqn:Hi; [ | reflexivity].
      destruct (Hs eq_refl) as (_ & _ & r & Hr). discriminate.
    + rewrite Hskip by (left; reflexivity). reflexivity.
Qed.

Lemma settled_star_has_no_velocity_witness :
  exists s,
    starAt 0 (runX [OpUpdate Sample.frame] Sample.holeNextToMeteorite) = Some s
    /\ Star.inHole s = true
    /\ Star.moving s = false
    /\ Star.velocity s = Vec.mk 0 0.
Proof.
  destruct sample_holeNextToMeteorite_settles as (w' & s & E & Hs & Hi & _).
  exists s. cbn [runX fold_left execX]. rewrite E. cbn [stateAfter].
  split; [exact Hs | ]. split; [exact Hi | ].
  pose proof (proj1 (proj2 (settled_star_has_no_velocity [OpUpdate Sample.frame]))
                Sample.holeNextToMeteorite) as H.
  cbn [runX fold_left execX] in H. rewrite E in H. cbn [stateAfter] in H.
  assert (H0 : settledAtRest Sample.holeNextToMeteorite)
    by (repeat constructor; simpl; discriminate).
  specialize (H H0). unfold settledAtRest in H. rewrite Forall_forall in H.
  apply (H s); [ | exact Hi]. apply (nth_error_In _ 0). exact Hs.
Defined.

(* ================================================================== *)
(** ** The active hole after a target entry *)

(** C4, as the code has it.  [initialize] ends the set-up of a level with
    one call of [setActiveHole], which consumes one value of
    [Math.random()].  The target-entered callback [onStarInHole] does not
    call it: it awards the 100 points and throws, in [updateScore], before
    its sound, vibration and notification calls, with the engine, the random
    source and the events as they were.  And a call of [update], whether it
    returns or ends in that exception, leaves the holes, their [isActive]
    flags, the reference to the active hole and the random source as they
    were. *)
Theorem active_hole_selected_at_level_start_only :
  (forall doc now w,
      exists w2,
        holes (physicsEngine w2) = initializeHolesFrom doc 0 (holeNodes doc)
        /\ holes (physicsEngine (initialize doc now w))
           = holes (physicsEngine (setActiveHole w2))
        /\ activeHole (physicsEngine (initialize doc now w))
           = activeHole (physicsEngine (setActiveHole w2))
        /\ randomDraws (setActiveHole w2) = S (randomDraws w2)
        /\ randomDraws (initialize doc now w) = S (randomDraws w2))
  /\ (forall starId w,
        exists w',
          Strict.onStarInHoleX starId w = Thrown w'
          /\ physicsEngine w' = physicsEngine w
          /\ Math_random w' = Math_random w
          /\ randomDraws w' = randomDraws w
          /\ events w' = events w
          /\ score (gameState w') = (score (gameState w) + 100)%Z)
  /\ (forall now w,
        let w' := stateAfter (Strict.updateX now w) in
        holes (physicsEngine w') = holes (physicsEngine w)
        /\ activeHole (physicsEngine w') = activeHole (physicsEngine w)
        /\ Math_random w' = Math_random w
        /\ randomDraws w' = randomDraws w).
Proof.
  split; [ | split].
  - intros doc now w.
    destruct (initialize_holes doc now w) as (w2 & H & _ & _ & Hh & Ha & _ & D).
    exists w2. repeat split; try assumption. apply setActiveHole_frame.
  - intros starId w. eexists. split; [reflexivity | ]. repeat split.
  - intros now w. cbv zeta.
    destruct (updateX_frame now w) as (H & A & _ & _ & M & D & _). auto.
Qed.

(** C4, counterexample.  A star enters the first, active, hole of two, and
    the next value of [Math.random()] is 0.9.  The call of [update] settles
    the star, awards the 100 points and throws; it has reported nothing,
    consumed no random value and left the first hole active, while a call of
    [setActiveHole] at that point would have made the second hole the active
    one. *)
Lemma no_reselection_after_target_entry :
  exists w' s,
    Strict.updateX Sample.frame Sample.twoHoles = Thrown w'
    /\ starAt 0 w' = Some s /\ Star.inHole s = true
    /\ score (gameState w') = 100%Z
    /\ events w' = []
    /\ randomDraws w' = randomDraws Sample.twoHoles
    /\ activeHole (physicsEngine w') = activeHole (physicsEngine Sample.twoHoles)
    /\ map Hole.isActive (holes (physicsEngine w')) = [true; false]
    /\ map Hole.isActive (holes (physicsEngine (setActiveHole w'))) = [false; true]
    /\ randomDraws (setActiveHole w') <> randomDraws w'.
Proof.
  destruct (sample_star_enters_hole Sample.twoHoles
              [Sample.hole "hole2" 1000 400 false])
    as (s' & E & I' & _); try reflexivity.
  eexists. exists s'. split; [exact E | ].
  split; [reflexivity | ]. split; [exact I' | ].
  split; [reflexivity | ]. split; [reflexivity | ]. split; [reflexivity | ].
  split; [reflexivity | ]. split; [reflexivity | ]. split.
  - rewrite setActiveHole_holes.
    cbn [Sample.twoHoles Sample.world physicsEngine holes Math_random randomDraws
         map List.length set_engine set_stars set_lastUpdateTime updateScore
         set_gameState].
    assert (F : JS.floor (9 / 10 * INR 2) = 1%Z).
    { unfold JS.floor. symmetry. apply Int_part_spec. simpl. lra. }
    cbv zeta. rewrite F. reflexivity.
  - match goal with
    | |- randomDraws (setActiveHole ?v) <> _ =>
        destruct (setActiveHole_frame v) as (_ & _ & _ & _ & _ & _ & _ & _ & D')
    end.
    rewrite D'. cbn [randomDraws set_engine updateScore set_gameState]. lia.
Qed.

(* ================================================================== *)
(** ** Stars and the edges of the board *)

(** C6, as the code has it.  A star that a call of [update] integrates is
    within the 1600 x 800 board by its radius on both axes when the call
    ends, by return or by exception; every other star is left exactly as it
    was.  The stars integrated are those that are moving and not in a hole
    when an enabled [update] is called and that the pass over the stars
    reaches: all of these when [update] returns, and those stored no later
    than the star whose callback throws when it throws. *)
Theorem boundary_containment_of_integrated_stars
  (now : R) (w : World) (i : nat) (s : Star.t) :
  starAt i w = Some s ->
  Star.radius s = STAR_RADIUS ->
  exists s',
    starAt i (stateAfter (Strict.updateX now w)) = Some s'
    /\ (enabled (physicsEngine w) = true ->
        (i < visited now w)%nat ->
        Star.moving s = true -> Star.inHole s = false ->
        Star.radius s' <= Star.x s' <= 1600 - Star.radius s'
        /\ Star.radius s' <= Star.y s' <= 800 - Star.radius s')
    /\ (enabled (physicsEngine w) = false
        \/ (visited now w <= i)%nat
        \/ Star.moving s = false \/ Star.inHole s = true ->
        s' = s)
    /\ (forall w', Strict.updateX now w = Normal w' ->
                   enabled (physicsEngine w) = true ->
                   (i < visited now w)%nat)
    /\ (forall w', Strict.updateX now w = Thrown w' ->
                   enabled (physicsEngine w) = true
                   /\ (1 <= visited now w)%nat).
Proof.
  intros Hi Hr.
  assert (Hret : forall w', Strict.updateX now w = Normal w' ->
                            enabled (physicsEngine w) = true ->
                            (i < visited now w)%nat).
  { intros w' E En. rewrite (updateX_returns_all now w w' En E).
    apply nth_error_Some. unfold starAt in Hi. congruence. }
  assert (Hthr : forall w', Strict.updateX now w = Thrown w' ->
                            enabled (physicsEngine w) = true
                            /\ (1 <= visited now w)%nat).
  { intros w' E. destruct (enabled (physicsEngine w)) eqn:En.
    - split; [reflexivity | ]. revert E.
      unfold Strict.updateX, Strict.updateStarsX, visited. rewrite En.
      cbn [negb]. cbv zeta. cbn [physicsEngine set_engine stars set_lastUpdateTime].
      pose proof (forEachStarX_visited (deltaTimeOf (physicsEngine w) now)
                    (stars (physicsEngine w))
                    (set_engine (set_lastUpdateTime now (physicsEngine w)) w)) as V.
      destruct (Strict.forEachStarX _ _ _) as [[l w1] | [l w1]];
        [discriminate | intros _; lia].
    - rewrite updateX_disabled in E by exact En. discriminate. }
  destruct (enabled (physicsEngine w)) eqn:En.
  2:{ exists s.
      split; [rewrite updateX_disabled by exact En; exact Hi | ].
      split; [discriminate | ].
      split; [reflexivity | ]. split; [exact Hret | exact Hthr]. }
  destruct (updateX_starAt now w i s En Hi) as (Hpast & Hin). cbv zeta in *.
  destruct (Nat.lt_ge_cases i (visited now w)) as [Hv | Hv].
  - destruct (Hin Hv) as (wi & _ & Hs & _).
    destruct (updateStarX_after (deltaTimeOf (physicsEngine w) now) s wi)
      as (Hskip & Hfly). cbv zeta in *.
    eexists. split; [exact Hs | ]. split.
    + intros _ _ Hm Hh. destruct (Hfly Hm Hh) as (_ & B & _).
      apply B. rewrite Hr. unfold STAR_RADIUS. lra.
    + split; [ | split; [exact Hret | exact Hthr] ].
      intros [H | [H | H] ]; [discriminate | lia | apply Hskip; exact H].
  - exists s. split; [apply Hpast; exact Hv | ]. split; [intros _ H; lia | ].
    split; [reflexivity | ]. split; [exact Hret | exact Hthr].
Qed.

Lemma boundary_containment_of_integrated_stars_witness :
  exists s',
    starAt 0 (stateAfter (Strict.updateX Sample.frame Sample.flying)) = Some s'
    /\ Star.radius s' <= Star.x s' <= 1600 - Star.radius s'
    /\ Star.radius s' <= Star.y s' <= 800 - Star.radius s'.
Proof.
  destruct (boundary_containment_of_integrated_stars Sample.frame Sample.flying 0
              (Sample.star "star1" yellow 800 400 10 0 true false)
              eq_refl eq_refl)
    as (s' & Hs & Hin & _).
  exists s'. split; [exact Hs | ].
  apply Hin; try reflexivity.
  apply visited_first; [reflexivity | discriminate].
Defined.

(** C6, counterexample.  A star whose element has no [left] and no [top] is
    created at (0, 0); it is not moving, so a call of [update], which
    returns, skips it and leaves it less than its radius away from the left
    edge. *)
Lemma resting_star_outside_board :
  exists w' s,
    Strict.updateX Sample.frame (initialize Sample.bareDocument 0 Sample.fresh)
    = Normal w'
    /\ starAt 0 w' = Some s
    /\ Star.x s = 0 /\ Star.radius s = 16
    /\ ~ (Star.radius s <= Star.x s <= 1600 - Star.radius s).
Proof.
  assert (Hs : stars (physicsEngine (initialize Sample.bareDocument 0 Sample.fresh))
               = [Sample.star "star1" yellow 0 0 0 0 false false]).
  { rewrite (proj1 (initialize_stars Sample.bareDocument 0 Sample.fresh)).
    reflexivity. }
  eexists. exists (Sample.star "star1" yellow 0 0 0 0 false false).
  split.
  - apply updateX_quiet. unfold isAnyStarMoving. rewrite Hs. reflexivity.
  - split.
    + apply update_starAt_skipped.
      * unfold starAt. rewrite Hs. reflexivity.
      * right. left. reflexivity.
    + cbn -[Rle IZR Rminus]. unfold STAR_RADIUS. repeat split; lra.
Qed.

(* ================================================================== *)
(** ** Friction brings a star that the passes reach to rest *)













(* ================================================================== *)
(** ** A star that the passes do not reach *)








